(** * R3M performance load tester: a shallow embedding and its properties

    The development follows [scripts/performance_loadtest.py]: the synthetic
    document generator, the request executor, the batch runner, the session
    orchestrator, the load controller, the aggregator and the CSV exporter.

    Conventions of the embedding.
    - Python [int] is [Z]; [str] and [bytes] are [string].
    - A [float] the program computes from the clock or from a size is the
      rational it denotes, a value of [Q]; where the program truncates a
      product of floats to an integer, the product is rounded to the nearest
      double first ([Py.fmul]). A number decoded from a reply is a
      [Py.number]: an [int] of any size, a [bool], or a [float] that may be
      an infinity or NaN; a mean of such numbers that is a [float] is the
      double nearest to the exact mean.
    - Everything the program cannot decide by itself (the pseudo random
      generator, the clock, the remote service, the arrival of SIGINT and the
      order in which the event loop resumes suspended sessions) is read from
      an oracle, the [World]. Theorems quantify over every world.
    - Exceptions are values of [exn]; fallible code returns a [result]. *)

From Stdlib Require Import ZArith QArith Qabs Qpower String Ascii List Lia Lqa.
From Stdlib Require Import DecimalString DecimalZ DecimalPos.
From Equations Require Import Equations.
From stdpp Require Import gmap strings list.

Local Open Scope string_scope.
Local Open Scope list_scope.
Local Open Scope Z_scope.

(** ** Python primitives *)

Module Py.

(** Exceptions that can cross a function boundary of the script, each
    under its own class. [ClientError] is any error of aiohttp's
    [ClientError] family that has no constructor of its own below;
    [ClientResponseError] is what [raise_for_status] raises;
    [ContentTypeError], a subclass of it, is what [response.json()] raises,
    with the status of the response; [TimeoutError] is
    [asyncio.TimeoutError]. Only [KeyboardInterrupt] lies outside Python's
    [Exception] class. *)
Inductive exn : Type :=
  | FileNotFoundError (path : string)
  | ClientError (cause : string)
  | ClientResponseError (status : Z)
  | ContentTypeError (status : Z)
  | TimeoutError
  | UnicodeDecodeError
  | JSONDecodeError
  | RecursionError
  | AttributeError
  | TypeError
  | OverflowError
  | ZeroDivisionError
  | StatisticsError
  | ValueError
  | KeyboardInterrupt.

Definition is_Exception (e : exn) : bool :=
  match e with KeyboardInterrupt => false | _ => true end.

Inductive result (A : Type) : Type :=
  | Ok (a : A)
  | Raise (e : exn).
Arguments Ok {A} a.
Arguments Raise {A} e.

Definition bind {A B} (r : result A) (k : A -> result B) : result B :=
  match r with Ok a => k a | Raise e => Raise e end.

(** [str(n)] for an integer. *)
Definition str (n : Z) : string := NilZero.string_of_int (Z.to_int n).

(** [int(x)] for a float: truncation towards zero. *)
Definition int (x : Q) : Z := Z.quot (Qnum x) (Z.pos (Qden x)).

(** [len(s)] *)
Definition len (s : string) : Z := Z.of_nat (String.length s).

(** The first [n] characters of [s], or all of it. *)
Fixpoint first (n : nat) (s : string) : string :=
  match n, s with
  | S n', String c s' => String c (first n' s')
  | _, _ => EmptyString
  end.

(** [s[:stop]]: a negative [stop] counts from the end. *)
Definition slice_to (s : string) (stop : Z) : string :=
  if 0 <=? stop then first (Z.to_nat stop) s
  else first (String.length s - Z.to_nat (- stop)) s.

(** [sep.join(parts)] *)
Fixpoint join (sep : string) (parts : list string) : string :=
  match parts with
  | [] => ""
  | [p] => p
  | p :: ps => p +:+ sep +:+ join sep ps
  end.

(** [a / b] on floats. *)
Definition truediv (a b : Q) : result Q :=
  if Qeq_bool b 0 then Raise ZeroDivisionError else Ok (a / b)%Q.

(** The integer nearest to a rational, ties to the even one. *)
Definition nearest_even (x : Q) : Z :=
  let n := Qnum x in
  let d := Z.pos (Qden x) in
  let q := n / d in
  match 2 * (n mod d) ?= d with
  | Lt => q
  | Gt => q + 1
  | Eq => if Z.even q then q else q + 1
  end.

(** [floor(log2(abs(x)))] for a rational other than zero. *)
Definition log2_floor (x : Q) : Z :=
  let k := Z.log2 (Z.abs (Qnum x)) - Z.log2 (Z.pos (Qden x)) in
  if Qle_bool (2 ^ k)%Q (Qabs x) then k else k - 1.

(** The double nearest to a rational: 53 significant bits, ties to even,
    and the fixed spacing of the subnormal numbers at the bottom of the
    range. The top of the range is left out: what is rounded here is the
    product of a reading of the clock by 1000, and a mean that [overflows]
    has ruled out beforehand. *)
Definition round (x : Q) : Q :=
  if Qeq_bool x 0 then 0%Q
  else
    let e := Z.max (log2_floor x - 52) (-1074) in
    (inject_Z (nearest_even (x / 2 ^ e)) * 2 ^ e)%Q.

(** [a * b] on floats: the exact product, rounded. *)
Definition fmul (a b : Q) : Q := round (a * b).

(** A Python [float]: a finite value, an infinity or NaN. *)
Inductive float : Type :=
  | FNum (x : Q)
  | FInf
  | FNegInf
  | FNaN.

(** A Python number as JSON decoding produces it. [True] and [False] are the
    integers 1 and 0 for every operation, and print as themselves. *)
Inductive number : Type :=
  | NBool (b : bool)
  | NInt (n : Z)
  | NFloat (x : float).

(** A number as comparisons see it: [True] and [False] as 1 and 0, an
    [int] with its exact value, a [float] as it is. *)
Definition as_float (x : number) : float :=
  match x with
  | NBool b => FNum (if b then 1 else 0)
  | NInt n => FNum (inject_Z n)
  | NFloat x => x
  end.

(** [a < b]: exact between [int] and [float], false when either is NaN. *)
Definition float_lt (x y : float) : bool :=
  match x, y with
  | FNaN, _ | _, FNaN => false
  | _, FNegInf => false
  | FNegInf, _ => true
  | FInf, _ => false
  | _, FInf => true
  | FNum a, FNum b => if Qlt_le_dec a b then true else false
  end.

Definition less (a b : number) : bool := float_lt (as_float a) (as_float b).

(** [x + y] where an operand is an infinity or NaN, and on finite values
    without rounding. *)
Definition float_add (x y : float) : float :=
  match x, y with
  | FNaN, _ | _, FNaN => FNaN
  | FInf, FNegInf | FNegInf, FInf => FNaN
  | FInf, _ | _, FInf => FInf
  | FNegInf, _ | _, FNegInf => FNegInf
  | FNum a, FNum b => FNum (a + b)
  end.

(** The magnitudes no double holds: [float(n)] and the true division of
    two integers raise [OverflowError] from [2**1024 - 2**970] on, where
    rounding to nearest reaches [2**1024]. *)
Definition overflows (x : Q) : bool := Qle_bool (inject_Z (2 ^ 1024 - 2 ^ 970)) (Qabs x).

(** [float(x)] where a format such as [:.3f] asks for it: only an [int]
    can be out of range. *)
Definition to_float (x : number) : result float :=
  match x with
  | NBool b => Ok (FNum (if b then 1 else 0))
  | NInt n => if overflows (inject_Z n) then Raise OverflowError else Ok (FNum (inject_Z n))
  | NFloat x => Ok x
  end.

Lemma length_append (s1 s2 : string) :
  String.length (s1 +:+ s2) = (String.length s1 + String.length s2)%nat.
Proof. induction s1 as [|c s1 IH]; simpl; [reflexivity | now rewrite IH]. Qed.

Lemma append_assoc (s1 s2 s3 : string) : (s1 +:+ s2) +:+ s3 = s1 +:+ (s2 +:+ s3).
Proof.
  induction s1 as [|c s1 IH]; [reflexivity|].
  change (String c ((s1 +:+ s2) +:+ s3) = String c (s1 +:+ s2 +:+ s3)).
  now rewrite IH.
Qed.

Lemma append_empty_r (s : string) : s +:+ "" = s.
Proof.
  induction s as [|c s IH]; [reflexivity|].
  change (String c (s +:+ "") = String c s). now rewrite IH.
Qed.

Lemma length_first (n : nat) (s : string) :
  String.length (first n s) = Nat.min n (String.length s).
Proof.
  revert s; induction n as [|n IH]; intros [|c s]; simpl; try reflexivity.
  now rewrite IH.
Qed.

End Py.
Import Py.

(** [result] is an error monad; stdpp's [x ← r; k] sequences it. *)
#[global] Instance result_ret : MRet result := @Ok.
#[global] Instance result_bind : MBind result := fun A B k r => Py.bind r k.

(** ** The pseudo random generator

    The generator is a stream of raw draws; its state is the number of draws
    consumed so far. Every behaviour of [random.randint] and
    [random.choices] is the behaviour of some stream. *)

Module Random.

Definition stream := nat -> nat.

(** [random.randint(a, b)], both ends included. *)
Definition randint (draws : stream) (a b : Z) (pos : nat) : Z * nat :=
  (a + Z.of_nat (draws pos) mod (b - a + 1), S pos).

(** [random.choices(population, k=k)]: [k] picks with replacement. *)
Fixpoint choices (draws : stream) (population : list string) (k : nat)
    (pos : nat) : list string * nat :=
  match k with
  | O => ([], pos)
  | S k' =>
      let pick := default "" (population !! (draws pos mod length population)%nat) in
      let '(rest, pos') := choices draws population k' (S pos) in
      (pick :: rest, pos')
  end.

End Random.

(** [os.path.basename(path)]: what follows the last slash. *)
Fixpoint basename (path : string) : string :=
  match path with
  | EmptyString => EmptyString
  | String c rest =>
      if Ascii.eqb c "/" then basename rest
      else if existsb (Ascii.eqb "/") (list_ascii_of_string rest) then basename rest
      else path
  end.

(** ** DocumentGenerator *)

Definition words : list string :=
  [ "document"; "processing"; "system"; "performance"; "optimization";
    "chunking"; "tokenization"; "metadata"; "analysis"; "quality";
    "assessment"; "parallel"; "threading"; "memory"; "efficiency";
    "throughput"; "latency"; "benchmark"; "profiling"; "monitoring" ].

(** One turn of the loop body: the sentence and the generator afterwards. *)
Definition make_sentence (draws : Random.stream) (pos : nat) : string * nat :=
  let '(sentence_length, pos1) := Random.randint draws 5 25 pos in
  let '(picked, pos2) := Random.choices draws words (Z.to_nat sentence_length) pos1 in
  (Py.join " " picked +:+ ". ", pos2).

Lemma make_sentence_grows draws pos (document : string) :
  (String.length document < String.length (document +:+ (make_sentence draws pos).1))%nat.
Proof.
  unfold make_sentence. simpl.
  destruct (Random.choices _ _ _ _) as [picked pos2]. simpl.
  rewrite !Py.length_append. simpl. lia.
Qed.

(** [while len(document) < target_size: document += sentence] *)
Equations? fill (draws : Random.stream) (target_size : Z)
    (document : string) (pos : nat) : string * nat
    by wf (Z.to_nat (target_size - Py.len document)) lt :=
  fill draws target_size document pos with Z_lt_dec (Py.len document) target_size => {
    | left _ => fill draws target_size
                  (document +:+ (make_sentence draws pos).1)
                  (make_sentence draws pos).2;
    | right _ => (document, pos) }.
Proof.
  pose proof (make_sentence_grows draws pos document). unfold Py.len in *. lia.
Qed.

Definition create_test_document (draws : Random.stream) (size_kb : Z)
    (pos : nat) : string * nat :=
  let target_size := size_kb * 1024 in
  let '(document, pos') := fill draws target_size "" pos in
  (Py.slice_to document target_size, pos').

(** ** Data model *)

(** A decoded JSON value, as [response.json()] returns it: [json.loads]
    makes an [int] of a literal without fraction or exponent, whatever its
    size, and a [float] of any other, the infinities and NaN included. A
    string is text that the files of the run can hold. *)
#[warnings="-register-all"]
Inductive json : Type :=
  | JNone
  | JBool (b : bool)
  | JInt (n : Z)
  | JFloat (x : Py.float)
  | JStr (s : string)
  | JList (l : list json)
  | JDict (d : gmap string json).

(** A finite [float] as a value. *)
Definition JNum (x : Q) : json := JFloat (FNum x).

(** [result.get(key, default)]: only a [dict] has the method. *)
Definition get (result : json) (key : string) (dflt : json) : Py.result json :=
  match result with
  | JDict d => Ok (default dflt (d !! key))
  | _ => Raise AttributeError
  end.

Record ProcessingMetrics : Type := mkMetrics {
  operation_id : string;
  total_time : Q;
  processing_time : json;
  chunking_time : json;
  total_chunks : json;
  successful_chunks : json;
  avg_quality_score : json;
  avg_information_density : json;
  memory_usage_mb : Q;
  throughput_per_second : Q }.

(** What the client library raises by itself while a request is under way:
    an error of the [ClientError] family (connection refused or reset, body
    cut short, too many redirects, ...) or the timeout of the session. *)
Inductive Trouble : Type :=
  | Broken (cause : string)
  | TimedOut.

(** The body of a response as [response.json()] finds it: reading it may
    fail; what was read may be no text in the encoding of the response, no
    JSON, a JSON text the decoder gives up on (an integer literal beyond the
    interpreter's digit limit, a nesting beyond its recursion limit), or a
    JSON text with its value. An empty body counts as the value [None]. *)
Inductive Body : Type :=
  | Unread (t : Trouble)
  | NotText
  | NotJson
  | TooManyDigits
  | TooDeep
  | Value (v : json).

(** What the remote service and the network do to one request: no response
    at all, or a response with its status, with whether aiohttp takes its
    Content-Type for JSON ([application/json], or a type with the suffix
    [+json]), with its body, and with the clock when the body has been
    decoded. *)
Inductive Reply : Type :=
  | NoResponse (t : Trouble)
  | Response (status : Z) (json_mimetype : bool) (body : Body) (end_time : Q).

(** What one call of [process_document] observes: the clock when it starts,
    and the reply to its request. *)
Record Observation : Type := mkObs {
  start_time : Q;
  reply : Reply }.

(** One multipart upload to [{base_url}/process]. *)
Record Request : Type := mkRequest {
  url : string;
  filename : string;
  payload : string }.

Inductive LogRecord : Type :=
  | InfoCreatedTestFile (filename : string) (bytes : Z)
  | InfoStarting (num_concurrent : Z)
  | InfoTestDuration (seconds : Z)
  | InfoInterrupted
  | ErrorProcessingFailed (e : exn)
  | ErrorBatchProcessingFailed (e : exn)
  | ErrorNoMetrics
  | ErrorLoadTestFailed (e : exn).

(** The three numbers of one statistics line: over floats the program
    computed, and over values taken from the replies. *)
Record Stats : Type := mkStats { avg : Q; smallest : Q; largest : Q }.

Record ValueStats : Type := mkValueStats {
  average : Py.number;
  least : Py.number;
  greatest : Py.number }.

(** Standard output, one constructor per [print] call. *)
Inductive Line : Type :=
  | Rule
  | Title
  | Heading (title : string)
  | Count (label : string) (n : Z)
  | Duration (seconds : Q)
  | StatsLine (label : string) (s : Stats)
  | ValuesLine (label : string) (s : ValueStats)
  | SuccessRate (percent : Q)
  | ResultsExported (filename : string).

(** The oracle. [observe s b i] is what request [i] of batch [b] of session
    [s] observes; [sigint] is the number of event-loop steps completed when
    SIGINT arrives, if it does; [schedule] is the order in which the event
    loop resumes sessions whose batch has completed. *)
Record World : Type := mkWorld {
  draws : Random.stream;
  observe : nat -> nat -> nat -> Observation;
  schedule : list nat;
  sigint : option nat;
  clock_start : Q;
  clock_end : Q;
  clock_export : Q;
  csv_text : list string -> list (list json) -> string }.

(** The tester object ([self]) without its metrics list. *)
Record Config : Type := mkConfig {
  base_url : string;
  num_concurrent : Z;
  documents_per_batch : Z;
  test_duration_seconds : Z }.

(** Everything the program mutates: [self.metrics], the file system, the
    random generator, the log, standard output, and the requests put on the
    network. *)
Record State : Type := mkState {
  metrics : list ProcessingMetrics;
  fs : gmap string string;
  dirs : gset string;
  rng : nat;
  log : list LogRecord;
  stdout : list Line;
  sent : list Request }.

(** Updates of one field. *)
Definition with_metrics (f : list ProcessingMetrics -> list ProcessingMetrics)
    (st : State) : State :=
  mkState (f (metrics st)) (fs st) (dirs st) (rng st) (log st) (stdout st) (sent st).

Definition with_fs (f : gmap string string -> gmap string string) (st : State) : State :=
  mkState (metrics st) (f (fs st)) (dirs st) (rng st) (log st) (stdout st) (sent st).

Definition with_dirs (f : gset string -> gset string) (st : State) : State :=
  mkState (metrics st) (fs st) (f (dirs st)) (rng st) (log st) (stdout st) (sent st).

Definition with_rng (n : nat) (st : State) : State :=
  mkState (metrics st) (fs st) (dirs st) n (log st) (stdout st) (sent st).

(** [logger.info(...)] and [logger.error(...)] *)
Definition logging (r : LogRecord) (st : State) : State :=
  mkState (metrics st) (fs st) (dirs st) (rng st) (log st ++ [r]) (stdout st) (sent st).

Definition printing (l : Line) (st : State) : State :=
  mkState (metrics st) (fs st) (dirs st) (rng st) (log st) (stdout st ++ [l]) (sent st).

Definition sending (rs : list Request) (st : State) : State :=
  mkState (metrics st) (fs st) (dirs st) (rng st) (log st) (stdout st) (sent st ++ rs).

(** ** SessionOrchestrator, part one: the corpus *)

Definition sizes : list Z := [1; 5; 10; 25; 50].

Definition corpus_filename (i : nat) (size : Z) : string :=
  "data/loadtest_doc_" +:+ Py.str (Z.of_nat i) +:+ "_" +:+ Py.str size +:+ "kb.txt".

(** [os.makedirs(path, exist_ok=True)] *)
Definition makedirs (path : string) (st : State) : State :=
  with_dirs (union {[path]}) st.

(** [with open(filename, "w") as f: f.write(content)] *)
Definition write_file (filename content : string) (st : State) : State :=
  with_fs <[filename := content]> st.

(** The body of the loop of [create_test_files]. *)
Definition create_test_file (w : World) (acc : list string * State)
    (entry : nat * Z) : list string * State :=
  let '(test_files, st) := acc in
  let '(i, size) := entry in
  let filename := corpus_filename i size in
  let '(content, pos) := create_test_document (draws w) size (rng st) in
  let st := with_rng pos st in
  let st := makedirs "data" st in
  let st := write_file filename content st in
  let st := logging (InfoCreatedTestFile filename (Py.len content)) st in
  (test_files ++ [filename], st).

Definition enumerate {A} (l : list A) : list (nat * A) := imap pair l.

Definition create_test_files (w : World) (st : State) : list string * State :=
  fold_left (create_test_file w) (enumerate sizes) ([], st).

(** ** RequestExecutor *)

(** [response.raise_for_status()]: aiohttp raises for a status of 400 or more. *)
Definition raise_for_status (status : Z) : Py.result unit :=
  if 400 <=? status then Raise (ClientResponseError status) else Ok tt.

Definition trouble (t : Trouble) : exn :=
  match t with
  | Broken cause => ClientError cause
  | TimedOut => TimeoutError
  end.

(** [await response.json()]: aiohttp reads the body, refuses a Content-Type
    that is not JSON, and decodes. *)
Definition response_json (status : Z) (json_mimetype : bool) (body : Body)
    : Py.result json :=
  match body with
  | Unread t => Raise (trouble t)
  | _ =>
      if json_mimetype then
        match body with
        | Unread t => Raise (trouble t)
        | NotText => Raise UnicodeDecodeError
        | NotJson => Raise JSONDecodeError
        | TooManyDigits => Raise ValueError
        | TooDeep => Raise RecursionError
        | Value v => Ok v
        end
      else Raise (ContentTypeError status)
  end.

(** [with open(file_path, "rb") as f: f.read()] *)
Definition read_file (files : gmap string string) (file_path : string) : Py.result string :=
  match files !! file_path with
  | Some content => Ok content
  | None => Raise (FileNotFoundError file_path)
  end.

(** [1.0 / total_time if total_time > 0 else 0.0] *)
Definition throughput (total_time : Q) : Py.result Q :=
  if Qlt_le_dec 0 total_time then Py.truediv 1 total_time else Ok 0%Q.

(** The metrics record [process_document] builds from a decoded reply. *)
Definition extract_metrics (o : Observation) (file_content : string)
    (end_time : Q) (result : json) : Py.result ProcessingMetrics :=
  let total_time := (end_time - start_time o)%Q in
  processing_time ← get result "processing_time" (JNum 0);
  chunking_time ← get result "chunking_time" (JNum 0);
  total_chunks ← get result "total_chunks" (JInt 0);
  successful_chunks ← get result "successful_chunks" (JInt 0);
  avg_quality_score ← get result "avg_quality_score" (JNum 0);
  avg_information_density ← get result "avg_information_density" (JNum 0);
  throughput_per_second ← throughput total_time;
  memory_usage_mb ← Py.truediv (inject_Z (Py.len file_content)) (inject_Z (1024 * 1024));
  Ok {| operation_id := "op_" +:+ Py.str (Py.int (Py.fmul (start_time o) 1000));
        total_time := total_time;
        processing_time := processing_time;
        chunking_time := chunking_time;
        total_chunks := total_chunks;
        successful_chunks := successful_chunks;
        avg_quality_score := avg_quality_score;
        avg_information_density := avg_information_density;
        memory_usage_mb := memory_usage_mb;
        throughput_per_second := throughput_per_second |}.

(** [process_document]: the requests it put on the network and its outcome,
    a metrics record or the exception it raised. *)
Definition process_document (cfg : Config) (files : gmap string string)
    (file_path : string) (o : Observation)
    : list Request * Py.result ProcessingMetrics :=
  match read_file files file_path with
  | Raise e => ([], Raise e)
  | Ok file_content =>
      let request := {| url := base_url cfg +:+ "/process";
                        filename := basename file_path;
                        payload := file_content |} in
      ([request],
       match reply o with
       | NoResponse t => Raise (trouble t)
       | Response status json_mimetype body end_time =>
           _ ← raise_for_status status;
           result ← response_json status json_mimetype body;
           extract_metrics o file_content end_time result
       end)
  end.

(** ** BatchRunner *)

(** [asyncio.gather] with [return_exceptions=True] over one
    [process_document] per file: one outcome per file, in order. *)
Definition process_batch (cfg : Config) (obs : nat -> Observation)
    (file_paths : list string) (st : State)
    : Py.result (list (Py.result ProcessingMetrics)) * State :=
  let tasks := imap (fun i file_path => process_document cfg (fs st) file_path (obs i)) file_paths in
  (Ok (map snd tasks), sending (concat (map fst tasks)) st).

(** ** SessionOrchestrator, part two: the batches *)

(** [for i in range(self.documents_per_batch): batches.append(test_files * 2)] *)
Definition make_batches (cfg : Config) (test_files : list string) : list (list string) :=
  replicate (Z.to_nat (documents_per_batch cfg)) (test_files ++ test_files).

(** The session up to its first suspension: corpus and batch list. *)
Definition session_start (cfg : Config) (w : World) (st : State)
    : list (list string) * State :=
  let '(test_files, st) := create_test_files w st in
  (make_batches cfg test_files, st).

(** [isinstance(metric, ProcessingMetrics)] sorts the outcomes of a batch. *)
Definition collect (st : State) (metric : Py.result ProcessingMetrics) : State :=
  match metric with
  | Ok m => with_metrics (fun ms => ms ++ [m]) st
  | Raise e => logging (ErrorProcessingFailed e) st
  end.

(** The body of the loop over [batches], with its [try] and [except]. *)
Definition session_batch (cfg : Config) (obs : nat -> Observation)
    (batch_files : list string) (st : State) : Py.result unit * State :=
  match process_batch cfg obs batch_files st with
  | (Ok batch_metrics, st) => (Ok tt, fold_left collect batch_metrics st)
  | (Raise e, st) =>
      if Py.is_Exception e then (Ok tt, logging (ErrorBatchProcessingFailed e) st)
      else (Raise e, st)
  end.

(** The loop over [batches], from batch number [b] on. *)
Fixpoint session_loop (cfg : Config) (obs : nat -> nat -> Observation) (b : nat)
    (batches : list (list string)) (st : State) : Py.result unit * State :=
  match batches with
  | [] => (Ok tt, st)
  | batch_files :: rest =>
      match session_batch cfg (obs b) batch_files st with
      | (Ok _, st) => session_loop cfg obs (S b) rest st
      | (Raise e, st) => (Raise e, st)
      end
  end.


(** ** MetricsAggregator and ResultsExporter *)

Module Statistics.

(** The number a statistic or a comparison sees in a value. *)
Definition number (v : json) : Py.result Py.number :=
  match v with
  | JBool b => Ok (NBool b)
  | JInt n => Ok (NInt n)
  | JFloat x => Ok (NFloat x)
  | _ => Raise TypeError
  end.

Fixpoint numbers (vs : list json) : Py.result (list Py.number) :=
  match vs with
  | [] => Ok []
  | v :: rest => x ← number v; xs ← numbers rest; Ok (x :: xs)
  end.

Definition total (xs : list Q) : Q := fold_right Qplus 0%Q xs.

(** [statistics.mean] *)
Definition mean (xs : list Q) : Py.result Q :=
  match xs with
  | [] => Raise StatisticsError
  | _ => Ok (total xs / inject_Z (Z.of_nat (length xs)))%Q
  end.

(** [min] and [max] *)
Definition minimum (xs : list Q) : Py.result Q :=
  match xs with
  | [] => Raise ValueError
  | x :: rest => Ok (fold_left (fun a b => if Qlt_le_dec b a then b else a) rest x)
  end.

Definition maximum (xs : list Q) : Py.result Q :=
  match xs with
  | [] => Raise ValueError
  | x :: rest => Ok (fold_left (fun a b => if Qlt_le_dec a b then b else a) rest x)
  end.

(** The average, minimum and maximum of one statistics line, evaluated in
    that order. *)
Definition describe (xs : list Q) : Py.result Stats :=
  a ← mean xs; lo ← minimum xs; hi ← maximum xs; Ok (mkStats a lo hi).

(** The infinities and NaN among the data, and the finite data. *)
Definition special (x : Py.number) : option Py.float :=
  match x with
  | NFloat (FNum _) => None
  | NFloat x => Some x
  | _ => None
  end.

Definition value (x : Py.number) : Q :=
  match as_float x with FNum q => q | _ => 0%Q end.

Definition is_int (x : Py.number) : bool :=
  match x with NFloat _ => false | _ => true end.

Definition whole (q : Q) : bool := (Qden (Qred q) =? 1)%positive.

(** [statistics.mean] over decoded numbers. Where an infinity or NaN is
    among the data, the mean is the [float] sum of these. Otherwise the sum
    is exact, and so is its quotient by the count; the mean of integers that
    is an integer stays an [int] of any size, and any other mean becomes a
    [float], the nearest double, which raises [OverflowError] when it is out
    of range. *)
Definition mean_values (xs : list Py.number) : Py.result Py.number :=
  match xs with
  | [] => Raise StatisticsError
  | _ =>
      match omap special xs with
      | s :: rest => Ok (NFloat (fold_left float_add rest s))
      | [] =>
          let q := (total (map value xs) / inject_Z (Z.of_nat (length xs)))%Q in
          if forallb is_int xs && whole q then Ok (NInt (Qnum (Qred q)))
          else if overflows q then Raise OverflowError
          else Ok (NFloat (FNum (Py.round q)))
      end
  end.

(** [min] and [max] over decoded numbers: the first of the least, the first
    of the greatest; a comparison with NaN is false. *)
Definition min_values (xs : list Py.number) : Py.result Py.number :=
  match xs with
  | [] => Raise ValueError
  | x :: rest => Ok (fold_left (fun a b => if less b a then b else a) rest x)
  end.

Definition max_values (xs : list Py.number) : Py.result Py.number :=
  match xs with
  | [] => Raise ValueError
  | x :: rest => Ok (fold_left (fun a b => if less a b then b else a) rest x)
  end.

(** [format(x, ".3f")] and the like: the text is not modelled, the
    conversion to [float] is. *)
Definition format_f (x : Py.number) : Py.result unit :=
  _ ← to_float x; Ok tt.

(** The average, minimum and maximum of a statistics line over decoded
    values, each formatted as soon as it is computed. The average always
    has a format [:.3f] or [:.1f]; the minimum and the maximum have one on
    the timing lines ([formatted]) and none on the chunking lines. *)
Definition describe_values (formatted : bool) (vs : list json)
    : Py.result ValueStats :=
  xs ← numbers vs;
  a ← mean_values xs;
  _ ← format_f a;
  lo ← min_values xs;
  _ ← (if formatted then format_f lo else Ok tt);
  hi ← max_values xs;
  _ ← (if formatted then format_f hi else Ok tt);
  Ok (mkValueStats a lo hi).

End Statistics.

Definition fieldnames : list string :=
  [ "operation_id"; "total_time"; "processing_time"; "chunking_time";
    "total_chunks"; "successful_chunks"; "avg_quality_score";
    "avg_information_density"; "memory_usage_mb"; "throughput_per_second" ].

Definition csv_row (metric : ProcessingMetrics) : list json :=
  [ JStr (operation_id metric); JNum (total_time metric);
    processing_time metric; chunking_time metric;
    total_chunks metric; successful_chunks metric;
    avg_quality_score metric; avg_information_density metric;
    JNum (memory_usage_mb metric); JNum (throughput_per_second metric) ].

Definition results_filename (w : World) : string :=
  "data/loadtest_results_" +:+ Py.str (Py.int (clock_export w)) +:+ ".csv".

Definition export_results_to_csv (w : World) (st : State) : State :=
  let filename := results_filename w in
  let st := makedirs "data" st in
  let st := write_file filename (csv_text w fieldnames (map csv_row (metrics st))) st in
  printing (ResultsExported filename) st.

(** [m.successful_chunks > 0] *)
Definition has_successful_chunks (m : ProcessingMetrics) : Py.result bool :=
  x ← Statistics.number (successful_chunks m);
  Ok (less (NInt 0) x).

Fixpoint count_successful (ms : list ProcessingMetrics) : Py.result Z :=
  match ms with
  | [] => Ok 0
  | m :: rest =>
      b ← has_successful_chunks m; n ← count_successful rest;
      Ok (if b : bool then n + 1 else n)
  end.

(** Code that changes the state and may raise. *)
Definition Run (A : Type) : Type := State -> Py.result A * State.

#[global] Instance run_ret : MRet Run := fun A a st => (Ok a, st).
#[global] Instance run_bind : MBind Run := fun A B k m st =>
  match m st with
  | (Ok a, st) => k a st
  | (Raise e, st) => (Raise e, st)
  end.

(** A step that cannot raise. *)
Definition modify (f : State -> State) : Run unit := fun st => (Ok tt, f st).

(** [print(...)] *)
Definition print (l : Line) : Run unit := modify (printing l).

(** A computation that leaves the state alone. *)
Definition eval {A} (r : Py.result A) : Run A := fun st => (r, st).

Definition print_results (cfg : Config) (w : World) (elapsed : Q) : Run unit :=
  fun st =>
  match metrics st with
  | [] => (Ok tt, logging ErrorNoMetrics st)
  | _ =>
      let ms := metrics st in
      (print Rule;;
       print Title;;
       print Rule;;
       print (Heading "Test Summary");;
       print (Count "Total Operations" (Z.of_nat (length ms)));;
       print (Duration elapsed);;
       print (Count "Concurrent Sessions" (num_concurrent cfg));;
       print (Count "Documents per Batch" (documents_per_batch cfg));;
       print (Heading "Timing Statistics");;
       s ← eval (Statistics.describe (map total_time ms));
       print (StatsLine "Total Time" s);;
       s ← eval (Statistics.describe_values true (map processing_time ms));
       print (ValuesLine "Processing Time" s);;
       s ← eval (Statistics.describe_values true (map chunking_time ms));
       print (ValuesLine "Chunking Time" s);;
       print (Heading "Throughput Statistics");;
       s ← eval (Statistics.describe (map throughput_per_second ms));
       print (StatsLine "Throughput" s);;
       print (Heading "Chunking Statistics");;
       s ← eval (Statistics.describe_values false (map total_chunks ms));
       print (ValuesLine "Total Chunks" s);;
       s ← eval (Statistics.describe_values false (map successful_chunks ms));
       print (ValuesLine "Successful Chunks" s);;
       n ← eval (count_successful ms);
       ratio ← eval (Py.truediv (inject_Z n) (inject_Z (Z.of_nat (length ms))));
       print (SuccessRate (ratio * 100)%Q);;
       modify (export_results_to_csv w)) st
  end.

(** ** LoadController

    The event loop runs one coroutine at a time and switches only where a
    coroutine waits for the network. A session runs without interruption
    from its start to the [gather] of its first batch; when the outcomes of
    its batch are in, it sorts them and goes on to the [gather] of its next
    batch. Sessions start in the order of their creation, before any request
    is served. A [Tick] is one such uninterrupted stretch. The requests of a
    batch are recorded together with their outcomes: a request that SIGINT
    cancels in flight has no outcome and leaves no trace. *)

(** A suspended session: the number of the batch it waits for, that batch
    and the batches after it. *)
Record Task : Type := mkTask {
  next_batch : nat;
  pending : list (list string) }.

Inductive Tick : Type :=
  | Start (s : nat)
  | Resume (s : nat).

Definition tick (cfg : Config) (w : World) (loop : State * list Task) (t : Tick)
    : State * list Task :=
  let '(st, tasks) := loop in
  match t with
  | Start s =>
      let '(batches, st) := session_start cfg w st in
      (st, tasks ++ [mkTask 0 batches])
  | Resume s =>
      match tasks !! s with
      | Some (mkTask b (batch_files :: rest)) =>
          match session_batch cfg (observe w s b) batch_files st with
          | (Ok _, st) => (st, <[s := mkTask (S b) rest]> tasks)
          | (Raise _, st) => (st, <[s := mkTask (S b) []]> tasks)
          end
      | _ => (st, tasks)
      end
  end.

(** [range(n)] *)
Definition range (n : Z) : list nat := seq 0 (Z.to_nat n).

(** The ticks of a run that nothing interrupts: every session starts, the
    event loop resumes sessions as the schedule says, and whatever batches
    the schedule left are served session by session. *)
Definition plan (cfg : Config) (w : World) : list Tick :=
  map Start (range (num_concurrent cfg))
  ++ map Resume (schedule w)
  ++ flat_map (fun s => replicate (Z.to_nat (documents_per_batch cfg)) (Resume s))
       (range (num_concurrent cfg)).

(** [await asyncio.gather] over the sessions. SIGINT after [k] ticks, when
    the run is not over by then, cancels whatever is in flight: the ticks
    after it never happen, and [KeyboardInterrupt] leaves [asyncio.run]. *)
Definition gather_sessions (cfg : Config) (w : World) (st : State)
    : Py.result unit * State :=
  let ticks := plan cfg w in
  match sigint w with
  | Some k =>
      if (k <? length ticks)%nat
      then (Raise KeyboardInterrupt, (fold_left (tick cfg w) (take k ticks) (st, [])).1)
      else (Ok tt, (fold_left (tick cfg w) ticks (st, [])).1)
  | None => (Ok tt, (fold_left (tick cfg w) ticks (st, [])).1)
  end.

Definition run_load_test (cfg : Config) (w : World) (st : State)
    : Py.result unit * State :=
  let st := logging (InfoStarting (num_concurrent cfg)) st in
  let st := logging (InfoTestDuration (test_duration_seconds cfg)) st in
  let start_time := clock_start w in
  match gather_sessions cfg w st with
  | (Raise e, st) => (Raise e, st)
  | (Ok _, st) =>
      let end_time := clock_end w in
      let total_time := (end_time - start_time)%Q in
      print_results cfg w total_time st
  end.

(** [main] after argument parsing: the exit code and the final state. *)
Definition main (cfg : Config) (w : World) (st : State) : Z * State :=
  match run_load_test cfg w st with
  | (Ok _, st) => (0, st)
  | (Raise KeyboardInterrupt, st) => (0, logging InfoInterrupted st)
  | (Raise e, st) => (1, logging (ErrorLoadTestFailed e) st)
  end.

(** [R3MPerformanceLoadTester(...)]: [__init__] keeps its four arguments and
    starts with an empty [self.metrics]. *)
Definition __init__ (base_url : string)
    (num_concurrent documents_per_batch test_duration_seconds : Z) (st : State)
    : Config * State :=
  (mkConfig base_url num_concurrent documents_per_batch test_duration_seconds,
   with_metrics (fun _ => []) st).

(** [main] from the parsed arguments on: the tester is created and run. *)
Definition main_from (url : string) (concurrent batch_size duration : Z)
    (w : World) (st : State) : Z * State :=
  let '(load_tester, st) := __init__ url concurrent batch_size duration st in
  main load_tester w st.

(** * The vocabulary of the statements *)

(** ** Documents *)

(** A sentence as the generator builds it: 5 to 25 words of the vocabulary,
    joined by spaces and closed by a period and a space. *)
Definition is_sentence (s : string) : Prop :=
  exists ws : list string,
    Forall (fun x => x ∈ words) ws /\ (5 <= length ws <= 25)%nat /\
    s = Py.join " " ws +:+ ". ".

(** The concatenation of the sentences appended so far. *)
Definition text (sentences : list string) : string :=
  fold_right String.append "" sentences.

(** Every character is a single byte in UTF-8. *)
Definition ascii_only (s : string) : bool :=
  forallb (fun c => (nat_of_ascii c <? 128)%nat) (list_ascii_of_string s).

(** ** Requests and their outcomes *)

(** The record built from a reply whose body is a JSON object. *)
Definition record (o : Observation) (file_content : string) (end_time : Q)
    (d : gmap string json) : ProcessingMetrics :=
  let t := (end_time - start_time o)%Q in
  {| operation_id := "op_" +:+ Py.str (Py.int (Py.fmul (start_time o) 1000));
     total_time := t;
     processing_time := default (JNum 0) (d !! "processing_time");
     chunking_time := default (JNum 0) (d !! "chunking_time");
     total_chunks := default (JInt 0) (d !! "total_chunks");
     successful_chunks := default (JInt 0) (d !! "successful_chunks");
     avg_quality_score := default (JNum 0) (d !! "avg_quality_score");
     avg_information_density := default (JNum 0) (d !! "avg_information_density");
     memory_usage_mb := (inject_Z (Py.len file_content) / inject_Z (1024 * 1024))%Q;
     throughput_per_second := if Qlt_le_dec 0 t then (1 / t)%Q else 0%Q |}.

(** A reply the executor turns into a record: the file could be read, the
    status is below 400, the Content-Type is JSON and the body decodes to a
    JSON object. *)
Definition accepted (files : gmap string string) (file_path : string)
    (o : Observation) : Prop :=
  exists file_content status d end_time,
    files !! file_path = Some file_content /\
    reply o = Response status true (Value (JDict d)) end_time /\
    status < 400.

(** A reply of the kind the interface description calls a success: a 2xx
    status and a JSON body with [success: true]. *)
Definition successful_reply (r : Reply) : Prop :=
  exists status d end_time,
    r = Response status true (Value (JDict d)) end_time /\
    200 <= status < 300 /\
    d !! "success" = Some (JBool true).

(** A service that refuses every request with a status of 400 or more. *)
Definition refuses (obs : nat -> Observation) : Prop :=
  forall i, exists status json_mimetype body end_time,
    reply (obs i) = Response status json_mimetype body end_time /\ 400 <= status.

(** The identifiers of the records of a run are pairwise distinct. *)
Definition unique_operation_ids (ms : list ProcessingMetrics) : Prop :=
  forall i j m1 m2, i <> j -> ms !! i = Some m1 -> ms !! j = Some m2 ->
    operation_id m1 <> operation_id m2.

(** The outcomes of a batch that are records, and those that are exceptions. *)
Fixpoint oks {A} (outcomes : list (Py.result A)) : list A :=
  match outcomes with
  | [] => []
  | Ok a :: rest => a :: oks rest
  | Raise _ :: rest => oks rest
  end.

Fixpoint errs {A} (outcomes : list (Py.result A)) : list exn :=
  match outcomes with
  | [] => []
  | Ok _ :: rest => errs rest
  | Raise e :: rest => e :: errs rest
  end.

(** The tasks of a batch, their outcomes and their requests. *)
Definition batch_tasks (cfg : Config) (files : gmap string string)
    (obs : nat -> Observation) (file_paths : list string)
    : list (list Request * Py.result ProcessingMetrics) :=
  imap (fun i file_path => process_document cfg files file_path (obs i)) file_paths.

Definition batch_outcomes (cfg : Config) (files : gmap string string)
    (obs : nat -> Observation) (file_paths : list string)
    : list (Py.result ProcessingMetrics) :=
  map snd (batch_tasks cfg files obs file_paths).

Definition batch_requests (cfg : Config) (files : gmap string string)
    (obs : nat -> Observation) (file_paths : list string) : list Request :=
  concat (map fst (batch_tasks cfg files obs file_paths)).

(** The outcomes and the requests of the batches of a session, from batch
    number [b] on. *)
Fixpoint loop_outcomes (cfg : Config) (files : gmap string string)
    (obs : nat -> nat -> Observation) (b : nat) (batches : list (list string))
    : list (Py.result ProcessingMetrics) :=
  match batches with
  | [] => []
  | batch_files :: rest =>
      batch_outcomes cfg files (obs b) batch_files ++ loop_outcomes cfg files obs (S b) rest
  end.

Fixpoint loop_requests (cfg : Config) (files : gmap string string)
    (obs : nat -> nat -> Observation) (b : nat) (batches : list (list string))
    : list Request :=
  match batches with
  | [] => []
  | batch_files :: rest =>
      batch_requests cfg files (obs b) batch_files ++ loop_requests cfg files obs (S b) rest
  end.

(** ** The corpus *)

(** The names of the corpus files: they depend on nothing but the position
    and the size class. *)
Definition corpus : list string :=
  map (fun e => corpus_filename e.1 e.2) (enumerate sizes).

(** The files one pass of [create_test_files] writes, in order, from the
    generator position it starts at, and the position it ends at. *)
Fixpoint written (w : World) (pos : nat) (entries : list (nat * Z))
    : list (string * string) :=
  match entries with
  | [] => []
  | (i, size) :: rest =>
      let '(content, pos') := create_test_document (draws w) size pos in
      (corpus_filename i size, content) :: written w pos' rest
  end.

Fixpoint rng_after (w : World) (pos : nat) (entries : list (nat * Z)) : nat :=
  match entries with
  | [] => pos
  | (i, size) :: rest => rng_after w (create_test_document (draws w) size pos).2 rest
  end.

(** Writing files one after the other: the later write wins. *)
Definition store (files : list (string * string)) (m : gmap string string)
    : gmap string string :=
  fold_left (fun m entry => <[entry.1 := entry.2]> m) files m.

Definition created (entry : string * string) : LogRecord :=
  InfoCreatedTestFile entry.1 (Py.len entry.2).

(** The file system a session leaves when it has written its corpus. *)
Definition staged (w : World) (st : State) : gmap string string :=
  store (written w (rng st) (enumerate sizes)) (fs st).



(** ** The run *)

(** Every batch a suspended session still has to run is the corpus twice. *)
Definition tasks_ok (tasks : list Task) : Prop :=
  Forall (fun t => Forall (fun batch => batch = corpus ++ corpus) (pending t)) tasks.


Definition is_resume (t : Tick) : Prop :=
  match t with Resume _ => True | Start _ => False end.

(** The two phases of the plan. *)
Definition starts (cfg : Config) : list Tick :=
  map Start (range (num_concurrent cfg)).

Definition resumes (cfg : Config) (w : World) : list Tick :=
  map Resume (schedule w)
  ++ flat_map (fun s => replicate (Z.to_nat (documents_per_batch cfg)) (Resume s))
       (range (num_concurrent cfg)).

(** The state when [gather] begins: the two records logged at the start. *)
Definition announced (cfg : Config) (st : State) : State :=
  logging (InfoTestDuration (test_duration_seconds cfg))
    (logging (InfoStarting (num_concurrent cfg)) st).

(** A property of the state that a computation keeps, and a property of
    the result that holds wherever the computation may stop. *)
Definition keeps {A} (P : State -> Prop) (m : Run A) : Prop :=
  forall st, P st -> P (m st).2.

Definition yields {A} (P : Py.result A -> Prop) (m : Run A) : Prop :=
  forall st, P (m st).1.

(** ** Summaries *)

(** A value the statistics accept: an [int], a [float] or a [bool]. *)
Definition is_number (v : json) : bool :=
  match v with JBool _ | JInt _ | JFloat _ => true | _ => false end.

(** A number a double can hold: a [bool], a [float] (every finite double
    is below the bound, and the infinities and NaN are doubles), or an
    [int] below [2**1024 - 2**970] in magnitude. *)
Definition fits (x : Py.number) : bool :=
  match x with
  | NBool _ => true
  | NInt n => negb (overflows (inject_Z n))
  | NFloat (FNum x) => negb (overflows x)
  | NFloat _ => true
  end.

Definition in_range (v : json) : bool :=
  match v with
  | JBool b => fits (NBool b)
  | JInt n => fits (NInt n)
  | JFloat x => fits (NFloat x)
  | _ => false
  end.

(** A number that is neither an infinity nor NaN. *)
Definition finite (x : Py.number) : bool :=
  match x with
  | NFloat (FNum _) => true
  | NFloat _ => false
  | _ => true
  end.

(** An infinity or NaN. *)
Definition special_float (y : Py.float) : Prop :=
  match y with FNum _ => False | _ => True end.

(** A number a double holds exactly: a finite number that rounding to a
    double leaves as it is. Such are [True] and [False], every [int] of
    magnitude [2**53] at most, and every finite [float] the decoder makes. *)
Definition exact (x : Py.number) : bool :=
  finite x && Qeq_bool (Py.round (Statistics.value x)) (Statistics.value x).

Definition is_exact (v : json) : bool :=
  match v with
  | JBool b => exact (NBool b)
  | JInt n => exact (NInt n)
  | JFloat x => exact (NFloat x)
  | _ => false
  end.


(** A record whose four fields read by the statistics are numbers, and one
    in which they are numbers a double can hold. *)
Definition numeric (m : ProcessingMetrics) : Prop :=
  is_number (processing_time m) = true /\ is_number (chunking_time m) = true /\
  is_number (total_chunks m) = true /\ is_number (successful_chunks m) = true.

Definition printable (m : ProcessingMetrics) : Prop :=
  in_range (processing_time m) = true /\ in_range (chunking_time m) = true /\
  in_range (total_chunks m) = true /\ in_range (successful_chunks m) = true.

(** A statistics line whose average lies between its minimum and its
    maximum, both of them values of the data. *)
Definition summarises (xs : list Q) (s : Stats) : Prop :=
  (smallest s <= avg s)%Q /\ (avg s <= largest s)%Q /\
  smallest s ∈ xs /\ largest s ∈ xs /\
  Forall (fun x => (smallest s <= x)%Q /\ (x <= largest s)%Q) xs.

(** A statistics line over decoded values: its minimum and its maximum are
    values of the data, and no value of the data compares less than the
    minimum or greater than the maximum; when the data are numbers that
    doubles hold exactly, the average lies between the two. *)
Definition summarises_values (vs : list json) (s : ValueStats) : Prop :=
  (exists v, v ∈ vs /\ Statistics.number v = Ok (least s)) /\
  (exists v, v ∈ vs /\ Statistics.number v = Ok (greatest s)) /\
  Forall (fun v => forall x, Statistics.number v = Ok x ->
                     less x (least s) = false /\ less (greatest s) x = false) vs /\
  (Forall (fun v => is_exact v = true) vs ->
   (Statistics.value (least s) <= Statistics.value (average s))%Q /\
   (Statistics.value (average s) <= Statistics.value (greatest s))%Q).

(** The field of the records that a line over decoded values reports. *)
Definition reported_field (label : string)
    : option (ProcessingMetrics -> json) :=
  if String.eqb label "Processing Time" then Some processing_time
  else if String.eqb label "Chunking Time" then Some chunking_time
  else if String.eqb label "Total Chunks" then Some total_chunks
  else if String.eqb label "Successful Chunks" then Some successful_chunks
  else None.

(** A line of the summary that makes sense for the records [ms]. *)
Definition sane (ms : list ProcessingMetrics) (l : Line) : Prop :=
  match l with
  | StatsLine _ s => (smallest s <= avg s)%Q /\ (avg s <= largest s)%Q
  | ValuesLine label s =>
      exists field, reported_field label = Some field /\
        summarises_values (map field ms) s
  | SuccessRate percent => (0 <= percent)%Q /\ (percent <= 100)%Q
  | _ => True
  end.

(** The lines of a complete summary. *)
Definition report (cfg : Config) (w : World) (elapsed : Q) (operations : nat)
    (t : Stats) (p c : ValueStats) (u : Stats) (n s : ValueStats) (rate : Q)
    : list Line :=
  [ Rule; Title; Rule;
    Heading "Test Summary";
    Count "Total Operations" (Z.of_nat operations);
    Duration elapsed;
    Count "Concurrent Sessions" (num_concurrent cfg);
    Count "Documents per Batch" (documents_per_batch cfg);
    Heading "Timing Statistics";
    StatsLine "Total Time" t;
    ValuesLine "Processing Time" p;
    ValuesLine "Chunking Time" c;
    Heading "Throughput Statistics";
    StatsLine "Throughput" u;
    Heading "Chunking Statistics";
    ValuesLine "Total Chunks" n;
    ValuesLine "Successful Chunks" s;
    SuccessRate rate;
    ResultsExported (results_filename w) ].

(** ** Runs *)

(** SIGINT arrives before the run is over. *)
Definition interrupts (cfg : Config) (w : World) : Prop :=
  exists k, sigint w = Some k /\ (k < length (plan cfg w))%nat.

(** The exceptions of the failed requests a log reports. *)
Definition processing_failures (l : list LogRecord) : list exn :=
  omap (fun r => match r with ErrorProcessingFailed e => Some e | _ => None end) l.

(** The batches the suspended sessions still have to run. *)
Definition remaining (tasks : list Task) : nat :=
  sum_list (map (fun t => length (pending t)) tasks).

(** The tasks after the event loop has resumed session [s]. *)
Definition advance (tasks : list Task) (s : nat) : list Task :=
  match tasks !! s with
  | Some (mkTask b (_ :: rest)) => <[s := mkTask (S b) rest]> tasks
  | _ => tasks
  end.

(** Every corpus file can be read, and has the size its name tells. *)
Definition readable (files : gmap string string) : Prop :=
  forall p, p ∈ corpus -> is_Some (files !! p).

Definition sized (files : gmap string string) : Prop :=
  forall i size, sizes !! i = Some size ->
    exists content,
      files !! corpus_filename i size = Some content /\ Py.len content = size * 1024.

(** An upload of one of the five corpus documents, of the size its name
    tells. *)
Definition sized_upload (cfg : Config) (r : Request) : Prop :=
  exists i size,
    sizes !! i = Some size /\
    url r = base_url cfg +:+ "/process" /\
    filename r = "loadtest_doc_" +:+ Py.str (Z.of_nat i) +:+ "_" +:+ Py.str size +:+ "kb.txt" /\
    Py.len (payload r) = size * 1024.

(** The exceptions of a request whose file could be read: what the client
    library raises on its own, what [raise_for_status] raises for a status
    of 400 or more, what [response.json()] raises for a response below 400,
    and the [AttributeError] of a decoded value without [get]. *)
Definition network_failure (e : exn) : Prop :=
  match e with
  | ClientError _ | TimeoutError => True
  | ClientResponseError status => 400 <= status
  | ContentTypeError status => status < 400
  | UnicodeDecodeError | JSONDecodeError | ValueError | RecursionError => True
  | AttributeError => True
  | _ => False
  end.

(** The exceptions that end [print_results] early. *)
Definition summary_failure (e : exn) : Prop :=
  e = TypeError \/ e = OverflowError.

(** What a run logs when it ends, after the records of its sessions:
    nothing, the interrupt, the lack of records, or the failure of the
    summary. *)
Definition closing (tail : list LogRecord) : Prop :=
  tail = [] \/ tail = [InfoInterrupted] \/ tail = [ErrorNoMetrics]
  \/ exists e, summary_failure e /\ tail = [ErrorLoadTestFailed e].

(** The records a run may add to the log. *)
Definition logged_by (cfg : Config) (r : LogRecord) : Prop :=
  match r with
  | InfoStarting n => n = num_concurrent cfg
  | InfoTestDuration seconds => seconds = test_duration_seconds cfg
  | InfoCreatedTestFile name bytes =>
      exists i size, sizes !! i = Some size /\
        name = corpus_filename i size /\ bytes = size * 1024
  | ErrorProcessingFailed e => network_failure e
  | ErrorLoadTestFailed e => summary_failure e
  | InfoInterrupted | ErrorNoMetrics => True
  | ErrorBatchProcessingFailed _ => False
  end.

(** The same tester with another [test_duration_seconds]. *)
Definition with_duration (seconds : Z) (cfg : Config) : Config :=
  mkConfig (base_url cfg) (num_concurrent cfg) (documents_per_batch cfg) seconds.

(** The same state with records put in front of its log. *)
Definition shift (earlier : list LogRecord) (st : State) : State :=
  mkState (metrics st) (fs st) (dirs st) (rng st) (earlier ++ log st) (stdout st) (sent st).

(** A computation that never reads the log and only adds to it. *)
Definition log_blind {A} (m : Run A) : Prop :=
  forall earlier st, m (shift earlier st) = ((m st).1, shift earlier (m st).2).

(** A property of the state that a computation keeps when it stops with an
    exception. *)
Definition keeps_on_failure {A} (P : State -> Prop) (m : Run A) : Prop :=
  forall st, P st -> forall e, (m st).1 = Raise e -> P (m st).2.

(** The state after more lines were printed. *)
Definition shown (lines : list Line) (st : State) : State :=
  mkState (metrics st) (fs st) (dirs st) (rng st) (log st) (stdout st ++ lines) (sent st).

(** The tasks after one tick, whatever the requests come to. *)
Definition schedule_step (cfg : Config) (tasks : list Task) (t : Tick) : list Task :=
  match t with
  | Start _ => tasks ++ [mkTask 0 (make_batches cfg corpus)]
  | Resume s => advance tasks s
  end.

(** What the event loop has done since the state [st0]: the requests it has
    sent, their outcomes and the records it has logged, with the batches
    that are left. *)
Definition progress (cfg : Config) (st0 : State) (loop : State * list Task) : Prop :=
  tasks_ok loop.2 /\ (loop.2 = [] \/ sized (fs loop.1)) /\
  exists issued outcomes recs,
    sent loop.1 = sent st0 ++ issued /\
    Forall (sized_upload cfg) issued /\
    metrics loop.1 = metrics st0 ++ oks outcomes /\
    log loop.1 = log st0 ++ recs /\
    Forall (logged_by cfg) recs /\
    processing_failures recs = errs outcomes /\
    length outcomes = length issued /\
    (length issued + 10 * remaining loop.2
     = 10 * (Z.to_nat (documents_per_batch cfg) * length loop.2))%nat.


(** A record whose [memory_usage_mb] is the size of one of the five corpus
    documents in mebibytes, and whose throughput is not negative. *)
Definition local_measures (m : ProcessingMetrics) : Prop :=
  exists i size,
    sizes !! i = Some size /\
    (memory_usage_mb m == inject_Z size / 1024)%Q /\
    (0 <= throughput_per_second m)%Q.

(** ** Concrete runs *)

Module Example.

Definition init : State := mkState [] ∅ ∅ 0 [] [] [].

(** One session; one batch, or two. *)
Definition one_batch : Config := mkConfig "http://localhost:8080" 1 1 60.
Definition two_batches : Config := mkConfig "http://localhost:8080" 1 2 60.

(** Request [i] of a batch starts [1/8192] of a second, about an eighth of
    a millisecond, after request [i - 1], a little after second 1000 on the
    clock. These clock values are doubles, and so are their products by
    1000. *)
Definition started (i : nat) : Q := (8192000 + Z.of_nat i) # 8192.

Definition processed : json :=
  JDict {[ "success" := JBool true;
           "data" := JDict {[ "total_chunks" := JInt 3; "successful_chunks" := JInt 3 ]} ]}.

Definition rejected : json :=
  JDict {[ "success" := JBool false; "error" := JStr "unsupported document" ]}.

(** A service that answers every request within a second. *)
Definition answers (status : Z) (body : json) (s b i : nat) : Observation :=
  mkObs (started i) (Response status true (Value body) (started i + 1)).

Definition render (header : list string) (rows : list (list json)) : string :=
  Py.join "," header.

Definition healthy : World :=
  mkWorld (fun n => n) (answers 200 processed) [] None 1000 1003 1003 render.

Definition interrupted : World :=
  mkWorld (fun n => n) (answers 200 processed) [] (Some 2%nat) 1000 1003 1003 render.

Definition broken : World :=
  mkWorld (fun n => n) (answers 500 rejected) [] None 1000 1003 1003 render.

(** The first corpus file as the generator writes it. *)
Definition small : string := "data/loadtest_doc_0_1kb.txt".

Definition staging : gmap string string :=
  {[ small := (create_test_document (fun n => n) 1 0).1 ]}.

End Example.

(** ** Sample records *)

Module Sample.

(** A record as it comes from a reply that reports its measures, and one
    from a reply whose [processing_time] is the JSON [null]. *)
Definition measured : ProcessingMetrics :=
  mkMetrics "op_1000000" 1 (JNum (1 # 2)) (JNum (1 # 4)) (JInt 3) (JInt 3)
    (JNum 0) (JNum 0) (1 # 1024) 1.


Definition collected : State := mkState [measured] ∅ ∅ 0 [] [] [].


(** A reply that is a JSON object without any of the keys the executor
    looks up. *)
Definition bare : Observation :=
  mkObs (Example.started 0)
    (Response 200 true (Value Example.rejected) (Example.started 0 + 1)).

(** A reply that is decoded before the clock moves on. *)
Definition instant : Observation :=
  mkObs (Example.started 0)
    (Response 200 true (Value Example.processed) (Example.started 0)).

(** A record whose [processing_time] is the integer [10**400], and one
    whose [processing_time] is NaN. *)
Definition oversized : ProcessingMetrics :=
  mkMetrics "op_1000002" 1 (JInt (10 ^ 400)) (JNum (1 # 4)) (JInt 3) (JInt 3)
    (JNum 0) (JNum 0) (1 # 1024) 1.

Definition unordered : ProcessingMetrics :=
  mkMetrics "op_1000003" 1 (JFloat FNaN) (JNum (1 # 4)) (JInt 3) (JInt 3)
    (JNum 0) (JNum 0) (1 # 1024) 1.

Definition swollen : State := mkState [oversized] ∅ ∅ 0 [] [] [].

(** A reading of the clock in the year 2023, a double. *)
Definition reading : Q := 7130316800515899 # 4194304.

End Sample.

(** * Properties *)

(** ** DocumentGenerator *)

Section Generator.

Variable draws : Random.stream.

Lemma randint_range a b pos :
  a <= b -> a <= (Random.randint draws a b pos).1 <= b.
Proof.
  intros Hab. unfold Random.randint. simpl.
  pose proof (Z.mod_pos_bound (Z.of_nat (draws pos)) (b - a + 1)). lia.
Qed.

Lemma choices_length population k pos :
  length (Random.choices draws population k pos).1 = k.
Proof.
  revert pos; induction k as [|k IH]; intros pos; simpl; [reflexivity|].
  specialize (IH (S pos)).
  destruct (Random.choices draws population k (S pos)) as [rest pos']. simpl in *.
  now rewrite IH.
Qed.

Lemma choices_from population k pos :
  population <> [] ->
  Forall (fun x => x ∈ population) (Random.choices draws population k pos).1.
Proof.
  intros Hne. revert pos; induction k as [|k IH]; intros pos; simpl; [constructor|].
  specialize (IH (S pos)).
  destruct (Random.choices draws population k (S pos)) as [rest pos']. simpl in *.
  constructor; [|exact IH].
  assert (Hlt : (draws pos mod length population < length population)%nat).
  { apply Nat.mod_upper_bound. destruct population; simpl; [congruence | lia]. }
  destruct (lookup_lt_is_Some_2 population _ Hlt) as [x Hx].
  rewrite Hx. simpl. eapply list_elem_of_lookup_2. exact Hx.
Qed.

Lemma make_sentence_is_sentence pos : is_sentence (make_sentence draws pos).1.
Proof.
  unfold make_sentence.
  pose proof (randint_range 5 25 pos ltac:(lia)) as Hr.
  destruct (Random.randint draws 5 25 pos) as [n pos1]. simpl in Hr.
  pose proof (choices_length words (Z.to_nat n) pos1) as Hl.
  pose proof (choices_from words (Z.to_nat n) pos1 ltac:(discriminate)) as Hf.
  destruct (Random.choices draws words (Z.to_nat n) pos1) as [picked pos2].
  simpl in *. exists picked. repeat split; try assumption; lia.
Qed.

(** What the loop leaves: the document it was given followed by whole
    sentences, long enough, and too short before the last sentence. *)
Lemma fill_spec target_size document pos :
  exists sentences,
    (fill draws target_size document pos).1 = document +:+ text sentences /\
    Forall is_sentence sentences /\
    target_size <= Py.len (document +:+ text sentences) /\
    (sentences <> [] ->
     Py.len (document +:+ text (removelast sentences)) < target_size).
Proof.
  funelim (fill draws target_size document pos).
  - match goal with
    | IH : exists _, _ |- _ => destruct IH as (sentences & Hfill & Hall & Hlen & Hlast)
    end.
    match goal with Hlt : Py.len document < target_size |- _ => rename Hlt into Hshort end.
    exists ((make_sentence draws pos).1 :: sentences).
    rewrite Hfill. cbn [text fold_right].
    rewrite <- !Py.append_assoc in *.
    repeat split.
    + constructor; [apply make_sentence_is_sentence | exact Hall].
    + exact Hlen.
    + intros _. destruct sentences as [|s1 rest].
      * cbn [removelast text fold_right]. rewrite Py.append_empty_r. exact Hshort.
      * change (removelast (?a :: s1 :: rest)) with (a :: removelast (s1 :: rest)).
        cbn [text fold_right]. rewrite <- Py.append_assoc.
        apply Hlast. discriminate.
  - exists []. cbn [text fold_right]. rewrite Py.append_empty_r.
    repeat split; [constructor | lia | congruence].
Qed.

End Generator.

Section GeneratorContract.

Variable draws : Random.stream.

Lemma ascii_only_append s1 s2 :
  ascii_only (s1 +:+ s2) = ascii_only s1 && ascii_only s2.
Proof.
  induction s1 as [|c s1 IH]; [reflexivity|].
  change (ascii_only (String c (s1 +:+ s2)) = ascii_only (String c s1) && ascii_only s2).
  unfold ascii_only in *. cbn [list_ascii_of_string forallb].
  rewrite IH. now rewrite andb_assoc.
Qed.

Lemma ascii_only_first n s : ascii_only s = true -> ascii_only (Py.first n s) = true.
Proof.
  revert s; induction n as [|n IH]; intros [|c s]; try reflexivity.
  unfold ascii_only in *. cbn [Py.first list_ascii_of_string forallb].
  intros [Hc Hs]%andb_prop. rewrite Hc. now apply IH.
Qed.

Lemma words_ascii_only x : x ∈ words -> ascii_only x = true.
Proof.
  intros Hx%list_elem_of_In.
  assert (Hall : forallb ascii_only words = true) by (vm_compute; reflexivity).
  rewrite forallb_forall in Hall. now apply Hall.
Qed.

Lemma join_ascii_only ws :
  Forall (fun x => x ∈ words) ws -> ascii_only (Py.join " " ws) = true.
Proof.
  induction 1 as [|x ws Hx Hws IH]; [reflexivity|].
  destruct ws as [|y ws]; [exact (words_ascii_only x Hx)|].
  change (ascii_only (x +:+ " " +:+ Py.join " " (y :: ws)) = true).
  rewrite !ascii_only_append, IH, (words_ascii_only x Hx). reflexivity.
Qed.

Lemma sentence_ascii_only s : is_sentence s -> ascii_only s = true.
Proof.
  intros (ws & Hws & _ & ->). rewrite ascii_only_append, join_ascii_only by assumption.
  reflexivity.
Qed.

Lemma text_ascii_only sentences :
  Forall is_sentence sentences -> ascii_only (text sentences) = true.
Proof.
  induction 1 as [|s l Hs Hl IH]; [reflexivity|].
  cbn [text fold_right]. rewrite ascii_only_append.
  rewrite (sentence_ascii_only s Hs). exact IH.
Qed.

(** C8. For a target of at least one kilobyte the generator returns a
    payload of exactly [size_kb * 1024] characters, each a single byte, and
    not empty: whole sentences of 5 to 25 vocabulary words are appended until
    the length reaches the target (and not beyond the first time it does),
    and the text is cut to the target. The function is total: it has no
    error result. *)
Theorem create_test_document_exact_size (size_kb : Z) (pos : nat) :
  1 <= size_kb ->
  let document := (create_test_document draws size_kb pos).1 in
  Py.len document = size_kb * 1024 /\
  document <> "" /\
  ascii_only document = true /\
  exists sentences,
    Forall is_sentence sentences /\
    size_kb * 1024 <= Py.len (text sentences) /\
    Py.len (text (removelast sentences)) < size_kb * 1024 /\
    document = Py.slice_to (text sentences) (size_kb * 1024).
Proof.
  intros Hsize. unfold create_test_document.
  destruct (fill_spec draws (size_kb * 1024) "" pos)
    as (sentences & Hfill & Hall & Hlen & Hlast).
  destruct (fill draws (size_kb * 1024) "" pos) as [document pos'].
  cbn [fst] in *. change ("" +:+ ?s) with s in *. subst document.
  assert (Hcut : Py.slice_to (text sentences) (size_kb * 1024)
                 = Py.first (Z.to_nat (size_kb * 1024)) (text sentences)).
  { unfold Py.slice_to. destruct (Z.leb_spec 0 (size_kb * 1024)); [reflexivity | lia]. }
  assert (Hexact : Py.len (Py.slice_to (text sentences) (size_kb * 1024)) = size_kb * 1024).
  { rewrite Hcut. unfold Py.len in *. rewrite Py.length_first. lia. }
  repeat split.
  - exact Hexact.
  - intros Hempty. rewrite Hempty in Hexact. unfold Py.len in Hexact. simpl in Hexact. lia.
  - rewrite Hcut. apply ascii_only_first, text_ascii_only, Hall.
  - exists sentences. repeat split; try assumption.
    destruct sentences as [|s l]; [cbn; unfold Py.len; simpl; lia|].
    apply Hlast. discriminate.
Qed.

End GeneratorContract.

Lemma create_test_document_exact_size_witness :
  1 <= 5 /\ Py.len (create_test_document (fun n => n) 5 0).1 = 5 * 1024.
Proof.
  split; [lia|].
  exact (proj1 (create_test_document_exact_size (fun n => n) 5 0 ltac:(lia))).
Defined.

(** ** RequestExecutor *)

Section Executor.

Variable cfg : Config.

Lemma truediv_nonzero (a b : Q) : ~ (b == 0)%Q -> Py.truediv a b = Ok (a / b)%Q.
Proof.
  intros Hb. unfold Py.truediv.
  destruct (Qeq_bool b 0) eqn:E; [|reflexivity].
  apply Qeq_bool_iff in E. contradiction.
Qed.

(** The value of the conditional expression, whatever the elapsed time. *)
Lemma throughput_value (t : Q) :
  throughput t = Ok (if Qlt_le_dec 0 t then (1 / t)%Q else 0%Q).
Proof.
  unfold throughput. destruct (Qlt_le_dec 0 t) as [Hpos|Hle]; [|reflexivity].
  apply truediv_nonzero. intros H0. rewrite H0 in Hpos. exact (Qlt_irrefl 0 Hpos).
Qed.

Lemma extract_metrics_dict o file_content end_time d :
  extract_metrics o file_content end_time (JDict d)
  = Ok (record o file_content end_time d).
Proof.
  unfold extract_metrics. cbn [get mbind result_bind Py.bind].
  rewrite throughput_value. cbn [Py.bind].
  rewrite truediv_nonzero by discriminate. reflexivity.
Qed.

(** When exactly a call of [process_document] yields a record, and which. *)
Lemma process_document_Ok files file_path o m :
  (process_document cfg files file_path o).2 = Ok m <->
  exists file_content status d end_time,
    files !! file_path = Some file_content /\
    reply o = Response status true (Value (JDict d)) end_time /\
    status < 400 /\
    m = record o file_content end_time d.
Proof.
  unfold process_document, read_file. split.
  - destruct (files !! file_path) as [file_content|]; [|discriminate].
    cbn [snd].
    destruct (reply o) as [t|status json_mimetype body end_time]; [discriminate|].
    unfold raise_for_status. destruct (Z.leb_spec 400 status); [discriminate|].
    destruct body as [t| | | | |v], json_mimetype; try discriminate.
    cbn [mbind result_bind Py.bind response_json].
    destruct v; try discriminate.
    rewrite extract_metrics_dict. intros [= <-]. eauto 10.
  - intros (file_content & status & d & end_time & -> & -> & Hst & ->).
    cbn [snd]. unfold raise_for_status.
    destruct (Z.leb_spec 400 status); [lia|].
    cbn [mbind result_bind Py.bind response_json].
    apply extract_metrics_dict.
Qed.

(** C7. A request whose file can be read and whose reply has a status
    below 400, a JSON Content-Type and a JSON object for its body completes
    with a record whatever the two readings of the clock are, equal
    readings included. The elapsed time of the record is
    [end_time - start_time]; its throughput is 0 when the elapsed time is 0
    and [1 / total_time] when the elapsed time is positive. The conditional
    expression that computes the throughput yields such a number for every
    elapsed time, 0 also when the clock went backwards, and never raises. *)
Theorem throughput_of_completed_request files file_path o file_content status d end_time :
  files !! file_path = Some file_content ->
  reply o = Response status true (Value (JDict d)) end_time ->
  status < 400 ->
  (exists m,
     (process_document cfg files file_path o).2 = Ok m /\
     total_time m = (end_time - start_time o)%Q /\
     ((total_time m == 0)%Q -> throughput_per_second m = 0%Q) /\
     ((0 < total_time m)%Q -> throughput_per_second m = (1 / total_time m)%Q) /\
     throughput (total_time m) = Ok (throughput_per_second m)) /\
  (forall t, exists x,
     throughput t = Ok x /\
     ((t == 0)%Q -> x = 0%Q) /\ ((0 < t)%Q -> x = (1 / t)%Q) /\
     ((t < 0)%Q -> x = 0%Q)).
Proof.
  intros Hfile Hreply Hstatus.
  assert (Hcases : forall t,
    ((t == 0)%Q -> (if Qlt_le_dec 0 t then (1 / t)%Q else 0%Q) = 0%Q) /\
    ((0 < t)%Q -> (if Qlt_le_dec 0 t then (1 / t)%Q else 0%Q) = (1 / t)%Q) /\
    ((t < 0)%Q -> (if Qlt_le_dec 0 t then (1 / t)%Q else 0%Q) = 0%Q)).
  { intros t. split; [|split].
    - intros H0. destruct (Qlt_le_dec 0 t) as [Hpos|_]; [|reflexivity].
      rewrite H0 in Hpos. destruct (Qlt_irrefl 0 Hpos).
    - intros Hpos. destruct (Qlt_le_dec 0 t) as [_|Hle]; [reflexivity|].
      destruct (Qlt_not_le _ _ Hpos Hle).
    - intros Hneg. destruct (Qlt_le_dec 0 t) as [Hpos|_]; [|reflexivity].
      destruct (Qlt_irrefl 0 (Qlt_trans _ _ _ Hpos Hneg)). }
  split.
  - exists (record o file_content end_time d).
    split; [apply process_document_Ok; eauto 10|].
    cbn [total_time throughput_per_second record].
    split; [reflexivity|].
    split; [apply Hcases|]. split; [apply Hcases|]. apply throughput_value.
  - intros t. eexists. split; [apply throughput_value|]. apply Hcases.
Qed.

End Executor.

(** ** BatchRunner and the batches of a session *)

Section Batches.

Variable cfg : Config.


Lemma batch_tasks_length files obs file_paths :
  length (batch_tasks cfg files obs file_paths) = length file_paths.
Proof. apply length_imap. Qed.

Lemma batch_outcomes_length files obs file_paths :
  length (batch_outcomes cfg files obs file_paths) = length file_paths.
Proof. unfold batch_outcomes. now rewrite length_map, batch_tasks_length. Qed.

Lemma batch_outcomes_lookup files obs file_paths i file_path :
  file_paths !! i = Some file_path ->
  batch_outcomes cfg files obs file_paths !! i
  = Some (process_document cfg files file_path (obs i)).2.
Proof.
  intros Hi. unfold batch_outcomes, batch_tasks.
  rewrite list_lookup_fmap, list_lookup_imap, Hi. reflexivity.
Qed.

Lemma collect_all outcomes st :
  fold_left collect outcomes st
  = mkState (metrics st ++ oks outcomes) (fs st) (dirs st) (rng st)
      (log st ++ map ErrorProcessingFailed (errs outcomes)) (stdout st) (sent st).
Proof.
  revert st; induction outcomes as [|[m|e] rest IH]; intros st.
  - destruct st; simpl. now rewrite !app_nil_r.
  - cbn [fold_left collect]. rewrite IH. cbn. now rewrite <- app_assoc.
  - cbn [fold_left collect]. rewrite IH. cbn. now rewrite <- app_assoc.
Qed.

Lemma session_batch_eq obs batch_files st :
  session_batch cfg obs batch_files st
  = (Ok tt,
     mkState (metrics st ++ oks (batch_outcomes cfg (fs st) obs batch_files))
       (fs st) (dirs st) (rng st)
       (log st ++ map ErrorProcessingFailed (errs (batch_outcomes cfg (fs st) obs batch_files)))
       (stdout st)
       (sent st ++ batch_requests cfg (fs st) obs batch_files)).
Proof.
  unfold session_batch, process_batch. rewrite collect_all. reflexivity.
Qed.

Lemma oks_app {A} (l1 l2 : list (Py.result A)) : oks (l1 ++ l2) = oks l1 ++ oks l2.
Proof. induction l1 as [|[a|e] l1 IH]; simpl; congruence. Qed.

Lemma errs_app {A} (l1 l2 : list (Py.result A)) : errs (l1 ++ l2) = errs l1 ++ errs l2.
Proof. induction l1 as [|[a|e] l1 IH]; simpl; congruence. Qed.

Lemma session_loop_eq obs b batches st :
  session_loop cfg obs b batches st
  = (Ok tt,
     mkState (metrics st ++ oks (loop_outcomes cfg (fs st) obs b batches))
       (fs st) (dirs st) (rng st)
       (log st ++ map ErrorProcessingFailed (errs (loop_outcomes cfg (fs st) obs b batches)))
       (stdout st)
       (sent st ++ loop_requests cfg (fs st) obs b batches)).
Proof.
  revert b st; induction batches as [|batch_files rest IH]; intros b st.
  - destruct st; simpl. now rewrite !app_nil_r.
  - cbn [session_loop]. rewrite session_batch_eq, IH. cbn.
    rewrite oks_app, errs_app, map_app, <- !app_assoc. reflexivity.
Qed.


End Batches.

(** ** The corpus on the shared staging directory *)

Section Corpus.

Variable w : World.

Lemma written_names pos entries :
  map fst (written w pos entries) = map (fun e => corpus_filename e.1 e.2) entries.
Proof.
  revert pos; induction entries as [|[i size] rest IH]; intros pos; [reflexivity|].
  cbn [written]. destruct (create_test_document (draws w) size pos) as [content pos'].
  cbn. now rewrite IH.
Qed.

Lemma create_test_files_fold entries acc st :
  fold_left (create_test_file w) entries (acc, st)
  = (acc ++ map fst (written w (rng st) entries),
     mkState (metrics st) (store (written w (rng st) entries) (fs st))
       (fold_left (fun d _ => {["data"]} ∪ d) entries (dirs st))
       (rng_after w (rng st) entries)
       (log st ++ map created (written w (rng st) entries))
       (stdout st) (sent st)).
Proof.
  revert acc st; induction entries as [|[i size] rest IH]; intros acc st.
  - destruct st; cbn. now rewrite !app_nil_r.
  - cbn [fold_left]. unfold create_test_file at 2.
    cbn [written rng_after].
    destruct (create_test_document (draws w) size (rng st)) as [content pos'].
    rewrite IH. cbn. rewrite <- !app_assoc. reflexivity.
Qed.

Lemma store_other files m p :
  p ∉ map fst files -> store files m !! p = m !! p.
Proof.
  revert m; induction files as [|[name content] rest IH]; intros m Hp; [reflexivity|].
  cbn in *. apply not_elem_of_cons in Hp as [Hne Hp].
  rewrite IH by exact Hp. apply lookup_insert_ne. congruence.
Qed.

Lemma store_last files m name content :
  NoDup (map fst files) -> (name, content) ∈ files ->
  store files m !! name = Some content.
Proof.
  revert m; induction files as [|[n c] rest IH]; intros m Hnd Hin.
  - inversion Hin.
  - cbn in *. apply NoDup_cons in Hnd as [Hn Hnd].
    apply elem_of_cons in Hin as [[= -> ->]|Hin].
    + rewrite store_other by exact Hn. apply lookup_insert_eq.
    + now apply IH.
Qed.

Lemma store_present files m p :
  p ∈ map fst files -> is_Some (store files m !! p).
Proof.
  revert m; induction files as [|[name content] rest IH]; intros m Hp.
  - inversion Hp.
  - cbn in *. destruct (decide (p ∈ map fst rest)) as [Hin|Hout]; [now apply IH|].
    rewrite store_other by exact Hout.
    apply elem_of_cons in Hp as [->|Hp]; [|contradiction].
    rewrite lookup_insert_eq. eauto.
Qed.

End Corpus.

Lemma corpus_names :
  corpus = [ "data/loadtest_doc_0_1kb.txt"; "data/loadtest_doc_1_5kb.txt";
             "data/loadtest_doc_2_10kb.txt"; "data/loadtest_doc_3_25kb.txt";
             "data/loadtest_doc_4_50kb.txt" ].
Proof. vm_compute. reflexivity. Qed.

Lemma corpus_NoDup : NoDup corpus.
Proof. rewrite corpus_names. apply (bool_decide_unpack _). vm_compute. reflexivity. Qed.

Lemma makedirs_again (path : string) (d : gset string) :
  {[path]} ∪ ({[path]} ∪ d) = {[path]} ∪ d.
Proof. rewrite (assoc_L (∪)), (idemp_L (∪)). reflexivity. Qed.

Lemma create_test_files_eq w st :
  create_test_files w st
  = (corpus,
     mkState (metrics st) (store (written w (rng st) (enumerate sizes)) (fs st))
       ({["data"]} ∪ dirs st)
       (rng_after w (rng st) (enumerate sizes))
       (log st ++ map created (written w (rng st) (enumerate sizes)))
       (stdout st) (sent st)).
Proof.
  unfold create_test_files. rewrite create_test_files_fold.
  rewrite written_names. cbn [app]. f_equal. f_equal.
  cbn. now rewrite !makedirs_again.
Qed.

(** ** One session *)

Section Session.

Variable cfg : Config.
Variable w : World.

Lemma staged_present st p : p ∈ corpus -> is_Some (staged w st !! p).
Proof.
  intros Hp. apply store_present. rewrite written_names. exact Hp.
Qed.

Lemma staged_other st p : p ∉ corpus -> staged w st !! p = fs st !! p.
Proof.
  intros Hp. apply store_other. rewrite written_names. exact Hp.
Qed.

Lemma session_start_eq st :
  session_start cfg w st
  = (make_batches cfg corpus,
     mkState (metrics st) (staged w st) ({["data"]} ∪ dirs st)
       (rng_after w (rng st) (enumerate sizes))
       (log st ++ map created (written w (rng st) (enumerate sizes)))
       (stdout st) (sent st)).
Proof. unfold session_start. now rewrite create_test_files_eq. Qed.


Lemma batch_tasks_cons files obs p ps :
  batch_tasks cfg files obs (p :: ps)
  = process_document cfg files p (obs 0%nat) :: batch_tasks cfg files (obs ∘ S) ps.
Proof. reflexivity. Qed.

(** A request goes out for every file that can be read. *)
Lemma batch_requests_length files obs file_paths :
  Forall (fun p => is_Some (files !! p)) file_paths ->
  length (batch_requests cfg files obs file_paths) = length file_paths.
Proof.
  intros Hall. revert obs; induction Hall as [|p ps [content Hp] _ IH]; intros obs.
  - reflexivity.
  - unfold batch_requests in *. rewrite batch_tasks_cons. cbn [map concat].
    rewrite length_app, (IH (obs ∘ S)).
    unfold process_document, read_file. rewrite Hp. reflexivity.
Qed.




(** A negative [documents_per_batch] makes [range] empty: no batch at all. *)
Lemma make_batches_negative :
  documents_per_batch cfg < 0 -> make_batches cfg corpus = [].
Proof.
  intros HB. unfold make_batches.
  replace (Z.to_nat (documents_per_batch cfg)) with 0%nat by lia. reflexivity.
Qed.


End Session.

Section Isolation.

Variable cfg : Config.

(** C4. In a batch every request runs to its own outcome, which is the one
    it would have on its own and does not depend on what the other requests
    observe; each record is appended to [self.metrics] in order, each failure
    is logged and appears nowhere else; neither the batch nor the loop over
    the batches of the session is aborted. *)
Theorem batch_failures_are_isolated (obs : nat -> Observation)
    (batch_files : list string) (st : State) :
  exists outcomes st',
    (process_batch cfg obs batch_files st).1 = Ok outcomes /\
    length outcomes = length batch_files /\
    (forall i file_path, batch_files !! i = Some file_path ->
       outcomes !! i = Some (process_document cfg (fs st) file_path (obs i)).2) /\
    (forall obs' outcomes' i,
       (process_batch cfg obs' batch_files st).1 = Ok outcomes' ->
       obs' i = obs i -> outcomes' !! i = outcomes !! i) /\
    session_batch cfg obs batch_files st = (Ok tt, st') /\
    metrics st' = metrics st ++ oks outcomes /\
    log st' = log st ++ map ErrorProcessingFailed (errs outcomes) /\
    fs st' = fs st /\
    (forall all_obs b rest,
       all_obs b = obs ->
       session_loop cfg all_obs b (batch_files :: rest) st
       = session_loop cfg all_obs (S b) rest st' /\
       (session_loop cfg all_obs (S b) rest st').1 = Ok tt).
Proof.
  exists (batch_outcomes cfg (fs st) obs batch_files). eexists.
  split; [reflexivity|]. split; [apply batch_outcomes_length|].
  split; [intros i p Hi; now apply batch_outcomes_lookup|].
  split.
  { intros obs' outcomes' i [= <-] Hobs.
    change (batch_outcomes cfg (fs st) obs' batch_files !! i
            = batch_outcomes cfg (fs st) obs batch_files !! i).
    destruct (batch_files !! i) as [p|] eqn:Hi.
    - rewrite (batch_outcomes_lookup cfg (fs st) obs' _ _ p Hi).
      rewrite (batch_outcomes_lookup cfg (fs st) obs _ _ p Hi).
      now rewrite Hobs.
    - apply lookup_ge_None in Hi.
      rewrite (proj2 (lookup_ge_None (batch_outcomes cfg (fs st) obs' batch_files) i))
        by now rewrite batch_outcomes_length.
      rewrite (proj2 (lookup_ge_None (batch_outcomes cfg (fs st) obs batch_files) i))
        by now rewrite batch_outcomes_length.
      reflexivity. }
  split; [apply session_batch_eq|].
  split; [reflexivity|]. split; [reflexivity|]. split; [reflexivity|].
  intros all_obs b rest <-. split.
  - cbn [session_loop]. now rewrite session_batch_eq.
  - now rewrite session_loop_eq.
Qed.

End Isolation.

(** ** Rounding to a double *)

Section Rounding.

Local Open Scope Q_scope.

Lemma nearest_even_close (x : Q) :
  Qabs (inject_Z (nearest_even x) - x) <= 1 # 2.
Proof.
  apply Qabs_Qle_condition. unfold nearest_even.
  destruct x as [n d]. cbn [Qnum Qden].
  pose proof (Z.div_mod n (Z.pos d) ltac:(lia)) as Hn.
  pose proof (Z.mod_pos_bound n (Z.pos d) ltac:(lia)) as Hr.
  set (q := (n / Z.pos d)%Z) in *. set (r := (n mod Z.pos d)%Z) in *.
  destruct (Z.compare_spec (2 * r) (Z.pos d)) as [He|Hl|Hg];
    [destruct (Z.even q)| |];
    unfold Qle, Qminus, Qplus, Qopp, inject_Z; cbn [Qnum Qden];
    rewrite ?Pos2Z.inj_mul; nia.
Qed.

Lemma nearest_even_nonneg (x : Q) : 0 <= x -> (0 <= nearest_even x)%Z.
Proof.
  unfold nearest_even, Qle. destruct x as [n d]. cbn [Qnum Qden]. intros H.
  assert (Hn : (0 <= n)%Z) by lia.
  pose proof (Z.div_pos n (Z.pos d) Hn ltac:(lia)) as Hq.
  destruct (Z.compare _ _); [destruct (Z.even _)| |]; lia.
Qed.

Lemma log2_floor_small (x : Q) :
  ~ x == 0 -> Qabs x < inject_Z (2 ^ 53) -> (log2_floor x <= 52)%Z.
Proof.
  intros Hx Hlt. unfold log2_floor.
  set (k := (Z.log2 (Z.abs (Qnum x)) - Z.log2 (Z.pos (Qden x)))%Z).
  destruct (Qle_bool (2 ^ k) (Qabs x)) eqn:E.
  - apply Qle_bool_iff in E.
    assert (H : 2 ^ k < 2 ^ 53).
    { eapply Qle_lt_trans; [exact E|]. exact Hlt. }
    apply Qpower_lt_compat_l_inv in H; [lia | reflexivity].
  - destruct (Z_le_gt_dec k 53) as [Hk|Hk]; [lia|]. exfalso. clear E.
    destruct x as [n d]. unfold Qeq in Hx. cbn [Qnum Qden Qabs] in *.
    assert (Hn : (0 < Z.abs n)%Z) by lia.
    pose proof (Z.log2_spec (Z.abs n) Hn) as [Ha _].
    pose proof (Z.log2_spec (Z.pos d) ltac:(lia)) as [_ Hb].
    pose proof (Z.log2_nonneg (Z.pos d)) as Hb0.
    set (a := Z.log2 (Z.abs n)) in *. set (b := Z.log2 (Z.pos d)) in *.
    assert (Hpow : (2 ^ (Z.succ b) * 2 ^ 53 <= 2 ^ a)%Z).
    { rewrite <- Z.pow_add_r by lia. apply Z.pow_le_mono_r; lia. }
    unfold Qlt, inject_Z in Hlt. cbn [Qnum Qden] in Hlt.
    assert (H53 : (0 < 2 ^ 53)%Z) by reflexivity.
    revert Hlt Hpow H53. generalize (2 ^ 53)%Z. intros c Hlt Hpow Hc. nia.
Qed.

(** Below [2**53] the doubles are at most 1 apart: rounding moves a number
    by a half at most. *)
Lemma round_close (x : Q) :
  Qabs x < inject_Z (2 ^ 53) -> Qabs (round x - x) <= 1 # 2.
Proof.
  intros Hlt. unfold round. destruct (Qeq_bool x 0) eqn:E.
  - apply Qeq_bool_iff in E. rewrite E. apply Qabs_Qle_condition. split; discriminate.
  - assert (Hx : ~ x == 0) by (intros H; apply Qeq_bool_iff in H; congruence).
    pose proof (log2_floor_small x Hx Hlt) as Hk.
    set (e := Z.max (log2_floor x - 52) (-1074)).
    assert (He : (e <= 0)%Z) by lia.
    assert (Hpos : 0 < 2 ^ e) by (apply Qpower_0_lt; reflexivity).
    assert (Hone : 2 ^ e <= 1).
    { change 1 with (2 ^ 0). apply Qpower_le_compat_l; [exact He | discriminate]. }
    pose proof (nearest_even_close (x / 2 ^ e)) as Hm.
    set (m := inject_Z (nearest_even (x / 2 ^ e))) in *.
    assert (Heq : m * 2 ^ e - x == (m - x / 2 ^ e) * 2 ^ e).
    { field. intros H. rewrite H in Hpos. discriminate. }
    rewrite Heq, Qabs_Qmult, (Qabs_pos (2 ^ e)) by now apply Qlt_le_weak.
    apply Qle_trans with ((1 # 2) * 2 ^ e).
    + apply Qmult_le_compat_r; [exact Hm | now apply Qlt_le_weak].
    + apply Qle_trans with ((1 # 2) * 1); [|discriminate].
      apply Qmult_le_l; [reflexivity | exact Hone].
Qed.

Lemma round_nonneg (x : Q) : 0 <= x -> 0 <= round x.
Proof.
  intros Hx. unfold round. destruct (Qeq_bool x 0); [discriminate|].
  set (e := Z.max (log2_floor x - 52) (-1074)).
  assert (Hpos : 0 < 2 ^ e) by (apply Qpower_0_lt; reflexivity).
  apply Qmult_le_0_compat; [|now apply Qlt_le_weak].
  change 0 with (inject_Z 0). rewrite <- Zle_Qle. apply nearest_even_nonneg.
  apply Qle_shift_div_l; [exact Hpos|]. now rewrite Qmult_0_l.
Qed.

(** [int] of a float that is not negative is its floor. *)
Lemma int_floor (x : Q) :
  0 <= x -> inject_Z (Py.int x) <= x /\ x < inject_Z (Py.int x) + 1.
Proof.
  unfold Py.int, Qle, Qlt. destruct x as [n d]. cbn [Qnum Qden inject_Z Qplus]. intros H.
  assert (Hn : (0 <= n)%Z) by lia.
  rewrite Z.quot_div_nonneg by lia.
  pose proof (Z.div_mod n (Z.pos d) ltac:(lia)) as Hdm.
  pose proof (Z.mod_pos_bound n (Z.pos d) ltac:(lia)) as Hr.
  split; nia.
Qed.

(** Two readings of the clock whose products by 1000 truncate to the same
    integer are less than two milliseconds apart. *)
Lemma same_product_close (s1 s2 : Q) :
  0 <= s1 -> 0 <= s2 ->
  s1 * 1000 < inject_Z (2 ^ 53) -> s2 * 1000 < inject_Z (2 ^ 53) ->
  Py.int (Py.fmul s1 1000) = Py.int (Py.fmul s2 1000) ->
  Qabs (s1 - s2) < 2 # 1000.
Proof.
  intros H1 H2 B1 B2 Heq. unfold Py.fmul in Heq.
  assert (P1 : 0 <= s1 * 1000) by (apply Qmult_le_0_compat; [exact H1 | discriminate]).
  assert (P2 : 0 <= s2 * 1000) by (apply Qmult_le_0_compat; [exact H2 | discriminate]).
  pose proof (round_close (s1 * 1000)) as C1. rewrite (Qabs_pos _ P1) in C1.
  pose proof (round_close (s2 * 1000)) as C2. rewrite (Qabs_pos _ P2) in C2.
  specialize (C1 B1). specialize (C2 B2).
  apply Qabs_Qle_condition in C1, C2.
  destruct (int_floor _ (round_nonneg _ P1)) as [F1 G1].
  destruct (int_floor _ (round_nonneg _ P2)) as [F2 G2].
  rewrite Heq in F1, G1.
  revert F1 G1 F2 G2 C1 C2.
  generalize (Py.round (s1 * 1000)) (Py.round (s2 * 1000))
             (inject_Z (Py.int (Py.round (s2 * 1000)))).
  intros a b t F1 G1 F2 G2 C1 C2.
  apply Qabs_Qlt_condition. split; lra.
Qed.

(** *** Rounding keeps the order *)

(** The nearest integer keeps the order, depends on the value of the
    rational alone, and changes sign with it. *)
Lemma nearest_even_mono (x y : Q) : x <= y -> (nearest_even x <= nearest_even y)%Z.
Proof.
  unfold nearest_even, Qle. destruct x as [n1 d1], y as [n2 d2]. cbn [Qnum Qden]. intros H.
  pose proof (Z.div_mod n1 (Z.pos d1) ltac:(lia)) as Hn1.
  pose proof (Z.mod_pos_bound n1 (Z.pos d1) ltac:(lia)) as Hr1.
  pose proof (Z.div_mod n2 (Z.pos d2) ltac:(lia)) as Hn2.
  pose proof (Z.mod_pos_bound n2 (Z.pos d2) ltac:(lia)) as Hr2.
  set (q1 := (n1 / Z.pos d1)%Z) in *. set (r1 := (n1 mod Z.pos d1)%Z) in *.
  set (q2 := (n2 / Z.pos d2)%Z) in *. set (r2 := (n2 mod Z.pos d2)%Z) in *.
  assert (Hd1 : (0 < Z.pos d1)%Z) by lia. assert (Hd2 : (0 < Z.pos d2)%Z) by lia.
  clearbody q1 r1 q2 r2.
  revert Hd1 Hd2 H Hn1 Hr1 Hn2 Hr2. generalize (Z.pos d1) (Z.pos d2). intros a b Ha Hb H Hn1 Hr1 Hn2 Hr2.
  assert (Hq : (q1 <= q2)%Z).
  { destruct (Z_le_gt_dec q1 q2) as [Hle|Hgt]; [exact Hle | exfalso].
    assert (Hab : (0 < a * b)%Z) by nia.
    assert (H1 : ((q2 + 1) * (a * b) <= q1 * (a * b))%Z) by (apply Z.mul_le_mono_nonneg_r; lia).
    assert (H2 : (r2 * a < b * a)%Z) by (apply Z.mul_lt_mono_pos_r; lia).
    assert (H3 : (0 <= r1 * b)%Z) by nia.
    rewrite Hn1, Hn2 in H. nia. }
  destruct (Z.eq_dec q1 q2) as [E|E].
  - rewrite <- E in *. clear E Hq.
    assert (Hr : (r1 * b <= r2 * a)%Z) by nia.
    destruct (Z.compare_spec (2 * r1) a) as [E1|L1|G1],
             (Z.compare_spec (2 * r2) b) as [E2|L2|G2];
      try destruct (Z.even q1); try lia; nia.
  - destruct (Z.compare (2 * r1) a), (Z.compare (2 * r2) b);
      try destruct (Z.even q1); try destruct (Z.even q2); lia.
Qed.

Lemma nearest_even_compat (x y : Q) : x == y -> nearest_even x = nearest_even y.
Proof.
  intros H. apply Z.le_antisymm; apply nearest_even_mono; rewrite H; apply Qle_refl.
Qed.

Lemma nearest_even_inject (z : Z) : nearest_even (inject_Z z) = z.
Proof.
  unfold nearest_even, inject_Z. cbn [Qnum Qden].
  rewrite Z.div_1_r, Z.mod_1_r. reflexivity.
Qed.

Lemma nearest_even_opp (x : Q) : nearest_even (- x) = (- nearest_even x)%Z.
Proof.
  unfold nearest_even, Qopp. destruct x as [n d]. cbn [Qnum Qden].
  pose proof (Z.div_mod n (Z.pos d) ltac:(lia)) as Hn.
  pose proof (Z.mod_pos_bound n (Z.pos d) ltac:(lia)) as Hr.
  pose proof (Z.div_mod (- n) (Z.pos d) ltac:(lia)) as Hn'.
  pose proof (Z.mod_pos_bound (- n) (Z.pos d) ltac:(lia)) as Hr'.
  set (q := (n / Z.pos d)%Z) in *. set (r := (n mod Z.pos d)%Z) in *.
  set (q' := (- n / Z.pos d)%Z) in *. set (r' := (- n mod Z.pos d)%Z) in *.
  assert (Hd : (0 < Z.pos d)%Z) by lia. clearbody q r q' r'.
  revert Hd Hn Hr Hn' Hr'. generalize (Z.pos d). intros a Ha Hn Hr Hn' Hr'.
  assert (Hs : (a * (q + q') + (r + r') = 0)%Z) by lia.
  assert (Hq : (q + q' = 0 \/ q + q' = -1)%Z) by nia.
  assert (Hcase : (r = 0 /\ r' = 0 /\ q' = - q)%Z \/ (0 < r /\ r' = a - r /\ q' = - q - 1)%Z).
  { destruct Hq as [Hq|Hq]; rewrite Hq in Hs; [left | right]; lia. }
  clear Hs Hq Hn Hn'.
  destruct Hcase as [(-> & -> & ->)|(Hpos & -> & ->)].
  - destruct (Z.compare_spec (2 * 0) a); lia.
  - destruct (Z.compare_spec (2 * r) a) as [E|L|G],
             (Z.compare_spec (2 * (a - r)) a) as [E'|L'|G']; try lia.
    replace (- q - 1)%Z with (- (q + 1))%Z by lia.
    rewrite Z.even_opp, Z.even_add. change (Z.even 1) with false.
    destruct (Z.even q); cbn; lia.
Qed.

(** [log2_floor x] is the exponent of the binade of [x]. *)
Lemma pow2_quotient (a b : Z) :
  (0 <= a)%Z -> (0 <= b)%Z -> 2 ^ (a - b) == inject_Z (2 ^ a) / inject_Z (2 ^ b).
Proof.
  intros Ha Hb. rewrite Qpower_minus by discriminate.
  now rewrite !Zpower_Qpower by assumption.
Qed.

Lemma log2_floor_spec (x : Q) :
  ~ x == 0 -> 2 ^ log2_floor x <= Qabs x /\ Qabs x < 2 ^ (log2_floor x + 1).
Proof.
  intros Hx. unfold log2_floor.
  set (k := (Z.log2 (Z.abs (Qnum x)) - Z.log2 (Z.pos (Qden x)))%Z).
  assert (Hk : 2 ^ (k - 1) <= Qabs x /\ Qabs x < 2 ^ (k + 1)).
  { subst k. destruct x as [n d]. unfold Qeq in Hx. cbn [Qnum Qden Qabs] in *.
    assert (Hn : (0 < Z.abs n)%Z) by lia.
    pose proof (Z.log2_spec (Z.abs n) Hn) as [Ha1 Ha2].
    pose proof (Z.log2_spec (Z.pos d) ltac:(lia)) as [Hb1 Hb2].
    pose proof (Z.log2_nonneg (Z.abs n)) as Ha0.
    pose proof (Z.log2_nonneg (Z.pos d)) as Hb0.
    set (a := Z.log2 (Z.abs n)) in *. set (b := Z.log2 (Z.pos d)) in *.
    replace (a - b - 1)%Z with (a - Z.succ b)%Z by lia.
    replace (a - b + 1)%Z with (Z.succ a - b)%Z by lia.
    rewrite !pow2_quotient by lia.
    assert (Hpa : (0 < 2 ^ a)%Z) by (apply Z.pow_pos_nonneg; lia).
    assert (Hpb : (0 < 2 ^ b)%Z) by (apply Z.pow_pos_nonneg; lia).
    clearbody a b. revert Ha1 Ha2 Hb1 Hb2 Hpa Hpb.
    generalize (2 ^ a)%Z (2 ^ Z.succ a)%Z (2 ^ b)%Z (2 ^ Z.succ b)%Z (Z.abs n) Hn.
    intros A A' B B' m Hm Ha1 Ha2 Hb1 Hb2 Hpa Hpb.
    split.
    - apply Qle_shift_div_r; [rewrite <- (Zlt_Qlt 0); lia|].
      unfold Qle, Qmult, inject_Z. cbn [Qnum Qden]. nia.
    - apply Qlt_shift_div_l; [rewrite <- (Zlt_Qlt 0); lia|].
      unfold Qlt, Qmult, inject_Z. cbn [Qnum Qden]. nia. }
  destruct (Qle_bool (2 ^ k) (Qabs x)) eqn:E.
  - apply Qle_bool_iff in E. tauto.
  - replace (k - 1 + 1)%Z with k by lia. split; [tauto|].
    apply Qnot_le_lt. intros H. apply Qle_bool_iff in H. congruence.
Qed.

Lemma log2_floor_unique (x : Q) (k : Z) :
  2 ^ k <= Qabs x -> Qabs x < 2 ^ (k + 1) -> log2_floor x = k.
Proof.
  intros H1 H2.
  assert (Hx : ~ x == 0).
  { intros H. rewrite H in H1. change (Qabs 0) with 0 in H1.
    pose proof (Qpower_0_lt 2 k ltac:(reflexivity)). lra. }
  destruct (log2_floor_spec x Hx) as [L1 L2].
  assert (A : 2 ^ k < 2 ^ (log2_floor x + 1)) by lra.
  assert (B : 2 ^ log2_floor x < 2 ^ (k + 1)) by lra.
  apply Qpower_lt_compat_l_inv in A; [|reflexivity].
  apply Qpower_lt_compat_l_inv in B; [|reflexivity]. lia.
Qed.

Lemma log2_floor_compat (x y : Q) : ~ x == 0 -> x == y -> log2_floor x = log2_floor y.
Proof.
  intros Hx H. symmetry. destruct (log2_floor_spec x Hx) as [L1 L2].
  apply log2_floor_unique; now rewrite <- H.
Qed.

Lemma log2_floor_mono (x y : Q) :
  ~ x == 0 -> Qabs x <= Qabs y -> (log2_floor x <= log2_floor y)%Z.
Proof.
  intros Hx H.
  assert (Hy : ~ y == 0).
  { intros E. rewrite E in H. change (Qabs 0) with 0 in H.
    apply Hx. apply Qabs_case with (x := x) (P := fun _ => x == 0).
    - intros Hp. pose proof (Qabs_nonneg x). rewrite Qabs_pos in H by assumption. lra.
    - intros Hn. rewrite Qabs_neg in H by assumption. lra. }
  destruct (log2_floor_spec x Hx) as [L1 _], (log2_floor_spec y Hy) as [_ R2].
  assert (A : 2 ^ log2_floor x < 2 ^ (log2_floor y + 1)) by lra.
  apply Qpower_lt_compat_l_inv in A; [lia | reflexivity].
Qed.

Lemma pow2_pos (e : Z) : 0 < 2 ^ e.
Proof. apply Qpower_0_lt. reflexivity. Qed.

Lemma div_pow2_mono (x y : Q) (e : Z) : x <= y -> x / 2 ^ e <= y / 2 ^ e.
Proof.
  intros H. apply Qmult_le_compat_r; [exact H|].
  apply Qinv_le_0_compat, Qlt_le_weak, pow2_pos.
Qed.

(** Rounding depends on the value of the rational alone, and changes sign
    with it. *)
Lemma is_zero_compat (x y : Q) : x == y -> Qeq_bool x 0 = Qeq_bool y 0.
Proof.
  intros H. destruct (Qeq_bool x 0) eqn:Ex, (Qeq_bool y 0) eqn:Ey; try reflexivity.
  - apply Qeq_bool_iff in Ex. rewrite H in Ex. apply Qeq_bool_iff in Ex. congruence.
  - apply Qeq_bool_iff in Ey. rewrite <- H in Ey. apply Qeq_bool_iff in Ey. congruence.
Qed.

Lemma round_compat (x y : Q) : x == y -> round x == round y.
Proof.
  intros H. unfold round. rewrite (is_zero_compat x y H).
  destruct (Qeq_bool y 0) eqn:E; [reflexivity|].
  assert (Hx : ~ x == 0).
  { intros Hx. rewrite H in Hx. apply Qeq_bool_iff in Hx. congruence. }
  rewrite <- (log2_floor_compat x y Hx H).
  set (e := Z.max (log2_floor x - 52) (-1074)).
  rewrite (nearest_even_compat (x / 2 ^ e) (y / 2 ^ e)); [reflexivity|].
  now rewrite H.
Qed.

Lemma round_opp (x : Q) : round (- x) == - round x.
Proof.
  unfold round. destruct (Qeq_bool x 0) eqn:E.
  - apply Qeq_bool_iff in E.
    assert (E' : Qeq_bool (- x) 0 = true) by (apply Qeq_bool_iff; rewrite E; reflexivity).
    rewrite E'. reflexivity.
  - assert (Hx : ~ x == 0) by (intros H; apply Qeq_bool_iff in H; congruence).
    assert (E' : Qeq_bool (- x) 0 = false).
    { destruct (Qeq_bool (- x) 0) eqn:E'; [|reflexivity].
      apply Qeq_bool_iff in E'. destruct Hx. lra. }
    rewrite E'.
    assert (Hk : log2_floor (- x) = log2_floor x).
    { destruct (log2_floor_spec x Hx) as [L1 L2].
      apply log2_floor_unique; now rewrite Qabs_opp. }
    rewrite Hk. set (e := Z.max (log2_floor x - 52) (-1074)).
    rewrite (nearest_even_compat (- x / 2 ^ e) (- (x / 2 ^ e))).
    + rewrite nearest_even_opp, inject_Z_opp. ring.
    + unfold Qdiv. ring.
Qed.

Lemma round_nonpos (x : Q) : x <= 0 -> round x <= 0.
Proof.
  intros H. assert (H' : 0 <= - x) by lra.
  apply round_nonneg in H'. rewrite round_opp in H'. lra.
Qed.

(** Below the top of its binade a number scales to [2**53] at most, and
    from the bottom of its binade on to [2**52] at least. *)

Lemma scaled_upper (x : Q) (k e : Z) :
  x < 2 ^ (k + 1) -> (k - 52 <= e)%Z -> x / 2 ^ e <= inject_Z (2 ^ 53).
Proof.
  intros Hx He. apply Qle_shift_div_r; [apply pow2_pos|].
  rewrite Zpower_Qpower by lia. change (inject_Z 2) with 2.
  rewrite <- Qpower_plus by discriminate.
  apply Qlt_le_weak. eapply Qlt_le_trans; [exact Hx|].
  apply Qpower_le_compat_l; [lia | discriminate].
Qed.

Lemma scaled_lower (y : Q) (k : Z) :
  2 ^ k <= y -> inject_Z (2 ^ 52) <= y / 2 ^ (k - 52).
Proof.
  intros Hy. apply Qle_shift_div_l; [apply pow2_pos|].
  rewrite Zpower_Qpower by lia. change (inject_Z 2) with 2.
  rewrite <- Qpower_plus by discriminate.
  now replace (52 + (k - 52))%Z with k by lia.
Qed.

Lemma round_mono_pos (x y : Q) : 0 < x -> x <= y -> round x <= round y.
Proof.
  intros Hx Hxy.
  assert (Hy : 0 < y) by lra.
  assert (Nx : ~ x == 0) by lra. assert (Ny : ~ y == 0) by lra.
  destruct (log2_floor_spec x Nx) as [Lx Ux], (log2_floor_spec y Ny) as [Ly Uy].
  rewrite Qabs_pos in Lx, Ux, Ly, Uy by lra.
  assert (Hk : (log2_floor x <= log2_floor y)%Z).
  { apply log2_floor_mono; [exact Nx|]. rewrite !Qabs_pos by lra. exact Hxy. }
  unfold round.
  destruct (Qeq_bool x 0) eqn:Ex; [apply Qeq_bool_iff in Ex; contradiction|].
  destruct (Qeq_bool y 0) eqn:Ey; [apply Qeq_bool_iff in Ey; contradiction|].
  set (ex := Z.max (log2_floor x - 52) (-1074)).
  set (ey := Z.max (log2_floor y - 52) (-1074)).
  destruct (Z.eq_dec ex ey) as [E|E].
  - rewrite <- E. apply Qmult_le_compat_r; [|apply Qlt_le_weak, pow2_pos].
    rewrite <- Zle_Qle. apply nearest_even_mono. now apply div_pow2_mono.
  - assert (Hlt : (ex + 1 <= ey)%Z) by lia.
    assert (Hey : ey = (log2_floor y - 52)%Z) by lia.
    apply Qle_trans with (inject_Z (2 ^ 53) * 2 ^ ex).
    { apply Qmult_le_compat_r; [|apply Qlt_le_weak, pow2_pos].
      rewrite <- Zle_Qle. rewrite <- (nearest_even_inject (2 ^ 53)).
      apply nearest_even_mono. apply (scaled_upper x (log2_floor x)); [exact Ux | lia]. }
    apply Qle_trans with (inject_Z (2 ^ 52) * 2 ^ ey).
    { change (2 ^ 53)%Z with (2 ^ 52 * 2)%Z. rewrite inject_Z_mult.
      rewrite <- Qmult_assoc. apply Qmult_le_l; [reflexivity|].
      change (inject_Z 2) with (2 ^ 1). rewrite <- Qpower_plus by discriminate.
      apply Qpower_le_compat_l; [lia | discriminate]. }
    apply Qmult_le_compat_r; [|apply Qlt_le_weak, pow2_pos].
    rewrite <- Zle_Qle. rewrite <- (nearest_even_inject (2 ^ 52)).
    apply nearest_even_mono. rewrite Hey. now apply scaled_lower.
Qed.

(** Rounding keeps the order. *)

Lemma round_mono (x y : Q) : x <= y -> round x <= round y.
Proof.
  intros H. destruct (Qlt_le_dec 0 x) as [Hx|Hx]; [now apply round_mono_pos|].
  destruct (Qlt_le_dec y 0) as [Hy|Hy].
  - assert (H' : round (- y) <= round (- x)) by (apply round_mono_pos; lra).
    rewrite !round_opp in H'. lra.
  - apply Qle_trans with 0; [now apply round_nonpos | now apply round_nonneg].
Qed.

(** A mean that lies between two doubles rounds to a double between them. *)

Lemma round_between (lo x hi : Q) :
  round lo == lo -> round hi == hi -> lo <= x -> x <= hi ->
  lo <= round x /\ round x <= hi.
Proof.
  intros Hlo Hhi H1 H2. apply round_mono in H1, H2. lra.
Qed.

(** An integer of magnitude [2**53] at most is a double. *)

Lemma round_inject (z : Z) : (Z.abs z <= 2 ^ 53)%Z -> round (inject_Z z) == inject_Z z.
Proof.
  intros Hz. unfold round. destruct (Qeq_bool (inject_Z z) 0) eqn:E.
  - apply Qeq_bool_iff in E. now rewrite E.
  - assert (Nz : ~ inject_Z z == 0) by (intros H; apply Qeq_bool_iff in H; congruence).
    destruct (Z.eq_dec (Z.abs z) (2 ^ 53)%Z) as [Htop|Htop].
    + assert (Hc : z = (2 ^ 53)%Z \/ z = (- 2 ^ 53)%Z) by lia.
      clear E. destruct Hc as [-> | ->]; vm_compute; reflexivity.
    + assert (Hlt : Qabs (inject_Z z) < inject_Z (2 ^ 53)).
      { unfold Qabs, inject_Z. unfold Qlt. cbn [Qnum Qden]. lia. }
      destruct (log2_floor_spec _ Nz) as [L _].
      assert (Hk : (log2_floor (inject_Z z) <= 52)%Z).
      { assert (A : 2 ^ log2_floor (inject_Z z) < 2 ^ 53).
        { eapply Qle_lt_trans; [exact L|]. rewrite Zpower_Qpower in Hlt by lia. exact Hlt. }
        apply Qpower_lt_compat_l_inv in A; [lia | reflexivity]. }
      set (e := Z.max (log2_floor (inject_Z z) - 52) (-1074)).
      assert (He : (e <= 0)%Z) by lia.
      assert (Hs : inject_Z z / 2 ^ e == inject_Z (z * 2 ^ (- e))).
      { rewrite inject_Z_mult, Zpower_Qpower by lia. change (inject_Z 2) with 2.
        rewrite Qpower_opp. reflexivity. }
      rewrite (nearest_even_compat _ _ Hs), nearest_even_inject.
      rewrite inject_Z_mult, Zpower_Qpower by lia. change (inject_Z 2) with 2.
      rewrite <- Qmult_assoc, <- Qpower_plus by discriminate.
      replace (- e + e)%Z with 0%Z by lia. change (2 ^ 0) with 1. ring.
Qed.

End Rounding.

(** ** Which replies count as failures *)

Section Failures.

Variable cfg : Config.

Lemma accepted_iff_Ok files file_path o :
  accepted files file_path o <->
  exists m, (process_document cfg files file_path o).2 = Ok m.
Proof.
  split.
  - intros (content & status & d & end_time & Hf & Hr & Hs).
    exists (record o content end_time d). apply process_document_Ok. eauto 10.
  - intros [m (content & status & d & end_time & Hf & Hr & Hs & _)%process_document_Ok].
    exists content, status, d, end_time. auto.
Qed.

(** C2, as the program has it. A request is a failure, logged and leaving
    no record, exactly when its file cannot be read, no response arrives
    (connection error or timeout), the status is 400 or more, the body
    cannot be read, the Content-Type is not JSON, the body is not JSON or
    the JSON value is not an object. Every other reply, whatever its
    [success] field and also with a 3xx status, yields a record that is
    appended to [self.metrics]. A status of 400 or more fails with the
    [ClientResponseError] of [raise_for_status]; a body that was read under
    a status below 400 and a Content-Type that is not JSON fails with
    [ContentTypeError], a JSON object with [success: true] included. *)
Theorem request_failure_conditions (files : gmap string string)
    (file_path : string) (o : Observation) (st : State) :
  let outcome := (process_document cfg files file_path o).2 in
  (accepted files file_path o ->
   exists m, outcome = Ok m /\
     collect st outcome = with_metrics (fun ms => ms ++ [m]) st) /\
  (~ accepted files file_path o ->
   exists e, outcome = Raise e /\
     collect st outcome = logging (ErrorProcessingFailed e) st /\
     metrics (collect st outcome) = metrics st) /\
  (forall file_content status json_mimetype body end_time,
     files !! file_path = Some file_content ->
     reply o = Response status json_mimetype body end_time ->
     400 <= status -> outcome = Raise (ClientResponseError status)) /\
  (forall file_content status body end_time,
     files !! file_path = Some file_content ->
     reply o = Response status false body end_time ->
     status < 400 -> (forall t, body <> Unread t) ->
     outcome = Raise (ContentTypeError status)) /\
  (successful_reply (reply o) -> is_Some (files !! file_path) ->
   accepted files file_path o).
Proof.
  cbn zeta. split; [|split; [|split; [|split]]].
  - intros [m Hm]%accepted_iff_Ok. exists m. now rewrite Hm.
  - intros Hno. destruct (process_document cfg files file_path o).2 as [m|e] eqn:E.
    + destruct Hno. apply accepted_iff_Ok. eauto.
    + exists e. auto.
  - intros content status json_mimetype body end_time Hf Hr Hs.
    unfold process_document, read_file. rewrite Hf, Hr. cbn [snd].
    unfold raise_for_status. destruct (Z.leb_spec 400 status); [reflexivity | lia].
  - intros content status body end_time Hf Hr Hs Hread.
    unfold process_document, read_file. rewrite Hf, Hr. cbn [snd].
    unfold raise_for_status. destruct (Z.leb_spec 400 status); [lia|].
    destruct body as [t| | | | |v]; try reflexivity. now destruct (Hread t).
  - intros (status & d & end_time & Hr & Hs & _) [content Hf].
    exists content, status, d, end_time. repeat split; auto; lia.
Qed.

(** [str] loses nothing: different integers print differently. *)
Lemma str_inj (a b : Z) : Py.str a = Py.str b -> a = b.
Proof.
  unfold Py.str. intros H.
  assert (Hnn : forall n, Z.to_int n <> Decimal.Pos Decimal.Nil
                          /\ Z.to_int n <> Decimal.Neg Decimal.Nil).
  { intros [|p|p]; split; try discriminate; cbn;
      intros [= Hp]; exact (Unsigned.to_uint_nonnil p Hp). }
  apply DecimalZ.to_int_inj.
  destruct (Hnn a) as [Ha1 Ha2], (Hnn b) as [Hb1 Hb2].
  pose proof (NilZero.isi _ Ha1 Ha2) as Ia. pose proof (NilZero.isi _ Hb1 Hb2) as Ib.
  rewrite H in Ia. congruence.
Qed.

(** C3, as the program has it. The identifier of a record is ["op_"]
    followed by [int(start_time * 1000)], the product being the double
    nearest to the exact one. Nothing but the reading of the clock at the
    start of the request enters it: two records carry the same identifier
    exactly when these integers are equal, and so whenever their requests
    read the same clock value. Two records with the same identifier come
    from requests that started less than two milliseconds apart, for
    readings of the clock that are not negative and below [2**53]
    milliseconds: requests that start two milliseconds or more apart have
    distinct identifiers. *)
Theorem operation_id_by_start_time files file_path1 file_path2 o1 o2 m1 m2 :
  (process_document cfg files file_path1 o1).2 = Ok m1 ->
  (process_document cfg files file_path2 o2).2 = Ok m2 ->
  operation_id m1 = "op_" +:+ Py.str (Py.int (Py.fmul (start_time o1) 1000)) /\
  (operation_id m1 = operation_id m2 <->
   Py.int (Py.fmul (start_time o1) 1000) = Py.int (Py.fmul (start_time o2) 1000)) /\
  (start_time o1 = start_time o2 -> operation_id m1 = operation_id m2) /\
  ((0 <= start_time o1)%Q -> (0 <= start_time o2)%Q ->
   (start_time o1 * 1000 < inject_Z (2 ^ 53))%Q ->
   (start_time o2 * 1000 < inject_Z (2 ^ 53))%Q ->
   operation_id m1 = operation_id m2 ->
   (Qabs (start_time o1 - start_time o2) < 2 # 1000)%Q).
Proof.
  intros (c1 & s1 & d1 & e1 & _ & _ & _ & ->)%process_document_Ok.
  intros (c2 & s2 & d2 & e2 & _ & _ & _ & ->)%process_document_Ok.
  cbn [operation_id record].
  assert (Hint : "op_" +:+ Py.str (Py.int (Py.fmul (start_time o1) 1000))
                 = "op_" +:+ Py.str (Py.int (Py.fmul (start_time o2) 1000)) ->
                 Py.int (Py.fmul (start_time o1) 1000)
                 = Py.int (Py.fmul (start_time o2) 1000)).
  { intros H. apply str_inj. now apply (String.app_inj "op_") in H. }
  split; [reflexivity|]. split; [split|split].
  - exact Hint.
  - now intros ->.
  - now intros ->.
  - intros H1 H2 B1 B2 H. apply same_product_close; auto.
Qed.

End Failures.

(** ** The event loop *)

Section EventLoop.

Variable cfg : Config.
Variable w : World.

Lemma make_batches_ok : Forall (fun batch => batch = corpus ++ corpus) (make_batches cfg corpus).
Proof.
  unfold make_batches. apply Forall_forall. now intros batch [-> _]%elem_of_replicate.
Qed.

(** What one tick does to the state: nothing, the start of a session, or
    one batch of a session. *)
Lemma tick_step st tasks t :
  tasks_ok tasks ->
  tasks_ok (tick cfg w (st, tasks) t).2 /\
  ((tick cfg w (st, tasks) t).1 = st \/
   (exists s, t = Start s /\ (tick cfg w (st, tasks) t).1 = (session_start cfg w st).2) \/
   (exists s b, t = Resume s /\
      (tick cfg w (st, tasks) t).1
      = (session_batch cfg (observe w s b) (corpus ++ corpus) st).2)).
Proof.
  intros Hok. destruct t as [s|s]; cbn [tick].
  - destruct (session_start cfg w st) as [batches st1] eqn:E. cbn [fst snd]. split.
    + apply Forall_app. split; [exact Hok|]. constructor; [|constructor].
      rewrite session_start_eq in E. injection E as <- _. apply make_batches_ok.
    + right; left. eauto.
  - destruct (tasks !! s) as [[b [|batch_files rest]]|] eqn:Hs; [now auto | | now auto].
    pose proof (Forall_lookup_1 _ _ _ _ Hok Hs) as Hp. cbn [pending] in Hp.
    apply Forall_cons in Hp as [-> Hrest].
    rewrite session_batch_eq. cbn [fst snd]. split.
    + apply Forall_insert; [exact Hok | exact Hrest].
    + right; right. exists s, b. split; [reflexivity|]. now rewrite session_batch_eq.
Qed.

(** A property that the start of a session and a batch both keep holds
    after any sequence of ticks. *)
Lemma ticks_invariant (P : State -> Prop) (allowed : Tick -> Prop) :
  (forall st s, allowed (Start s) -> P st -> P (session_start cfg w st).2) ->
  (forall st s b, allowed (Resume s) -> P st ->
     P (session_batch cfg (observe w s b) (corpus ++ corpus) st).2) ->
  forall ticks, Forall allowed ticks ->
  forall st tasks, tasks_ok tasks -> P st ->
    P (fold_left (tick cfg w) ticks (st, tasks)).1 /\
    tasks_ok (fold_left (tick cfg w) ticks (st, tasks)).2.
Proof.
  intros Hstart Hbatch ticks Hall.
  induction Hall as [|t ticks Ht _ IH]; intros st tasks Hok HP; [now split|].
  cbn [fold_left].
  destruct (tick_step st tasks t Hok) as [Hok' Hcase].
  destruct (tick cfg w (st, tasks) t) as [st1 tasks1]. cbn [fst snd] in *.
  apply IH; [exact Hok'|].
  destruct Hcase as [->|[(s & -> & ->)|(s & b & -> & ->)]]; eauto.
Qed.

Lemma plan_phases : plan cfg w = starts cfg ++ resumes cfg w.
Proof. reflexivity. Qed.


Lemma resumes_are_resumes : Forall is_resume (resumes cfg w).
Proof.
  unfold resumes. apply Forall_app. split; apply Forall_forall.
  - intros t (s & -> & _)%list_elem_of_fmap. exact I.
  - intros t Ht%list_elem_of_In. apply in_flat_map in Ht as (s & _ & Ht).
    apply list_elem_of_In in Ht. apply elem_of_replicate in Ht as [-> _]. exact I.
Qed.

(** Wherever [gather] stops, the ticks it ran are a prefix of the plan. *)
Lemma gather_sessions_prefix st :
  exists k,
    (gather_sessions cfg w st).2
    = (fold_left (tick cfg w) (take k (plan cfg w)) (st, [])).1 /\
    ((gather_sessions cfg w st).1 = Ok tt \/
     (gather_sessions cfg w st).1 = Raise KeyboardInterrupt /\ sigint w = Some k
       /\ (k < length (plan cfg w))%nat).
Proof.
  unfold gather_sessions. destruct (sigint w) as [k|].
  - destruct (Nat.ltb_spec k (length (plan cfg w))).
    + exists k. split; [reflexivity|]. right. auto.
    + exists (length (plan cfg w)). rewrite firstn_all. auto.
  - exists (length (plan cfg w)). rewrite firstn_all. auto.
Qed.

(** The same, for any property kept by both kinds of tick. *)
Lemma gather_sessions_invariant (P : State -> Prop) st :
  (forall st, P st -> P (session_start cfg w st).2) ->
  (forall st s b, P st -> P (session_batch cfg (observe w s b) (corpus ++ corpus) st).2) ->
  P st -> P (gather_sessions cfg w st).2.
Proof.
  intros Hstart Hbatch HP.
  destruct (gather_sessions_prefix st) as (k & -> & _).
  apply (ticks_invariant P (fun _ => True)); auto.
  - apply Forall_forall. auto.
  - constructor.
Qed.

Lemma gather_sessions_stdout st : stdout (gather_sessions cfg w st).2 = stdout st.
Proof.
  apply (gather_sessions_invariant (fun st' => stdout st' = stdout st)); auto.
  - intros st1 H. now rewrite session_start_eq.
  - intros st1 s b H. now rewrite session_batch_eq.
Qed.

Lemma gather_sessions_other_files st p :
  p ∉ corpus -> fs (gather_sessions cfg w st).2 !! p = fs st !! p.
Proof.
  intros Hp.
  apply (gather_sessions_invariant (fun st' => fs st' !! p = fs st !! p)); auto.
  - intros st1 H. rewrite session_start_eq. cbn [snd fs]. now rewrite staged_other.
  - intros st1 s b H. now rewrite session_batch_eq.
Qed.

Lemma gather_sessions_finished st :
  sigint w = None ->
  gather_sessions cfg w st = (Ok tt, (fold_left (tick cfg w) (plan cfg w) (st, [])).1).
Proof. intros H. unfold gather_sessions. now rewrite H. Qed.

(** The first batch of the first session, once every session has started. *)
Lemma first_batch st batch_files rest :
  make_batches cfg corpus = batch_files :: rest ->
  (fold_left (tick cfg w) [Start 0; Resume 0] (st, [])).1
  = (session_batch cfg (observe w 0 0) batch_files (session_start cfg w st).2).2.
Proof.
  intros Hb. cbn [fold_left tick]. rewrite session_start_eq, Hb. cbn [app snd].
  cbn [tick]. change ([mkTask 0 (batch_files :: rest)] !! 0%nat)
    with (Some (mkTask 0 (batch_files :: rest))).
  cbn iota. now rewrite session_batch_eq.
Qed.

End EventLoop.

(** ** MetricsAggregator *)

Section Aggregation.

Variable cfg : Config.
Variable w : World.

Lemma keeps_bind {A B} (P : State -> Prop) (m : Run A) (k : A -> Run B) :
  keeps P m -> (forall a, keeps P (k a)) -> keeps P (m ≫= k).
Proof.
  intros Hm Hk st HP. unfold mbind, run_bind. specialize (Hm st HP).
  destruct (m st) as [[a|e] st1]; cbn [snd] in *; [now apply Hk | exact Hm].
Qed.

Lemma keeps_eval {A} (P : State -> Prop) (r : Py.result A) : keeps P (eval r).
Proof. intros st HP. exact HP. Qed.

Lemma keeps_at {A} (P : State -> Prop) (m : Run A) st :
  keeps P m -> P st -> P (m st).2.
Proof. intros Hm. apply Hm. Qed.

Lemma bind_modify {B} (f : State -> State) (k : unit -> Run B) st :
  (modify f ≫= k) st = k tt (f st).
Proof. reflexivity. Qed.

Lemma bind_eval_Ok {A B} (r : Py.result A) (a : A) (k : A -> Run B) st :
  r = Ok a -> (eval r ≫= k) st = k a st.
Proof. now intros ->. Qed.

Lemma yields_bind {A B} (P : Py.result B -> Prop) (m : Run A) (k : A -> Run B) :
  (forall st e, (m st).1 = Raise e -> P (Raise e)) ->
  (forall a, yields P (k a)) -> yields P (m ≫= k).
Proof.
  intros Hm Hk st. unfold mbind, run_bind. specialize (Hm st).
  destruct (m st) as [[a|e] st1]; cbn [fst] in *; [apply Hk | now apply Hm].
Qed.

Lemma printing_in l st : l ∈ stdout (printing l st).
Proof. cbn. apply elem_of_app. right. apply list_elem_of_singleton. reflexivity. Qed.

Lemma printing_keeps l l' st : l ∈ stdout st -> l ∈ stdout (printing l' st).
Proof. intros H. cbn. apply elem_of_app. now left. Qed.

Lemma export_keeps l st : l ∈ stdout st -> l ∈ stdout (export_results_to_csv w st).
Proof. intros H. cbn. apply elem_of_app. now left. Qed.

(** The steps of the summary after its guard. *)
Ltac steps tac :=
  repeat first [ apply keeps_bind; [|intros ?] | apply keeps_eval | tac ].

Lemma describe_nonempty (xs : list Q) :
  xs <> [] -> exists s, Statistics.describe xs = Ok s.
Proof. destruct xs as [|x xs]; [congruence|]. intros _. cbn. eauto. Qed.

Lemma numbers_raises vs e : Statistics.numbers vs = Raise e -> e = TypeError.
Proof.
  induction vs as [|v vs IH]; [discriminate|]. cbn.
  destruct v; cbn; try (now intros [= <-]);
    destruct (Statistics.numbers vs); cbn; try discriminate; intros [= <-]; now apply IH.
Qed.

Lemma numbers_length vs xs : Statistics.numbers vs = Ok xs -> length xs = length vs.
Proof.
  revert xs; induction vs as [|v vs IH]; intros xs; cbn; [now intros [= <-]|].
  destruct (Statistics.number v); cbn; [|discriminate].
  destruct (Statistics.numbers vs) as [ys|]; cbn; [|discriminate].
  intros [= <-]. cbn. now rewrite (IH ys).
Qed.

Lemma mean_values_raises xs e :
  xs <> [] -> Statistics.mean_values xs = Raise e -> e = OverflowError.
Proof.
  intros Hne. unfold Statistics.mean_values. destruct xs as [|x xs]; [congruence|].
  destruct (omap Statistics.special (x :: xs)); [|discriminate].
  destruct (_ && _); [discriminate|].
  destruct (overflows _); [|discriminate]. now intros [= <-].
Qed.

Lemma format_f_raises x e : Statistics.format_f x = Raise e -> e = OverflowError.
Proof.
  unfold Statistics.format_f, to_float. destruct x as [b|n|x]; cbn; try discriminate.
  destruct (overflows _); cbn; [|discriminate]. now intros [= <-].
Qed.

Lemma format_f_Ok x : Statistics.format_f x = Ok tt \/ Statistics.format_f x = Raise OverflowError.
Proof.
  destruct (Statistics.format_f x) as [[]|e] eqn:E; [now left|].
  apply format_f_raises in E. subst e. now right.
Qed.

Lemma min_values_nonempty xs :
  xs <> [] -> exists lo, Statistics.min_values xs = Ok lo.
Proof. destruct xs; [congruence|]. cbn. eauto. Qed.

Lemma max_values_nonempty xs :
  xs <> [] -> exists hi, Statistics.max_values xs = Ok hi.
Proof. destruct xs; [congruence|]. cbn. eauto. Qed.

Lemma describe_values_raises formatted vs e :
  vs <> [] -> Statistics.describe_values formatted vs = Raise e -> summary_failure e.
Proof.
  intros Hne. unfold Statistics.describe_values, summary_failure.
  destruct (Statistics.numbers vs) as [xs|e'] eqn:E; cbn [mbind result_bind Py.bind].
  - assert (Hxs : xs <> []).
    { apply numbers_length in E. destruct vs; [congruence|]. now destruct xs. }
    destruct (Statistics.mean_values xs) as [a|e'] eqn:Ea;
      cbn [mbind result_bind Py.bind].
    + destruct (min_values_nonempty xs Hxs) as [lo ->].
      destruct (max_values_nonempty xs Hxs) as [hi ->].
      destruct (format_f_Ok a) as [-> | ->]; cbn [mbind result_bind Py.bind];
        [|intros [= <-]; now right].
      destruct formatted; cbn [mbind result_bind Py.bind]; [|discriminate].
      destruct (format_f_Ok lo) as [-> | ->]; cbn [mbind result_bind Py.bind];
        [|intros [= <-]; now right].
      destruct (format_f_Ok hi) as [-> | ->]; cbn [mbind result_bind Py.bind];
        [discriminate|].
      intros [= <-]; now right.
    + intros [= <-]. right. now apply mean_values_raises in Ea.
  - intros [= <-]. left. now apply numbers_raises in E.
Qed.

Lemma count_successful_raises ms e : count_successful ms = Raise e -> e = TypeError.
Proof.
  induction ms as [|m ms IH]; [discriminate|]. cbn.
  unfold has_successful_chunks.
  destruct (successful_chunks m); cbn; try (now intros [= <-]);
    destruct (count_successful ms); cbn; try discriminate; intros [= <-]; now apply IH.
Qed.

Lemma print_results_empty elapsed st :
  metrics st = [] -> print_results cfg w elapsed st = (Ok tt, logging ErrorNoMetrics st).
Proof. intros H. unfold print_results. now rewrite H. Qed.

Lemma print_results_metrics elapsed st :
  metrics (print_results cfg w elapsed st).2 = metrics st.
Proof.
  unfold print_results. destruct (metrics st) as [|m ms] eqn:E; [exact E|].
  revert E. generalize (m :: ms). intros l E.
  apply (keeps_at (fun st' => metrics st' = l)); [|exact E].
  steps ltac:(intros ? ?; assumption).
Qed.

Lemma print_results_sent elapsed st :
  sent (print_results cfg w elapsed st).2 = sent st.
Proof.
  unfold print_results. destruct (metrics st) as [|m ms]; [reflexivity|].
  generalize (m :: ms). intros l.
  apply (keeps_at (fun st' => sent st' = sent st)); [|reflexivity].
  steps ltac:(intros ? ?; assumption).
Qed.

Lemma export_fs st :
  fs (export_results_to_csv w st)
  = <[results_filename w := csv_text w fieldnames (map csv_row (metrics st))]> (fs st).
Proof. reflexivity. Qed.

(** The only file the summary can write is the results file. *)
Lemma print_results_fs elapsed st :
  fs (print_results cfg w elapsed st).2 = fs st \/
  exists content, fs (print_results cfg w elapsed st).2
                  = <[results_filename w := content]> (fs st).
Proof.
  unfold print_results. destruct (metrics st) as [|m ms]; [now left|].
  generalize (m :: ms). intros l.
  set (P := fun st' => fs st' = fs st \/
              exists content, fs st' = <[results_filename w := content]> (fs st)).
  apply (keeps_at P); [|now left].
  steps ltac:(intros ? [H|H]; [left|right]; exact H).
  intros st1 [H|[content H]]; right; unfold modify; cbn [snd]; rewrite export_fs, H.
  - eauto.
  - rewrite insert_insert_eq. eauto.
Qed.

Lemma print_results_other_files elapsed st p :
  p <> results_filename w -> fs (print_results cfg w elapsed st).2 !! p = fs st !! p.
Proof.
  intros Hp. destruct (print_results_fs elapsed st) as [->|[content ->]]; [reflexivity|].
  apply lookup_insert_ne. congruence.
Qed.

Lemma print_results_log elapsed st :
  metrics st <> [] -> log (print_results cfg w elapsed st).2 = log st.
Proof.
  intros Hne. unfold print_results. destruct (metrics st) as [|m ms]; [congruence|].
  generalize (m :: ms). intros l.
  apply (keeps_at (fun st' => log st' = log st)); [|reflexivity].
  steps ltac:(intros ? ?; assumption).
Qed.

Lemma print_results_total_time elapsed st s :
  metrics st <> [] ->
  Statistics.describe (map total_time (metrics st)) = Ok s ->
  StatsLine "Total Time" s ∈ stdout (print_results cfg w elapsed st).2.
Proof.
  intros Hne Hs. unfold print_results. destruct (metrics st) as [|m ms]; [congruence|].
  revert Hs. generalize (m :: ms). intros l Hs.
  unfold print. rewrite !bind_modify, (bind_eval_Ok _ s _ _ Hs), bind_modify.
  apply (keeps_at (fun st' => StatsLine "Total Time" s ∈ stdout st')); [|apply printing_in].
  steps ltac:(intros ? ?; first [now apply printing_keeps | now apply export_keeps]).
Qed.

(** With records at hand no statistic is taken over an empty list: the only
    exceptions the summary can raise are the [TypeError] of a value that is
    not a number and the [OverflowError] of a number no double can hold. *)
Lemma print_results_raises elapsed st e :
  (print_results cfg w elapsed st).1 = Raise e -> summary_failure e.
Proof.
  revert e. unfold print_results. destruct (metrics st) as [|m ms] eqn:E; [discriminate|].
  assert (Hne : forall {A} (f : ProcessingMetrics -> A), map f (m :: ms) <> [])
    by discriminate.
  set (P := fun r : Py.result unit => forall e, r = Raise e -> summary_failure e).
  assert (K : forall r : Run unit, yields P r -> P (r st).1) by (intros r Hr; apply Hr).
  apply K.
  repeat first
    [ apply yields_bind; [intros ? e He|intros ?]
    | intros ? ? ?; discriminate ].
  all: cbn [print modify eval fst] in He; try discriminate.
  - intros e' [= <-]. eapply describe_values_raises, He. apply Hne.
  - intros e' [= <-]. eapply describe_values_raises, He. apply Hne.
  - intros e' [= <-]. eapply describe_values_raises, He. apply Hne.
  - intros e' [= <-]. eapply describe_values_raises, He. apply Hne.
  - intros e' [= <-]. left. eapply count_successful_raises, He.
Qed.

(** C9. With an empty [self.metrics] the summary consists of one error
    record in the log, the distinct outcome for no data, and of nothing else:
    nothing is printed and no statistic is evaluated. With records at hand
    the statistics are computed and printed, the first of them always with a
    result, and nothing is logged. In no case is a mean, a minimum or a
    maximum taken over an empty list: the exceptions that would signal it
    cannot occur. *)
Theorem no_data_no_statistics (elapsed : Q) (st : State) :
  (metrics st = [] ->
   print_results cfg w elapsed st = (Ok tt, logging ErrorNoMetrics st)) /\
  (metrics st <> [] ->
   exists s, Statistics.describe (map total_time (metrics st)) = Ok s /\
     StatsLine "Total Time" s ∈ stdout (print_results cfg w elapsed st).2 /\
     log (print_results cfg w elapsed st).2 = log st) /\
  (print_results cfg w elapsed st).1 <> Raise StatisticsError /\
  (print_results cfg w elapsed st).1 <> Raise ValueError /\
  (print_results cfg w elapsed st).1 <> Raise ZeroDivisionError.
Proof.
  split; [apply print_results_empty|]. split.
  - intros Hne. destruct (describe_nonempty (map total_time (metrics st))) as [s Hs].
    { destruct (metrics st); [congruence | discriminate]. }
    exists s. split; [exact Hs|]. split.
    + now apply print_results_total_time.
    + now apply print_results_log.
  - repeat split; intros H; apply print_results_raises in H as [H|H]; discriminate.
Qed.

End Aggregation.

(** ** The whole run *)

Section WholeRun.

Variable cfg : Config.
Variable w : World.

Lemma results_not_corpus : results_filename w ∉ corpus.
Proof.
  rewrite corpus_names. unfold results_filename. intros H.
  repeat (apply elem_of_cons in H as [H|H]);
    try (apply (f_equal (String.get 14)) in H; vm_compute in H; discriminate).
  inversion H.
Qed.

(** [main] ends in one of three ways. *)
Lemma main_cases st :
  (exists k, sigint w = Some k /\ (k < length (plan cfg w))%nat /\
     main cfg w st
     = (0, logging InfoInterrupted
             (fold_left (tick cfg w) (take k (plan cfg w)) (announced cfg st, [])).1)) \/
  ((gather_sessions cfg w (announced cfg st)).1 = Ok tt /\
   ((print_results cfg w (clock_end w - clock_start w)
       (gather_sessions cfg w (announced cfg st)).2).1 = Ok tt /\
    main cfg w st
    = (0, (print_results cfg w (clock_end w - clock_start w)
             (gather_sessions cfg w (announced cfg st)).2).2) \/
    exists e, summary_failure e /\
      (print_results cfg w (clock_end w - clock_start w)
         (gather_sessions cfg w (announced cfg st)).2).1 = Raise e /\
      main cfg w st
      = (1, logging (ErrorLoadTestFailed e)
              (print_results cfg w (clock_end w - clock_start w)
                 (gather_sessions cfg w (announced cfg st)).2).2))).
Proof.
  unfold main, run_load_test. fold (announced cfg st).
  destruct (gather_sessions_prefix cfg w (announced cfg st)) as (k & Hst & [Hr|(Hr & Hk & Hlt)]).
  - right. split; [exact Hr|].
    destruct (gather_sessions cfg w (announced cfg st)) as [r st1]. cbn [fst snd] in *. subst r.
    destruct (print_results cfg w (clock_end w - clock_start w) st1) as [[[]|e] st2] eqn:E.
    + left. auto.
    + right. pose proof (print_results_raises cfg w (clock_end w - clock_start w)%Q st1 e) as He.
      rewrite E in He. specialize (He eq_refl). exists e.
      destruct He as [-> | ->]; (split; [unfold summary_failure; auto|]); auto.
  - left. exists k. repeat split; try assumption.
    destruct (gather_sessions cfg w (announced cfg st)) as [r st1]. cbn [fst snd] in *.
    now subst.
Qed.

(** A property that logging, the ticks of the event loop and the summary
    all keep is kept by [main]. *)
Lemma main_invariant (P : State -> Prop) st :
  (forall st r, P st -> P (logging r st)) ->
  (forall st, P st -> P (session_start cfg w st).2) ->
  (forall st s b, P st -> P (session_batch cfg (observe w s b) (corpus ++ corpus) st).2) ->
  (forall st elapsed, P st -> P (print_results cfg w elapsed st).2) ->
  P st -> P (main cfg w st).2.
Proof.
  intros Hlog Hstart Hbatch Hprint HP.
  assert (Ha : P (announced cfg st)) by (unfold announced; auto).
  destruct (main_cases st) as [(k & _ & _ & ->)|[_ [[_ ->]|(e & _ & _ & ->)]]]; cbn [snd].
  - apply Hlog. apply (ticks_invariant cfg w P (fun _ => True)); auto.
    + apply Forall_forall. auto.
    + constructor.
  - apply Hprint. now apply gather_sessions_invariant.
  - apply Hlog, Hprint. now apply gather_sessions_invariant.
Qed.

(** What an interrupted run leaves behind. *)
Lemma main_interrupted st k :
  sigint w = Some k -> (k < length (plan cfg w))%nat ->
  main cfg w st
  = (0, logging InfoInterrupted
          (fold_left (tick cfg w) (take k (plan cfg w)) (announced cfg st, [])).1).
Proof.
  intros Hk Hlt. unfold main, run_load_test, gather_sessions. fold (announced cfg st).
  rewrite Hk. apply Nat.ltb_lt in Hlt. now rewrite Hlt.
Qed.

Lemma ticks_stdout ticks st tasks :
  tasks_ok tasks -> stdout (fold_left (tick cfg w) ticks (st, tasks)).1 = stdout st.
Proof.
  intros Hok.
  apply (ticks_invariant cfg w (fun st' => stdout st' = stdout st) (fun _ => True)); auto.
  - intros st1 ? _ H. now rewrite session_start_eq.
  - intros st1 ? b _ H. now rewrite session_batch_eq.
  - apply Forall_forall. auto.
Qed.

Lemma ticks_other_files ticks st tasks p :
  tasks_ok tasks -> p ∉ corpus ->
  fs (fold_left (tick cfg w) ticks (st, tasks)).1 !! p = fs st !! p.
Proof.
  intros Hok Hp.
  apply (ticks_invariant cfg w (fun st' => fs st' !! p = fs st !! p) (fun _ => True)); auto.
  - intros st1 ? _ H. rewrite session_start_eq. cbn [snd fs]. now rewrite staged_other.
  - intros st1 ? b _ H. now rewrite session_batch_eq.
  - apply Forall_forall. auto.
Qed.

(** The state an interrupted run leaves, and what logging leaves alone. *)
Lemma interrupted_state st k :
  sigint w = Some k -> (k < length (plan cfg w))%nat ->
  (main cfg w st).2
  = logging InfoInterrupted
      (fold_left (tick cfg w) (take k (plan cfg w)) (announced cfg st, [])).1.
Proof. intros Hk Hlt. now rewrite (main_interrupted st k Hk Hlt). Qed.

Lemma logging_metrics r st : metrics (logging r st) = metrics st.
Proof. reflexivity. Qed.

Lemma logging_stdout r st : stdout (logging r st) = stdout st.
Proof. reflexivity. Qed.

Lemma logging_fs r st : fs (logging r st) = fs st.
Proof. reflexivity. Qed.

(** The records of a run that nothing interrupts. *)
Lemma finished_run_metrics st :
  sigint w = None ->
  metrics (main cfg w st).2
  = metrics (fold_left (tick cfg w) (plan cfg w) (announced cfg st, [])).1.
Proof.
  intros Hnone.
  destruct (main_cases st) as [(k & Hk & _)|[_ [[_ ->]|(e & _ & _ & ->)]]]; [congruence | |];
    cbn [snd metrics logging]; rewrite print_results_metrics;
    now rewrite gather_sessions_finished.
Qed.

(** C5, as the program has it. When SIGINT arrives during the run, the
    program performs no further step of any session, so issues no further
    request; [main] catches the interrupt, logs it and returns exit code 0.
    It does not report: nothing is printed and no results file is written,
    whatever [self.metrics] holds at that moment. *)
Theorem interrupt_ends_run_without_report (st : State) (k : nat) :
  sigint w = Some k -> (k < length (plan cfg w))%nat ->
  let done := (fold_left (tick cfg w) (take k (plan cfg w)) (announced cfg st, [])).1 in
  main cfg w st = (0, logging InfoInterrupted done) /\
  sent (main cfg w st).2 = sent done /\
  metrics (main cfg w st).2 = metrics done /\
  stdout (main cfg w st).2 = stdout st /\
  fs (main cfg w st).2 !! results_filename w = fs st !! results_filename w.
Proof.
  intros Hk Hlt. cbn zeta. rewrite (main_interrupted st k Hk Hlt). cbn [snd].
  split; [reflexivity|]. split; [reflexivity|]. split; [reflexivity|]. split.
  - rewrite logging_stdout, ticks_stdout by constructor. reflexivity.
  - rewrite logging_fs, ticks_other_files; [reflexivity | constructor |].
    apply results_not_corpus.
Qed.

(** C10. When [self.metrics] is empty at the end of a run, however the run
    ended, the exporter has not run: standard output is as it was, with no
    line about exported results, and every file other than the five corpus
    files is as it was before the run, so that no results file exists unless
    one did before, not even one with a header only. *)
Theorem empty_run_writes_no_results_file (st : State) :
  metrics (main cfg w st).2 = [] ->
  stdout (main cfg w st).2 = stdout st /\
  (forall filename, ResultsExported filename ∉ drop (length (stdout st)) (stdout (main cfg w st).2)) /\
  (forall p, p ∉ corpus -> fs (main cfg w st).2 !! p = fs st !! p) /\
  fs (main cfg w st).2 !! results_filename w = fs st !! results_filename w.
Proof.
  intros Hempty.
  assert (Hout : stdout (main cfg w st).2 = stdout st
                 /\ forall p, p ∉ corpus -> fs (main cfg w st).2 !! p = fs st !! p).
  { destruct (main_cases st) as [(k & _ & _ & Hm)|[_ Hm]].
    - rewrite Hm in *. cbn [snd stdout fs logging]. split.
      + now rewrite ticks_stdout by constructor.
      + intros p Hp. now rewrite ticks_other_files by (constructor || assumption).
    - set (st1 := (gather_sessions cfg w (announced cfg st)).2) in *.
      assert (Hst1 : metrics st1 = []).
      { destruct Hm as [[_ Hm]|(e & _ & _ & Hm)]; rewrite Hm in Hempty; cbn in Hempty;
          now rewrite print_results_metrics in Hempty. }
      rewrite (print_results_empty cfg w _ st1 Hst1) in Hm.
      destruct Hm as [[_ Hm]|(e & _ & [=] & _)]. rewrite Hm. cbn [snd stdout fs logging]. split.
      + unfold st1. now rewrite gather_sessions_stdout.
      + intros p Hp. unfold st1. now rewrite gather_sessions_other_files. }
  destruct Hout as [Hout Hfs]. repeat split.
  - exact Hout.
  - intros filename. rewrite Hout, drop_all. apply not_elem_of_nil.
  - exact Hfs.
  - apply Hfs, results_not_corpus.
Qed.

End WholeRun.

(** ** The corpus under concurrent sessions *)

Section SharedCorpus.

Variable cfg : Config.
Variable w : World.



Lemma corpus_twice : Forall (fun p => p ∈ corpus) (corpus ++ corpus).
Proof. apply Forall_forall. intros p Hp. apply elem_of_app in Hp. tauto. Qed.





End SharedCorpus.

Section Refused.

Variable cfg : Config.
Variable w : World.

Lemma refused_outcomes files obs file_paths :
  refuses obs -> oks (batch_outcomes cfg files obs file_paths) = [].
Proof.
  revert obs; induction file_paths as [|p ps IH]; intros obs Hobs; [reflexivity|].
  unfold batch_outcomes in *. rewrite batch_tasks_cons. cbn [map].
  destruct (process_document cfg files p (obs 0%nat)).2 as [m|e] eqn:E.
  - apply process_document_Ok in E as (c & status & d & e & _ & Hr & Hs & _).
    destruct (Hobs 0%nat) as (status' & jm & body & e' & Hr' & Hs'). rewrite Hr in Hr'.
    injection Hr' as <- _ _ _. lia.
  - cbn [oks]. apply IH. intros i. apply (Hobs (S i)).
Qed.

(** When the service refuses every request, a run collects nothing. *)
Lemma refused_run st :
  (forall s b, refuses (observe w s b)) -> metrics (main cfg w st).2 = metrics st.
Proof.
  intros Hw. apply (main_invariant cfg w (fun st' => metrics st' = metrics st)).
  - intros st1 r H. exact H.
  - intros st1 H. now rewrite session_start_eq.
  - intros st1 s b H. rewrite session_batch_eq. cbn [snd metrics].
    rewrite refused_outcomes by apply Hw. now rewrite app_nil_r.
  - intros st1 elapsed H. now rewrite print_results_metrics.
  - reflexivity.
Qed.

End Refused.

Section Answered.

Variable cfg : Config.
Variable w : World.

(** When the service answers the first batch of the first session with a
    status below 400 and a JSON object under a JSON Content-Type, the first
    two records of the run are those of the first two requests. *)
Lemma first_batch_metrics st rest status d :
  make_batches cfg corpus = (corpus ++ corpus) :: rest ->
  (forall i, exists end_time,
     reply (observe w 0%nat 0%nat i) = Response status true (Value (JDict d)) end_time) ->
  status < 400 ->
  exists c0 c1 e0 e1 more,
    metrics (fold_left (tick cfg w) [Start 0; Resume 0] (st, [])).1
    = metrics st ++ record (observe w 0%nat 0%nat 0%nat) c0 e0 d
                 :: record (observe w 0%nat 0%nat 1%nat) c1 e1 d :: more.
Proof.
  intros Hb Hobs Hstatus. rewrite (first_batch cfg w st _ _ Hb).
  rewrite session_batch_eq, session_start_eq. cbn [snd metrics fs].
  destruct (staged_present w st "data/loadtest_doc_0_1kb.txt") as [c0 H0].
  { rewrite corpus_names. apply list_elem_of_here. }
  destruct (staged_present w st "data/loadtest_doc_1_5kb.txt") as [c1 H1].
  { rewrite corpus_names. apply list_elem_of_further, list_elem_of_here. }
  destruct (Hobs 0%nat) as [e0 R0], (Hobs 1%nat) as [e1 R1].
  exists c0, c1, e0, e1.
  rewrite corpus_names. cbn [app]. unfold batch_outcomes.
  rewrite !batch_tasks_cons. cbn [map].
  assert (E0 : (process_document cfg (staged w st) "data/loadtest_doc_0_1kb.txt"
                  (observe w 0%nat 0%nat 0%nat)).2
               = Ok (record (observe w 0%nat 0%nat 0%nat) c0 e0 d))
    by (apply process_document_Ok; eauto 10).
  assert (E1 : (process_document cfg (staged w st) "data/loadtest_doc_1_5kb.txt"
                  (observe w 0%nat 0%nat 1%nat)).2
               = Ok (record (observe w 0%nat 0%nat 1%nat) c1 e1 d))
    by (apply process_document_Ok; eauto 10).
  cbn [compose]. rewrite E0, E1. cbn [oks]. eauto.
Qed.

End Answered.

(** ** The generator at its bounds *)

Section GeneratorBounds.

Variable draws : Random.stream.

Lemma first_empty n : Py.first n "" = "".
Proof. now destruct n. Qed.

(** The loop is not entered when the document is long enough already. *)
Lemma fill_done target_size document pos :
  target_size <= Py.len document ->
  fill draws target_size document pos = (document, pos).
Proof.
  intros Hlen. funelim (fill draws target_size document pos); [lia | reflexivity].
Qed.

(** The length of the document for a target that is not negative. *)
Lemma create_test_document_len size_kb pos :
  0 <= size_kb -> Py.len (create_test_document draws size_kb pos).1 = size_kb * 1024.
Proof.
  intros Hsize. unfold create_test_document.
  destruct (fill_spec draws (size_kb * 1024) "" pos) as (sentences & Hfill & _ & Hlen & _).
  destruct (fill draws (size_kb * 1024) "" pos) as [document pos'].
  cbn [fst] in *. subst document. unfold Py.slice_to.
  destruct (Z.leb_spec 0 (size_kb * 1024)); [|lia].
  unfold Py.len in *. rewrite Py.length_first. lia.
Qed.

(** X1. For a target of zero or fewer kilobytes the loop is never entered:
    the generator returns the empty text and draws no random number. *)
Theorem create_test_document_nothing_to_write (size_kb : Z) (pos : nat) :
  size_kb <= 0 -> create_test_document draws size_kb pos = ("", pos).
Proof.
  intros Hsize. unfold create_test_document.
  rewrite fill_done by (unfold Py.len; simpl; lia).
  unfold Py.slice_to. destruct (0 <=? size_kb * 1024); now rewrite first_empty.
Qed.

End GeneratorBounds.

(** ** The corpus files and their sizes *)

Section CorpusSizes.

Variable w : World.

Lemma enumerate_lookup {A} (l : list A) i x :
  (i, x) ∈ enumerate l <-> l !! i = Some x.
Proof.
  unfold enumerate. rewrite elem_of_lookup_imap. split.
  - now intros (j & y & [= -> ->] & H).
  - intros H. eauto.
Qed.

Lemma sizes_positive i size : sizes !! i = Some size -> 0 < size.
Proof.
  intros H. assert (Hall : Forall (fun x => 0 < x) sizes) by (repeat constructor).
  exact (Forall_lookup_1 _ _ _ _ Hall H).
Qed.

Lemma written_sized pos entries i size :
  (i, size) ∈ entries -> 0 <= size ->
  exists content,
    (corpus_filename i size, content) ∈ written w pos entries /\
    Py.len content = size * 1024.
Proof.
  intros Hin Hsize. revert pos.
  induction entries as [|[j x] rest IH]; intros pos; [inversion Hin|].
  cbn [written].
  pose proof (create_test_document_len (draws w) x pos) as Hlen.
  destruct (create_test_document (draws w) x pos) as [content pos']. cbn [fst] in Hlen.
  apply elem_of_cons in Hin as [[= <- <-]|Hin].
  - exists content. split; [apply list_elem_of_here | now apply Hlen].
  - destruct (IH Hin pos') as (c & Hc & Hl). exists c. split; [|exact Hl].
    now apply list_elem_of_further.
Qed.

Lemma written_log pos entries :
  Forall (fun e => 0 <= e.2) entries ->
  map created (written w pos entries)
  = map (fun e => InfoCreatedTestFile (corpus_filename e.1 e.2) (e.2 * 1024)) entries.
Proof.
  intros Hall. revert pos.
  induction Hall as [|[i size] rest Hsize _ IH]; intros pos; [reflexivity|].
  cbn [written map].
  pose proof (create_test_document_len (draws w) size pos Hsize) as Hlen.
  destruct (create_test_document (draws w) size pos) as [content pos']. cbn [fst] in Hlen.
  cbn [map]. rewrite IH. unfold created. cbn [fst snd]. now rewrite Hlen.
Qed.

Lemma enumerate_sizes_positive : Forall (fun e : nat * Z => 0 <= e.2) (enumerate sizes).
Proof. repeat constructor; cbn; lia. Qed.

(** After a session has written its corpus every file has its size. *)
Lemma staged_sized st : sized (staged w st).
Proof.
  intros i size Hi.
  destruct (written_sized (rng st) (enumerate sizes) i size) as (content & Hin & Hlen).
  - now apply enumerate_lookup.
  - pose proof (sizes_positive i size Hi). lia.
  - exists content. split; [|exact Hlen].
    apply store_last; [|exact Hin]. rewrite written_names. apply corpus_NoDup.
Qed.

Lemma corpus_filename_in i size : sizes !! i = Some size -> corpus_filename i size ∈ corpus.
Proof.
  intros Hi. unfold corpus. apply list_elem_of_fmap.
  exists (i, size). split; [reflexivity | now apply enumerate_lookup].
Qed.

Lemma corpus_file p : p ∈ corpus -> exists i size, sizes !! i = Some size /\ p = corpus_filename i size.
Proof.
  unfold corpus. intros ([i size] & -> & Hin)%list_elem_of_fmap.
  exists i, size. split; [now apply enumerate_lookup | reflexivity].
Qed.

Lemma sized_readable files : sized files -> readable files.
Proof.
  intros Hs p (i & size & Hi & ->)%corpus_file.
  destruct (Hs i size Hi) as (content & -> & _). eauto.
Qed.


End CorpusSizes.

(** ** The outcomes of a request *)

Section Outcomes.

Variable cfg : Config.

(** Which exception a request ends with, if any: the checks are made in the
    order file, response, status, body, Content-Type, JSON, object. *)
Lemma process_document_Raise files file_path o e :
  (process_document cfg files file_path o).2 = Raise e <->
  match files !! file_path with
  | None => e = FileNotFoundError file_path
  | Some _ =>
      match reply o with
      | NoResponse t => e = trouble t
      | Response status json_mimetype body _ =>
          if 400 <=? status then e = ClientResponseError status
          else match body with
               | Unread t => e = trouble t
               | _ =>
                   if json_mimetype then
                     match body with
                     | Unread t => e = trouble t
                     | NotText => e = UnicodeDecodeError
                     | NotJson => e = JSONDecodeError
                     | TooManyDigits => e = ValueError
                     | TooDeep => e = RecursionError
                     | Value (JDict _) => False
                     | Value _ => e = AttributeError
                     end
                   else e = ContentTypeError status
               end
      end
  end.
Proof.
  unfold process_document, read_file.
  destruct (files !! file_path) as [content|]; cbn [snd].
  2:{ split; [now intros [= <-] | now intros ->]. }
  destruct (reply o) as [t|status json_mimetype body end_time].
  { split; [now intros [= <-] | now intros ->]. }
  unfold raise_for_status. destruct (400 <=? status); cbn [mbind result_bind Py.bind].
  { split; [now intros [= <-] | now intros ->]. }
  destruct body as [t| | | | |v], json_mimetype;
    cbn [response_json mbind result_bind Py.bind];
    try (split; [now intros [= <-] | now intros ->]).
  destruct v; cbn [mbind result_bind Py.bind];
    try (split; [now intros [= <-] | now intros ->]).
  rewrite extract_metrics_dict. split; [discriminate | contradiction].
Qed.

Lemma network_failure_trouble t : network_failure (trouble t).
Proof. now destruct t. Qed.

Lemma process_document_network_failure files file_path o e :
  is_Some (files !! file_path) ->
  (process_document cfg files file_path o).2 = Raise e -> network_failure e.
Proof.
  intros [content Hc] H%process_document_Raise. rewrite Hc in H.
  destruct (reply o) as [t|status json_mimetype body end_time];
    [subst; apply network_failure_trouble|].
  destruct (Z.leb_spec 400 status); [now subst|].
  destruct body as [t| | | | |[]], json_mimetype; subst;
    try exact I; try apply network_failure_trouble; try assumption; contradiction.
Qed.

Lemma process_document_requests files file_path o :
  (process_document cfg files file_path o).1
  = match files !! file_path with
    | Some file_content => [mkRequest (base_url cfg +:+ "/process") (basename file_path) file_content]
    | None => []
    end.
Proof. unfold process_document, read_file. now destruct (files !! file_path). Qed.

(** X3. A request fails with exactly one exception, decided in this order:
    [FileNotFoundError] when the file does not exist, and then nothing is
    sent; otherwise one upload is sent, and the request fails with what the
    client library raises when no response arrives (an error of the
    [ClientError] family, or the timeout); with [ClientResponseError] for a
    status of 400 or more, whatever the Content-Type and the body; with what
    the client library raises when the body cannot be read; with
    [ContentTypeError] for a Content-Type that is not JSON, whatever the
    body holds; with the error of the decoder for a body that is not text,
    not JSON or beyond its limits; with [AttributeError] for a JSON value
    that is not an object. An object under a JSON Content-Type and a status
    below 400 is no failure. No arithmetic error and no interrupt leaves
    [process_document] in this way. *)
Theorem process_document_failure (files : gmap string string)
    (file_path : string) (o : Observation) (e : exn) :
  ((process_document cfg files file_path o).1 = [] <-> files !! file_path = None) /\
  ((process_document cfg files file_path o).2 = Raise e <->
   match files !! file_path with
   | None => e = FileNotFoundError file_path
   | Some _ =>
       match reply o with
       | NoResponse (Broken cause) => e = ClientError cause
       | NoResponse TimedOut => e = TimeoutError
       | Response status _ _ _ =>
           if 400 <=? status then e = ClientResponseError status
           else match reply o with
                | Response _ _ (Unread (Broken cause)) _ => e = ClientError cause
                | Response _ _ (Unread TimedOut) _ => e = TimeoutError
                | Response _ false _ _ => e = ContentTypeError status
                | Response _ true NotText _ => e = UnicodeDecodeError
                | Response _ true NotJson _ => e = JSONDecodeError
                | Response _ true TooManyDigits _ => e = ValueError
                | Response _ true TooDeep _ => e = RecursionError
                | Response _ true (Value (JDict _)) _ => False
                | Response _ true (Value _) _ => e = AttributeError
                | NoResponse _ => False
                end
       end
   end) /\
  ((process_document cfg files file_path o).2 = Raise e ->
   e <> ZeroDivisionError /\ e <> TypeError /\ e <> OverflowError /\
   e <> StatisticsError /\ e <> KeyboardInterrupt).
Proof.
  split; [|split].
  - rewrite process_document_requests. destruct (files !! file_path); split; congruence.
  - rewrite process_document_Raise.
    destruct (files !! file_path); [|reflexivity].
    destruct (reply o) as [[cause|]|status json_mimetype body end_time];
      [reflexivity | reflexivity |].
    destruct (400 <=? status); [reflexivity|].
    destruct body as [[cause|]| | | | |[]], json_mimetype; reflexivity.
  - intros H%process_document_Raise.
    destruct (files !! file_path); [|subst; repeat split; discriminate].
    destruct (reply o) as [[cause|]|status json_mimetype body end_time];
      [subst; repeat split; discriminate | subst; repeat split; discriminate |].
    destruct (400 <=? status); [subst; repeat split; discriminate|].
    destruct body as [[cause|]| | | | |[]], json_mimetype; subst;
      repeat split; try discriminate; contradiction.
Qed.

End Outcomes.

(** ** Replies without the expected keys *)

Section Defaults.

Variable cfg : Config.

(** X4. The executor takes the six fields from the top level of the reply
    object as they are, without checking their type, and puts 0 where a key
    is missing. A reply without the key [successful_chunks] therefore yields
    a record that the success rate counts as not successful, and a reply
    with none of the four keys the statistics read yields a record the
    summary accepts. *)
Theorem missing_keys_default_to_zero (files : gmap string string) (file_path : string)
    (o : Observation) (file_content : string) (status : Z) (d : gmap string json)
    (end_time : Q) :
  files !! file_path = Some file_content ->
  reply o = Response status true (Value (JDict d)) end_time ->
  status < 400 ->
  exists m,
    (process_document cfg files file_path o).2 = Ok m /\
    processing_time m = default (JNum 0) (d !! "processing_time") /\
    chunking_time m = default (JNum 0) (d !! "chunking_time") /\
    total_chunks m = default (JInt 0) (d !! "total_chunks") /\
    successful_chunks m = default (JInt 0) (d !! "successful_chunks") /\
    avg_quality_score m = default (JNum 0) (d !! "avg_quality_score") /\
    avg_information_density m = default (JNum 0) (d !! "avg_information_density") /\
    (d !! "successful_chunks" = None -> has_successful_chunks m = Ok false) /\
    (d !! "processing_time" = None -> d !! "chunking_time" = None ->
     d !! "total_chunks" = None -> d !! "successful_chunks" = None ->
     numeric m /\ printable m).
Proof.
  intros Hf Hr Hs. exists (record o file_content end_time d).
  split; [apply process_document_Ok; eauto 10|].
  cbn [record processing_time chunking_time total_chunks successful_chunks
       avg_quality_score avg_information_density].
  do 6 (split; [reflexivity|]). split.
  - intros H. unfold has_successful_chunks. cbn [successful_chunks record]. now rewrite H.
  - intros H1 H2 H3 H4. unfold numeric, printable.
    cbn [processing_time chunking_time total_chunks successful_chunks record].
    rewrite H1, H2, H3, H4. repeat split.
Qed.

End Defaults.

(** ** The statistics of the summary *)

Section StatisticsFacts.

Lemma fold_min (rest : list Q) (a : Q) :
  let lo := fold_left (fun a b => if Qlt_le_dec b a then b else a) rest a in
  (lo = a \/ lo ∈ rest) /\ (lo <= a)%Q /\ Forall (fun x => (lo <= x)%Q) rest.
Proof.
  cbn zeta. revert a. induction rest as [|b rest IH]; intros a; cbn [fold_left].
  - split; [now left|]. split; [apply Qle_refl | constructor].
  - destruct (IH (if Qlt_le_dec b a then b else a)) as (Hin & Hle & Hall).
    set (lo := fold_left _ rest _) in *.
    destruct (Qlt_le_dec b a) as [Hlt|Hge].
    + split; [|split].
      * right. destruct Hin as [->|Hin]; [apply list_elem_of_here | now apply list_elem_of_further].
      * lra.
      * constructor; [exact Hle | exact Hall].
    + split; [|split].
      * destruct Hin as [->|Hin]; [now left | right; now apply list_elem_of_further].
      * exact Hle.
      * constructor; [lra | exact Hall].
Qed.

Lemma fold_max (rest : list Q) (a : Q) :
  let hi := fold_left (fun a b => if Qlt_le_dec a b then b else a) rest a in
  (hi = a \/ hi ∈ rest) /\ (a <= hi)%Q /\ Forall (fun x => (x <= hi)%Q) rest.
Proof.
  cbn zeta. revert a. induction rest as [|b rest IH]; intros a; cbn [fold_left].
  - split; [now left|]. split; [apply Qle_refl | constructor].
  - destruct (IH (if Qlt_le_dec a b then b else a)) as (Hin & Hle & Hall).
    set (hi := fold_left _ rest _) in *.
    destruct (Qlt_le_dec a b) as [Hlt|Hge].
    + split; [|split].
      * right. destruct Hin as [->|Hin]; [apply list_elem_of_here | now apply list_elem_of_further].
      * lra.
      * constructor; [exact Hle | exact Hall].
    + split; [|split].
      * destruct Hin as [->|Hin]; [now left | right; now apply list_elem_of_further].
      * exact Hle.
      * constructor; [lra | exact Hall].
Qed.

Lemma minimum_spec xs lo :
  Statistics.minimum xs = Ok lo -> lo ∈ xs /\ Forall (fun x => (lo <= x)%Q) xs.
Proof.
  destruct xs as [|x rest]; [discriminate|]. intros [= <-].
  destruct (fold_min rest x) as (Hin & Hle & Hall). split.
  - destruct Hin as [->|Hin]; [apply list_elem_of_here | now apply list_elem_of_further].
  - constructor; assumption.
Qed.

Lemma maximum_spec xs hi :
  Statistics.maximum xs = Ok hi -> hi ∈ xs /\ Forall (fun x => (x <= hi)%Q) xs.
Proof.
  destruct xs as [|x rest]; [discriminate|]. intros [= <-].
  destruct (fold_max rest x) as (Hin & Hle & Hall). split.
  - destruct Hin as [->|Hin]; [apply list_elem_of_here | now apply list_elem_of_further].
  - constructor; assumption.
Qed.

Lemma inject_length {A} (x : A) (l : list A) :
  (inject_Z (Z.of_nat (length (x :: l))) == inject_Z (Z.of_nat (length l)) + 1)%Q.
Proof.
  cbn [length]. rewrite Nat2Z.inj_succ. unfold Z.succ. now rewrite inject_Z_plus.
Qed.

Lemma total_bounds xs lo hi :
  Forall (fun x => (lo <= x)%Q) xs -> Forall (fun x => (x <= hi)%Q) xs ->
  (inject_Z (Z.of_nat (length xs)) * lo <= Statistics.total xs)%Q /\
  (Statistics.total xs <= inject_Z (Z.of_nat (length xs)) * hi)%Q.
Proof.
  induction xs as [|x xs IH]; intros Hlo Hhi.
  - change (inject_Z (Z.of_nat (length (@nil Q)))) with 0%Q.
    change (Statistics.total []) with 0%Q. split; lra.
  - apply Forall_cons in Hlo as [Hx1 Hlo]. apply Forall_cons in Hhi as [Hx2 Hhi].
    destruct (IH Hlo Hhi) as [IH1 IH2].
    rewrite inject_length. change (Statistics.total (x :: xs)) with (x + Statistics.total xs)%Q.
    split; lra.
Qed.

Lemma length_positive {A} (x : A) (l : list A) :
  (0 < inject_Z (Z.of_nat (length (x :: l))))%Q.
Proof. rewrite <- (Zlt_Qlt 0). cbn [length]. lia. Qed.

(** The average lies between the minimum and the maximum, which are values
    of the data. *)
Lemma describe_summarises xs s : Statistics.describe xs = Ok s -> summarises xs s.
Proof.
  unfold Statistics.describe. destruct xs as [|x rest]; [discriminate|].
  destruct (Statistics.minimum (x :: rest)) as [lo|] eqn:Hmin; [|discriminate].
  destruct (Statistics.maximum (x :: rest)) as [hi|] eqn:Hmax; [|discriminate].
  apply minimum_spec in Hmin as [Hlo_in Hlo]. apply maximum_spec in Hmax as [Hhi_in Hhi].
  cbn [Statistics.mean mbind result_bind Py.bind]. intros [= <-].
  destruct (total_bounds _ _ _ Hlo Hhi) as [H1 H2].
  pose proof (length_positive x rest) as Hn.
  unfold summarises. cbn [avg smallest largest].
  split; [|split; [|split; [|split]]]; try assumption.
  - apply Qle_shift_div_l; [exact Hn|].
    change (lo * inject_Z (Z.of_nat (length (x :: rest))) <= Statistics.total (x :: rest))%Q.
    lra.
  - apply Qle_shift_div_r; [exact Hn|].
    change (Statistics.total (x :: rest) <= hi * inject_Z (Z.of_nat (length (x :: rest))))%Q.
    lra.
  - apply Forall_forall. intros y Hy. rewrite Forall_forall in Hlo, Hhi. auto.
Qed.



(** The numbers of a list of values, one by one. *)
Lemma numbers_Forall2 vs xs :
  Statistics.numbers vs = Ok xs <-> Forall2 (fun v x => Statistics.number v = Ok x) vs xs.
Proof.
  revert xs; induction vs as [|v vs IH]; intros xs; cbn [Statistics.numbers].
  - split; [intros [= <-]; constructor | now inversion 1].
  - destruct (Statistics.number v) as [x|e] eqn:Hv; cbn [mbind result_bind Py.bind].
    + destruct (Statistics.numbers vs) as [ys|e] eqn:Hvs; cbn [mbind result_bind Py.bind].
      * split.
        -- intros [= <-]. constructor; [exact Hv | now apply IH].
        -- inversion 1 as [|? y ? ys' Hy Hys]; subst.
           apply IH in Hys. congruence.
      * split; [discriminate|]. inversion 1 as [|? y ? ys' Hy Hys]; subst.
        apply IH in Hys. discriminate.
    + split; [discriminate|]. inversion 1; congruence.
Qed.


Lemma number_exact v x : Statistics.number v = Ok x -> exact x = is_exact v.
Proof. destruct v; try discriminate; now intros [= <-]. Qed.

Lemma exact_finite x : exact x = true -> finite x = true.
Proof. now intros [H _]%andb_prop. Qed.

Lemma exact_round x :
  exact x = true -> (Py.round (Statistics.value x) == Statistics.value x)%Q.
Proof. intros [_ H]%andb_prop. now apply Qeq_bool_iff. Qed.


Lemma numbers_elem vs xs x :
  Statistics.numbers vs = Ok xs -> x ∈ xs -> exists v, v ∈ vs /\ Statistics.number v = Ok x.
Proof.
  intros H%numbers_Forall2 Hx. induction H as [|v y vs ys Hv _ IH]; [now inversion Hx|].
  apply elem_of_cons in Hx as [->|Hx].
  - exists v. split; [apply list_elem_of_here | exact Hv].
  - destruct (IH Hx) as (v' & Hin & Hv'). exists v'. split; [now apply list_elem_of_further | exact Hv'].
Qed.


Lemma numbers_exact vs xs :
  Statistics.numbers vs = Ok xs ->
  Forall (fun v => is_exact v = true) vs -> Forall (fun x => exact x = true) xs.
Proof.
  intros H%numbers_Forall2. induction H as [|v x vs xs Hv _ IH]; [constructor|].
  intros [Hr Hall]%Forall_cons. constructor; [|now apply IH].
  now rewrite (number_exact v x Hv).
Qed.

Lemma numbers_finite vs xs :
  Statistics.numbers vs = Ok xs ->
  Forall (fun v => is_exact v = true) vs -> Forall (fun x => finite x = true) xs.
Proof.
  intros H Hall. eapply Forall_impl; [exact (numbers_exact vs xs H Hall)|].
  intros x. apply exact_finite.
Qed.

(** A finite number is its value, and [less] is the order of the values. *)
Lemma finite_value x : finite x = true -> as_float x = FNum (Statistics.value x).
Proof.
  unfold Statistics.value. destruct x as [b|n|[q| | |]]; try discriminate; reflexivity.
Qed.

Lemma less_finite a b :
  finite a = true -> finite b = true ->
  less a b = if Qlt_le_dec (Statistics.value a) (Statistics.value b) then true else false.
Proof.
  intros Ha Hb. unfold less. now rewrite (finite_value a Ha), (finite_value b Hb).
Qed.

(** A fold that keeps one of two values at every step ends with a value of
    the list. *)
Lemma fold_select {A} (c : A -> A -> bool) (rest : list A) (x : A) :
  fold_left (fun a b => if c a b then b else a) rest x ∈ x :: rest.
Proof.
  revert x; induction rest as [|b rest IH]; intros x; cbn [fold_left].
  - apply list_elem_of_here.
  - specialize (IH (if c x b then b else x)).
    apply elem_of_cons in IH as [->|IH].
    + destruct (c x b); [apply list_elem_of_further, list_elem_of_here | apply list_elem_of_here].
    + now do 2 apply list_elem_of_further.
Qed.

Lemma min_values_elem xs lo : Statistics.min_values xs = Ok lo -> lo ∈ xs.
Proof.
  destruct xs as [|x rest]; [discriminate|]. intros [= <-].
  apply (fold_select (fun a b => less b a)).
Qed.

Lemma max_values_elem xs hi : Statistics.max_values xs = Ok hi -> hi ∈ xs.
Proof.
  destruct xs as [|x rest]; [discriminate|]. intros [= <-].
  apply (fold_select (fun a b => less a b)).
Qed.

Lemma min_values_value xs lo :
  Forall (fun x => finite x = true) xs -> Statistics.min_values xs = Ok lo ->
  Statistics.minimum (map Statistics.value xs) = Ok (Statistics.value lo).
Proof.
  destruct xs as [|x rest]; [discriminate|]. intros Hall [= <-].
  cbn [map Statistics.minimum]. f_equal.
  apply Forall_cons in Hall as [Hx Hrest]. revert x Hx.
  induction Hrest as [|b rest Hb _ IH]; intros x Hx; [reflexivity|].
  cbn [map fold_left]. rewrite (less_finite b x Hb Hx).
  destruct (Qlt_le_dec (Statistics.value b) (Statistics.value x)); now apply IH.
Qed.

Lemma max_values_value xs hi :
  Forall (fun x => finite x = true) xs -> Statistics.max_values xs = Ok hi ->
  Statistics.maximum (map Statistics.value xs) = Ok (Statistics.value hi).
Proof.
  destruct xs as [|x rest]; [discriminate|]. intros Hall [= <-].
  cbn [map Statistics.maximum]. f_equal.
  apply Forall_cons in Hall as [Hx Hrest]. revert x Hx.
  induction Hrest as [|b rest Hb _ IH]; intros x Hx; [reflexivity|].
  cbn [map fold_left]. rewrite (less_finite x b Hx Hb).
  destruct (Qlt_le_dec (Statistics.value x) (Statistics.value b)); now apply IH.
Qed.

Lemma special_finite xs :
  Forall (fun x => finite x = true) xs -> omap Statistics.special xs = [].
Proof.
  induction 1 as [|x xs Hx _ IH]; [reflexivity|]. cbn [omap].
  destruct x as [b|n|[q| | |]]; try discriminate; exact IH.
Qed.

Lemma whole_value q : Statistics.whole q = true -> (inject_Z (Qnum (Qred q)) == q)%Q.
Proof.
  unfold Statistics.whole. intros H%Pos.eqb_eq.
  rewrite <- (Qred_correct q) at 2. destruct (Qred q) as [n d]. cbn in *. now subst.
Qed.

(** The mean of finite data is their exact mean as an [int], or the
    double nearest to it as a [float]. *)
Lemma mean_values_value xs a :
  Forall (fun x => finite x = true) xs -> Statistics.mean_values xs = Ok a ->
  let q := (Statistics.total (map Statistics.value xs)
            / inject_Z (Z.of_nat (length xs)))%Q in
  finite a = true /\
  ((Statistics.value a == q)%Q \/ (Statistics.value a == Py.round q)%Q).
Proof.
  intros Hfin. unfold Statistics.mean_values. destruct xs as [|x xs]; [discriminate|].
  rewrite (special_finite _ Hfin). cbn zeta.
  destruct (forallb Statistics.is_int (x :: xs) && Statistics.whole _) eqn:E.
  - intros [= <-]. split; [reflexivity|]. left.
    apply andb_prop in E as [_ E]. apply whole_value in E. exact E.
  - destruct (overflows _); [discriminate|]. intros [= <-].
    split; [reflexivity|]. right. reflexivity.
Qed.

(** ** Numbers a double can hold *)






(** A sum that has met an infinity or NaN stays one. *)
Lemma fold_special more acc :
  special_float acc -> special_float (fold_left float_add more acc).
Proof.
  revert acc; induction more as [|y more IH]; intros acc Hacc; [exact Hacc|].
  cbn [fold_left]. apply IH. now destruct acc, y.
Qed.




(** What a statistics line over decoded values holds when it is printed. *)
Lemma describe_values_parts formatted vs s :
  Statistics.describe_values formatted vs = Ok s ->
  exists xs,
    Statistics.numbers vs = Ok xs /\
    Statistics.mean_values xs = Ok (average s) /\
    Statistics.min_values xs = Ok (least s) /\
    Statistics.max_values xs = Ok (greatest s).
Proof.
  unfold Statistics.describe_values.
  destruct (Statistics.numbers vs) as [xs|]; cbn [mbind result_bind Py.bind]; [|discriminate].
  destruct (Statistics.mean_values xs) as [a|] eqn:Ea;
    cbn [mbind result_bind Py.bind]; [|discriminate].
  destruct (Statistics.format_f a); cbn [mbind result_bind Py.bind]; [|discriminate].
  destruct (Statistics.min_values xs) as [lo|] eqn:Elo;
    cbn [mbind result_bind Py.bind]; [|discriminate].
  destruct (if formatted then Statistics.format_f lo else Ok tt);
    cbn [mbind result_bind Py.bind]; [|discriminate].
  destruct (Statistics.max_values xs) as [hi|] eqn:Ehi;
    cbn [mbind result_bind Py.bind]; [|discriminate].
  destruct (if formatted then Statistics.format_f hi else Ok tt);
    cbn [mbind result_bind Py.bind]; [|discriminate].
  intros [= <-]. exists xs. auto.
Qed.




(** The order of the numbers, with NaN beside it. *)
Lemma less_trans a b c : less a b = true -> less b c = true -> less a c = true.
Proof.
  unfold less. destruct (as_float a) as [x| | |], (as_float b) as [y| | |],
    (as_float c) as [z| | |]; cbn; try discriminate; try reflexivity.
  destruct (Qlt_le_dec x y), (Qlt_le_dec y z), (Qlt_le_dec x z);
    try discriminate; try reflexivity. lra.
Qed.

Lemma less_irrefl a : less a a = false.
Proof.
  unfold less. destruct (as_float a) as [x| | |]; cbn; try reflexivity.
  destruct (Qlt_le_dec x x) as [H|_]; [|reflexivity]. destruct (Qlt_irrefl x H).
Qed.

(** A fold that replaces what it holds by every value below it ends with a
    value that none of the list is below. *)
Lemma fold_extreme {A} (below : A -> A -> bool) (rest : list A) (a : A) :
  (forall x y z, below x y = true -> below y z = true -> below x z = true) ->
  (forall x, below x x = false) ->
  let r := fold_left (fun a b => if below b a then b else a) rest a in
  (r = a \/ below r a = true) /\ Forall (fun x => below x r = false) (a :: rest).
Proof.
  intros Htrans Hirrefl. cbn zeta.
  assert (Hasym : forall x y, below x y = true -> below y x = false).
  { intros x y Hxy. destruct (below y x) eqn:Hyx; [|reflexivity].
    pose proof (Htrans x y x Hxy Hyx) as H. now rewrite Hirrefl in H. }
  revert a. induction rest as [|b rest IH]; intros a; cbn [fold_left].
  - split; [now left|]. constructor; [apply Hirrefl | constructor].
  - destruct (IH (if below b a then b else a)) as [Hr Hall].
    set (r := fold_left _ rest _) in *.
    apply Forall_cons in Hall as [Hacc Hall].
    destruct (below b a) eqn:Hba.
    + assert (Hra : below r a = true).
      { destruct Hr as [->|Hr]; [exact Hba | exact (Htrans _ _ _ Hr Hba)]. }
      split; [now right|].
      constructor; [now apply Hasym|]. constructor; assumption.
    + split; [exact Hr|]. constructor; [exact Hacc|]. constructor; [|exact Hall].
      destruct Hr as [->|Hr]; [exact Hba|].
      destruct (below b r) eqn:Hbr; [|reflexivity].
      pose proof (Htrans _ _ _ Hbr Hr). congruence.
Qed.

Lemma min_values_least xs lo :
  Statistics.min_values xs = Ok lo -> Forall (fun x => less x lo = false) xs.
Proof.
  destruct xs as [|x rest]; [discriminate|]. intros [= <-].
  apply (fold_extreme less rest x less_trans less_irrefl).
Qed.

Lemma max_values_greatest xs hi :
  Statistics.max_values xs = Ok hi -> Forall (fun x => less hi x = false) xs.
Proof.
  destruct xs as [|x rest]; [discriminate|]. intros [= <-].
  apply (fold_extreme (fun a b => less b a) rest x).
  - intros a b c Hab Hbc. exact (less_trans c b a Hbc Hab).
  - apply less_irrefl.
Qed.

(** The minimum and the maximum of a statistics line are values of the
    data that none of the data is below or above; over data that doubles
    hold exactly they bound the average. *)
Lemma describe_values_summarises formatted vs s :
  Statistics.describe_values formatted vs = Ok s -> summarises_values vs s.
Proof.
  intros (xs & Hxs & Ha & Hlo & Hhi)%describe_values_parts.
  split; [|split; [|split]].
  - eapply numbers_elem; [exact Hxs | now apply min_values_elem].
  - eapply numbers_elem; [exact Hxs | now apply max_values_elem].
  - apply min_values_least in Hlo. apply max_values_greatest in Hhi.
    apply numbers_Forall2 in Hxs. rewrite Forall_forall in Hlo, Hhi.
    apply Forall_forall. intros v Hv x Hx.
    assert (Hin : x ∈ xs).
    { clear -Hxs Hv Hx. induction Hxs as [|v' y vs xs Hy _ IH]; [now inversion Hv|].
      apply elem_of_cons in Hv as [->|Hv].
      - assert (x = y) by congruence. subst. apply list_elem_of_here.
      - apply list_elem_of_further. now apply IH. }
    split; [now apply Hlo | now apply Hhi].
  - intros Hexact%(numbers_exact vs xs Hxs).
    assert (Hfin : Forall (fun x => finite x = true) xs).
    { eapply Forall_impl; [exact Hexact|]. intros x. apply exact_finite. }
    assert (Hn : (0 < inject_Z (Z.of_nat (length xs)))%Q).
    { rewrite <- (Zlt_Qlt 0). destruct xs; [discriminate Ha | cbn [length]; lia]. }
    assert (Elo : (Py.round (Statistics.value (least s)) == Statistics.value (least s))%Q).
    { apply exact_round. rewrite Forall_forall in Hexact. now apply Hexact, min_values_elem. }
    assert (Ehi : (Py.round (Statistics.value (greatest s)) == Statistics.value (greatest s))%Q).
    { apply exact_round. rewrite Forall_forall in Hexact. now apply Hexact, max_values_elem. }
    apply (mean_values_value xs _ Hfin) in Ha as [_ Ha]. cbn zeta in Ha.
    apply (min_values_value xs _ Hfin) in Hlo.
    apply (max_values_value xs _ Hfin) in Hhi.
    apply minimum_spec in Hlo as [_ Hlo]. apply maximum_spec in Hhi as [_ Hhi].
    destruct (total_bounds _ _ _ Hlo Hhi) as [H1 H2].
    rewrite length_map in H1, H2.
    set (q := (Statistics.total (map Statistics.value xs)
               / inject_Z (Z.of_nat (length xs)))%Q) in *.
    assert (Hq1 : (Statistics.value (least s) <= q)%Q).
    { apply Qle_shift_div_l; [exact Hn|]. lra. }
    assert (Hq2 : (q <= Statistics.value (greatest s))%Q).
    { apply Qle_shift_div_r; [exact Hn|]. lra. }
    destruct Ha as [Ha|Ha]; rewrite Ha; [split; assumption|].
    now apply round_between.
Qed.

(** The records with [successful_chunks > 0] are some of the records. *)
Lemma count_successful_bounds ms n :
  count_successful ms = Ok n -> 0 <= n <= Z.of_nat (length ms).
Proof.
  revert n; induction ms as [|m ms IH]; intros n; cbn [count_successful].
  - intros [= <-]. cbn. lia.
  - destruct (has_successful_chunks m) as [b|]; cbn; [|discriminate].
    destruct (count_successful ms) as [k|]; cbn; [|discriminate].
    specialize (IH k eq_refl). intros [= <-]. cbn [length]. destruct b; lia.
Qed.


Lemma success_rate_bounds n len ratio :
  0 <= n <= len -> 0 < len ->
  Py.truediv (inject_Z n) (inject_Z len) = Ok ratio ->
  (0 <= ratio * 100)%Q /\ (ratio * 100 <= 100)%Q.
Proof.
  intros Hn Hlen. unfold Py.truediv. destruct (Qeq_bool _ _); [discriminate|].
  intros [= <-].
  assert (H0 : (0 < inject_Z len)%Q) by (rewrite <- (Zlt_Qlt 0); lia).
  assert (H1 : (0 <= inject_Z n)%Q) by (rewrite <- (Zle_Qle 0); lia).
  assert (H2 : (inject_Z n <= inject_Z len)%Q) by (rewrite <- Zle_Qle; lia).
  assert (Hlo : (0 <= inject_Z n / inject_Z len)%Q)
    by (apply Qle_shift_div_l; [exact H0 | lra]).
  assert (Hhi : (inject_Z n / inject_Z len <= 1)%Q)
    by (apply Qle_shift_div_r; [exact H0 | lra]).
  split; lra.
Qed.


End StatisticsFacts.

(** ** The summary *)

Section Summary.

Variable cfg : Config.
Variable w : World.

Lemma bind_eval {A B} (r : Py.result A) (k : A -> Run B) st :
  (eval r ≫= k) st = match r with Ok a => k a st | Raise e => (Raise e, st) end.
Proof. now destruct r. Qed.

Lemma keeps_bind_eval {A B} (P : State -> Prop) (r : Py.result A) (k : A -> Run B) :
  (forall a, r = Ok a -> keeps P (k a)) -> keeps P (eval r ≫= k).
Proof. intros H st HP. rewrite bind_eval. destruct r; [now apply H | exact HP]. Qed.

Lemma keeps_bind_modify {B} (P : State -> Prop) (f : State -> State) (k : unit -> Run B) :
  (forall st, P st -> P (f st)) -> keeps P (k tt) -> keeps P (modify f ≫= k).
Proof. intros Hf Hk st HP. rewrite bind_modify. apply Hk, Hf, HP. Qed.

Lemma yields_bind_eval {A B} (P : Py.result B -> Prop) (r : Py.result A) (k : A -> Run B) :
  (forall e, r = Raise e -> P (Raise e)) ->
  (forall a, r = Ok a -> yields P (k a)) -> yields P (eval r ≫= k).
Proof.
  intros He Hk st. rewrite bind_eval. destruct r as [a|e]; [now apply Hk | now apply He].
Qed.

Lemma yields_bind_modify {B} (P : Py.result B -> Prop) (f : State -> State) (k : unit -> Run B) :
  yields P (k tt) -> yields P (modify f ≫= k).
Proof. intros H st. rewrite bind_modify. apply H. Qed.

Lemma failure_bind_eval {A B} (P : State -> Prop) (r : Py.result A) (k : A -> Run B) :
  (forall a, r = Ok a -> keeps_on_failure P (k a)) -> keeps_on_failure P (eval r ≫= k).
Proof.
  intros H st HP e. rewrite bind_eval. destruct r as [a|e']; [now apply H | now intros _].
Qed.

Lemma failure_bind_modify {B} (P : State -> Prop) (f : State -> State) (k : unit -> Run B) :
  (forall st, P st -> P (f st)) -> keeps_on_failure P (k tt) ->
  keeps_on_failure P (modify f ≫= k).
Proof. intros Hf Hk st HP e. rewrite bind_modify. apply Hk, Hf, HP. Qed.

Lemma printing_first l st : printing l st = shown [l] st.
Proof. reflexivity. Qed.

Lemma printing_shown l lines st : printing l (shown lines st) = shown (lines ++ [l]) st.
Proof. unfold printing, shown. cbn. now rewrite <- app_assoc. Qed.

Lemma export_shown lines st :
  export_results_to_csv w (shown lines st)
  = mkState (metrics st)
      (<[results_filename w := csv_text w fieldnames (map csv_row (metrics st))]> (fs st))
      ({["data"]} ∪ dirs st) (rng st) (log st)
      (stdout st ++ lines ++ [ResultsExported (results_filename w)]) (sent st).
Proof.
  unfold export_results_to_csv, shown, printing, write_file, makedirs, with_fs, with_dirs.
  cbn. now rewrite <- app_assoc.
Qed.












(** The statistics of a summary that runs to its end. *)
Lemma print_results_steps elapsed st :
  metrics st <> [] -> (print_results cfg w elapsed st).1 = Ok tt ->
  exists t p c u n s k rate,
    Statistics.describe (map total_time (metrics st)) = Ok t /\
    Statistics.describe_values true (map processing_time (metrics st)) = Ok p /\
    Statistics.describe_values true (map chunking_time (metrics st)) = Ok c /\
    Statistics.describe (map throughput_per_second (metrics st)) = Ok u /\
    Statistics.describe_values false (map total_chunks (metrics st)) = Ok n /\
    Statistics.describe_values false (map successful_chunks (metrics st)) = Ok s /\
    count_successful (metrics st) = Ok k /\
    Py.truediv (inject_Z k) (inject_Z (Z.of_nat (length (metrics st)))) = Ok rate.
Proof.
  intros Hne. unfold print_results. destruct (metrics st) as [|m ms]; [congruence|].
  clear Hne. generalize (m :: ms). intros l. unfold print.
  match goal with |- _ -> ?G => set (P := fun r : Py.result unit => r = Ok tt -> G) end.
  assert (K : forall r : Run unit, yields P r -> P (r st).1) by (intros r Hr; apply Hr).
  apply K.
  repeat first
    [ apply yields_bind_modify
    | apply yields_bind_eval; [intros ? ? ?; discriminate | intros ? ?] ].
  intros st' _. eauto 20.
Qed.

(** The state a complete summary leaves. *)
Lemma print_results_complete elapsed st :
  metrics st <> [] -> (print_results cfg w elapsed st).1 = Ok tt ->
  exists t p c u n s k rate,
    Statistics.describe (map total_time (metrics st)) = Ok t /\
    Statistics.describe_values true (map processing_time (metrics st)) = Ok p /\
    Statistics.describe_values true (map chunking_time (metrics st)) = Ok c /\
    Statistics.describe (map throughput_per_second (metrics st)) = Ok u /\
    Statistics.describe_values false (map total_chunks (metrics st)) = Ok n /\
    Statistics.describe_values false (map successful_chunks (metrics st)) = Ok s /\
    count_successful (metrics st) = Ok k /\
    Py.truediv (inject_Z k) (inject_Z (Z.of_nat (length (metrics st)))) = Ok rate /\
    print_results cfg w elapsed st
    = (Ok tt,
       mkState (metrics st)
         (<[results_filename w := csv_text w fieldnames (map csv_row (metrics st))]> (fs st))
         ({["data"]} ∪ dirs st) (rng st) (log st)
         (stdout st ++ report cfg w elapsed (length (metrics st)) t p c u n s (rate * 100)%Q)
         (sent st)).
Proof.
  intros Hne Hok.
  destruct (print_results_steps elapsed st Hne Hok)
    as (t & p & c & u & n & s & k & rate & Ht & Hp & Hc & Hu & Hn & Hs & Hk & Hrate).
  exists t, p, c, u, n, s, k, rate. do 8 (split; [assumption|]).
  clear Hok. unfold print_results. destruct (metrics st) as [|m ms] eqn:E; [congruence|].
  rewrite <- E in *. unfold print.
  rewrite !bind_modify, (bind_eval_Ok _ t _ _ Ht).
  rewrite !bind_modify, (bind_eval_Ok _ p _ _ Hp).
  rewrite !bind_modify, (bind_eval_Ok _ c _ _ Hc).
  rewrite !bind_modify, (bind_eval_Ok _ u _ _ Hu).
  rewrite !bind_modify, (bind_eval_Ok _ n _ _ Hn).
  rewrite !bind_modify, (bind_eval_Ok _ s _ _ Hs).
  rewrite bind_modify, (bind_eval_Ok _ k _ _ Hk), (bind_eval_Ok _ rate _ _ Hrate), bind_modify.
  rewrite (printing_first Rule st), !printing_shown. cbn [app].
  unfold modify. rewrite export_shown. reflexivity.
Qed.

(** X6. When there are records and the summary runs to its end, it has
    printed its nineteen lines in order (the header, the counts and the
    duration, the six statistics lines, the success rate as a percentage,
    the line on the export), created [data/] and written the results file
    with the header and one row per record; it has changed neither the
    records nor the log nor any other file. *)
Theorem summary_reports_and_exports (elapsed : Q) (st : State) :
  metrics st <> [] -> (print_results cfg w elapsed st).1 = Ok tt ->
  let st' := (print_results cfg w elapsed st).2 in
  exists t p c u n s k rate,
    Statistics.describe (map total_time (metrics st)) = Ok t /\
    Statistics.describe_values true (map processing_time (metrics st)) = Ok p /\
    Statistics.describe_values true (map chunking_time (metrics st)) = Ok c /\
    Statistics.describe (map throughput_per_second (metrics st)) = Ok u /\
    Statistics.describe_values false (map total_chunks (metrics st)) = Ok n /\
    Statistics.describe_values false (map successful_chunks (metrics st)) = Ok s /\
    count_successful (metrics st) = Ok k /\
    Py.truediv (inject_Z k) (inject_Z (Z.of_nat (length (metrics st)))) = Ok rate /\
    stdout st' = stdout st ++ report cfg w elapsed (length (metrics st)) t p c u n s (rate * 100)%Q /\
    fs st' = <[results_filename w := csv_text w fieldnames (map csv_row (metrics st))]> (fs st) /\
    (forall path, path <> results_filename w -> fs st' !! path = fs st !! path) /\
    length (map csv_row (metrics st)) = length (metrics st) /\
    Forall (fun row => length row = length fieldnames) (map csv_row (metrics st)) /\
    dirs st' = {["data"]} ∪ dirs st /\
    metrics st' = metrics st /\ log st' = log st /\ sent st' = sent st.
Proof.
  intros Hne Hok. cbn zeta.
  destruct (print_results_complete elapsed st Hne Hok)
    as (t & p & c & u & n & s & k & rate & Ht & Hp & Hc & Hu & Hn & Hs & Hk & Hrate & ->).
  exists t, p, c, u, n, s, k, rate. do 8 (split; [assumption|]).
  cbn [fst snd stdout fs dirs metrics log sent].
  split; [reflexivity|]. split; [reflexivity|].
  split; [intros path Hpath; apply lookup_insert_ne; congruence|].
  split; [apply length_map|]. split.
  { apply Forall_fmap, Forall_forall. intros m _. reflexivity. }
  split; [reflexivity|]. auto.
Qed.

(** A summary that stops leaves the files and the directories alone. *)
Lemma summary_failure_fs elapsed st e :
  (print_results cfg w elapsed st).1 = Raise e ->
  fs (print_results cfg w elapsed st).2 = fs st /\
  dirs (print_results cfg w elapsed st).2 = dirs st.
Proof.
  unfold print_results. destruct (metrics st) as [|m ms]; [discriminate|].
  generalize (m :: ms). intros l. unfold print.
  set (P := fun st' : State => fs st' = fs st /\ dirs st' = dirs st).
  match goal with
  | |- (?r st).1 = _ -> _ => assert (Hr : keeps_on_failure P r)
  end.
  { repeat first
      [ apply failure_bind_modify; [intros ? ?; assumption|]
      | apply failure_bind_eval; intros ? ? ].
    intros st' _ e' [=]. }
  intros He. apply (Hr st (conj eq_refl eq_refl) e He).
Qed.


(** X8. Whatever the records hold (numbers of any size, infinities, NaN,
    values that are no numbers), every line the summary prints, whether it
    runs to its end or stops, makes sense for the records. On the lines of
    the total time and of the throughput the average lies between the
    minimum and the maximum. On each of the four lines over values taken
    from the replies, the minimum and the maximum are values of that field
    in some record, and no value of the field compares less than the
    minimum or greater than the maximum; when all the values of the field
    are numbers that doubles hold exactly (finite floats, booleans,
    integers up to [2**53] in magnitude), the average lies between the two.
    With NaN, an infinity or a larger integer among the values nothing is
    said of the average. The success rate is a percentage between 0 and
    100. *)
Theorem summary_lines_are_sane (elapsed : Q) (st : State) :
  exists lines,
    stdout (print_results cfg w elapsed st).2 = stdout st ++ lines /\
    Forall (sane (metrics st)) lines.
Proof.
  unfold print_results. destruct (metrics st) as [|m ms].
  { exists []. now rewrite app_nil_r. }
  assert (Hne : m :: ms <> []) by discriminate. revert Hne. generalize (m :: ms).
  intros l Hne. unfold print.
  set (P := fun st' : State =>
         exists lines, stdout st' = stdout st ++ lines /\ Forall (sane l) lines).
  assert (Hp : forall x, sane l x -> forall st', P st' -> P (printing x st')).
  { intros x Hx st' (lines & H1 & H2). exists (lines ++ [x]). cbn [stdout printing].
    rewrite H1, app_assoc. split; [reflexivity|].
    apply Forall_app. split; [exact H2 | now constructor]. }
  assert (Hd : forall label xs s, Statistics.describe xs = Ok s -> sane l (StatsLine label s)).
  { intros label xs s (H1 & H2 & _)%describe_summarises. now split. }
  assert (Hv : forall label field formatted s,
            reported_field label = Some field ->
            Statistics.describe_values formatted (map field l) = Ok s ->
            sane l (ValuesLine label s)).
  { intros label field formatted s Hf Hs. exists field. split; [exact Hf|].
    eapply describe_values_summarises, Hs. }
  apply (keeps_at P); [|exists []; now rewrite app_nil_r].
  repeat first
    [ apply keeps_bind_modify;
        [apply Hp; first [exact I | eapply Hd; eassumption
                         | eapply Hv; [reflexivity | eassumption]]|]
    | apply keeps_bind_eval; intros ? ? ].
  - apply keeps_bind_modify.
    + apply Hp. cbn [sane].
      match goal with
      | Hk : count_successful l = Ok ?k, Hr : Py.truediv _ _ = Ok ?r |- _ =>
          apply (success_rate_bounds k (Z.of_nat (length l)) r); [| |exact Hr]
      end.
      * now apply count_successful_bounds.
      * destruct l; [congruence | cbn [length]; lia].
    + intros st' (lines & Hout & Hsane).
      exists (lines ++ [ResultsExported (results_filename w)]).
      unfold modify, export_results_to_csv. cbn [snd stdout printing].
      cbn [makedirs write_file with_dirs with_fs stdout].
      rewrite Hout, app_assoc. split; [reflexivity|].
      apply Forall_app. split; [exact Hsane | now repeat constructor].
Qed.

End Summary.

(** ** The results file *)

Section ResultsFile.




End ResultsFile.

(** ** The progress of the event loop *)

Section Progress.

Variable cfg : Config.
Variable w : World.

Lemma corpus_length : length corpus = 5%nat.
Proof. now rewrite corpus_names. Qed.

Lemma basename_corpus_filename i size :
  sizes !! i = Some size ->
  basename (corpus_filename i size)
  = "loadtest_doc_" +:+ Py.str (Z.of_nat i) +:+ "_" +:+ Py.str size +:+ "kb.txt".
Proof.
  destruct i as [|[|[|[|[|i]]]]]; cbn; intros [= <-]; vm_compute; reflexivity.
Qed.

Lemma batch_requests_sized files obs file_paths :
  sized files -> Forall (fun p => p ∈ corpus) file_paths ->
  Forall (sized_upload cfg) (batch_requests cfg files obs file_paths).
Proof.
  intros Hs Hall. revert obs; induction Hall as [|p ps Hp _ IH]; intros obs; [constructor|].
  unfold batch_requests in *. rewrite batch_tasks_cons. cbn [map concat].
  apply Forall_app. split; [|apply IH].
  rewrite process_document_requests.
  apply corpus_file in Hp as (i & size & Hi & ->).
  destruct (Hs i size Hi) as (content & -> & Hlen).
  constructor; [|constructor]. exists i, size. cbn [url filename payload].
  split; [exact Hi|]. split; [reflexivity|]. split; [|exact Hlen].
  now apply basename_corpus_filename.
Qed.

Lemma batch_errs_network files obs file_paths :
  Forall (fun p => is_Some (files !! p)) file_paths ->
  Forall network_failure (errs (batch_outcomes cfg files obs file_paths)).
Proof.
  intros Hall. revert obs; induction Hall as [|p ps Hp _ IH]; intros obs; [constructor|].
  unfold batch_outcomes in *. rewrite batch_tasks_cons. cbn [map].
  destruct (process_document cfg files p (obs 0%nat)).2 as [m|e] eqn:E; cbn [errs].
  - apply IH.
  - constructor; [|apply IH]. eapply process_document_network_failure; eassumption.
Qed.

Lemma processing_failures_failed es :
  processing_failures (map ErrorProcessingFailed es) = es.
Proof.
  induction es as [|e es IH]; [reflexivity|].
  change (e :: processing_failures (map ErrorProcessingFailed es) = e :: es).
  now rewrite IH.
Qed.

Lemma processing_failures_created l : processing_failures (map created l) = [].
Proof. induction l as [|x l IH]; [reflexivity|]. exact IH. Qed.

Lemma remaining_app tasks t :
  remaining (tasks ++ [t]) = (remaining tasks + length (pending t))%nat.
Proof.
  unfold remaining. induction tasks as [|x tasks IH]; cbn in *; [lia|]. rewrite IH. lia.
Qed.

Lemma remaining_insert tasks s t t' :
  tasks !! s = Some t ->
  (remaining (<[s := t']> tasks) + length (pending t)
   = remaining tasks + length (pending t'))%nat.
Proof.
  unfold remaining. revert s; induction tasks as [|x tasks IH]; intros s Hs; [discriminate|].
  destruct s as [|s].
  - injection Hs as ->. cbn. lia.
  - change (<[S s := t']> (x :: tasks)) with (x :: <[s := t']> tasks).
    cbn [map sum_list]. specialize (IH s Hs). lia.
Qed.

Lemma created_logged pos :
  Forall (logged_by cfg) (map created (written w pos (enumerate sizes))).
Proof.
  rewrite written_log by apply enumerate_sizes_positive.
  apply Forall_fmap, Forall_forall. intros [i size] Hin%enumerate_lookup.
  cbn. eauto.
Qed.

Lemma failures_logged es :
  Forall network_failure es -> Forall (logged_by cfg) (map ErrorProcessingFailed es).
Proof. intros H. apply Forall_fmap. eapply Forall_impl; [exact H|]. auto. Qed.

Lemma corpus_twice_readable files :
  sized files -> Forall (fun p => is_Some (files !! p)) (corpus ++ corpus).
Proof.
  intros Hs%sized_readable. apply Forall_forall. intros p Hp. apply Hs.
  apply elem_of_app in Hp. tauto.
Qed.

(** One tick keeps the account. *)
Lemma tick_progress st0 loop t :
  progress cfg st0 loop -> progress cfg st0 (tick cfg w loop t).
Proof.
  destruct loop as [st tasks].
  intros Hloop.
  pose proof Hloop as (Hok & Hsized & issued & outcomes & recs
          & Hsent & Hup & Hmet & Hlog & Hrecs & Hfail & Hlen & Hcount).
  cbn [fst snd] in Hok, Hsized, Hsent, Hup, Hmet, Hlog, Hrecs, Hfail, Hlen, Hcount.
  destruct t as [s|s]; cbn [tick].
  - rewrite session_start_eq. cbn [fst snd]. split; [|split].
    + apply Forall_app. split; [exact Hok|]. constructor; [|constructor].
      apply make_batches_ok.
    + right. apply staged_sized.
    + exists issued, outcomes, (recs ++ map created (written w (rng st) (enumerate sizes))).
      cbn [fst snd sent metrics log]. split; [exact Hsent|]. split; [exact Hup|].
      split; [exact Hmet|]. split; [now rewrite Hlog, app_assoc|]. split.
      { apply Forall_app. split; [exact Hrecs | apply created_logged]. }
      split.
      { unfold processing_failures in *. rewrite omap_app, Hfail.
        fold (processing_failures (map created (written w (rng st) (enumerate sizes)))).
        now rewrite processing_failures_created, app_nil_r. }
      split; [exact Hlen|].
      rewrite remaining_app, length_app. cbn [pending length].
      unfold make_batches. rewrite length_replicate. lia.
  - destruct (tasks !! s) as [[b [|batch_files rest]]|] eqn:Hs;
      [exact Hloop | | exact Hloop].
    pose proof (Forall_lookup_1 _ _ _ _ Hok Hs) as Hp. cbn [pending] in Hp.
    apply Forall_cons in Hp as [-> Hrest].
    destruct Hsized as [->|Hsized]; [discriminate|].
    rewrite session_batch_eq. cbn [fst snd]. split; [|split].
    + apply Forall_insert; [exact Hok | exact Hrest].
    + right. exact Hsized.
    + exists (issued ++ batch_requests cfg (fs st) (observe w s b) (corpus ++ corpus)),
             (outcomes ++ batch_outcomes cfg (fs st) (observe w s b) (corpus ++ corpus)),
             (recs ++ map ErrorProcessingFailed
                        (errs (batch_outcomes cfg (fs st) (observe w s b) (corpus ++ corpus)))).
      cbn [fst snd sent metrics log].
      split; [now rewrite Hsent, app_assoc|]. split.
      { apply Forall_app. split; [exact Hup|].
        apply batch_requests_sized; [exact Hsized | apply corpus_twice]. }
      split; [now rewrite Hmet, oks_app, app_assoc|].
      split; [now rewrite Hlog, app_assoc|]. split.
      { apply Forall_app. split; [exact Hrecs|].
        apply failures_logged, batch_errs_network, corpus_twice_readable, Hsized. }
      split.
      { unfold processing_failures in *. rewrite omap_app, Hfail, errs_app. f_equal.
        apply processing_failures_failed. }
      split.
      { rewrite !length_app, batch_outcomes_length, batch_requests_length, Hlen;
          [reflexivity | now apply corpus_twice_readable]. }
      rewrite length_app, batch_requests_length by now apply corpus_twice_readable.
      rewrite length_insert, length_app, corpus_length.
      pose proof (remaining_insert tasks s _ (mkTask (S b) rest) Hs) as Hrem.
      cbn [pending length] in Hrem. lia.
Qed.

Lemma ticks_progress st0 ticks loop :
  progress cfg st0 loop -> progress cfg st0 (fold_left (tick cfg w) ticks loop).
Proof.
  revert loop; induction ticks as [|t ticks IH]; intros loop H; [exact H|].
  cbn [fold_left]. apply IH, tick_progress, H.
Qed.

(** A property that the start of a session keeps, and that a batch keeps
    when the corpus is in place, holds wherever the event loop stops. *)
Lemma ticks_established (P : State -> Prop) st0 :
  (forall st, P st -> P (session_start cfg w st).2) ->
  (forall st s b, sized (fs st) -> P st ->
     P (session_batch cfg (observe w s b) (corpus ++ corpus) st).2) ->
  forall ticks loop, progress cfg st0 loop -> P loop.1 ->
    P (fold_left (tick cfg w) ticks loop).1.
Proof.
  intros Hstart Hbatch ticks.
  induction ticks as [|t ticks IH]; intros loop Hloop HP; [exact HP|].
  cbn [fold_left]. apply IH; [now apply tick_progress|].
  destruct loop as [st tasks]. destruct Hloop as (Hok & Hsized & _).
  cbn [fst snd] in *. destruct t as [s|s]; cbn [tick].
  - specialize (Hstart st HP). now destruct (session_start cfg w st).
  - destruct (tasks !! s) as [[b [|batch_files rest]]|] eqn:Hs; try exact HP.
    pose proof (Forall_lookup_1 _ _ _ _ Hok Hs) as Hp. cbn [pending] in Hp.
    apply Forall_cons in Hp as [-> _].
    destruct Hsized as [->|Hsized]; [discriminate|].
    specialize (Hbatch st s b Hsized HP). rewrite session_batch_eq in *. exact Hbatch.
Qed.

Lemma progress_start st : progress cfg st (st, []).
Proof.
  split; [constructor|]. split; [now left|]. exists [], [], [].
  cbn. rewrite !app_nil_r. repeat split; try constructor. lia.
Qed.

End Progress.

(** ** The schedule *)

Section Schedule.

Variable cfg : Config.
Variable w : World.

Lemma tick_tasks st tasks t : (tick cfg w (st, tasks) t).2 = schedule_step cfg tasks t.
Proof.
  destruct t as [s|s]; cbn [tick schedule_step].
  - now rewrite session_start_eq.
  - unfold advance. now destruct (tasks !! s) as [[b [|batch_files rest]]|].
Qed.

Lemma ticks_tasks ticks st tasks :
  (fold_left (tick cfg w) ticks (st, tasks)).2 = fold_left (schedule_step cfg) ticks tasks.
Proof.
  revert st tasks; induction ticks as [|t ticks IH]; intros st tasks; [reflexivity|].
  cbn [fold_left]. pose proof (tick_tasks st tasks t) as Ht.
  destruct (tick cfg w (st, tasks) t) as [st1 tasks1]. cbn [snd] in Ht. subst tasks1.
  apply IH.
Qed.

Lemma advance_length tasks s : length (advance tasks s) = length tasks.
Proof.
  unfold advance. destruct (tasks !! s) as [[b [|batch_files rest]]|]; try reflexivity.
  apply length_insert.
Qed.

Lemma starts_tasks (l : list nat) tasks :
  fold_left (schedule_step cfg) (map Start l) tasks
  = tasks ++ replicate (length l) (mkTask 0 (make_batches cfg corpus)).
Proof.
  revert tasks; induction l as [|s l IH]; intros tasks; cbn [map fold_left length replicate].
  - now rewrite app_nil_r.
  - rewrite IH. cbn [schedule_step]. now rewrite <- app_assoc.
Qed.

Lemma resumes_length ticks tasks :
  Forall is_resume ticks -> length (fold_left (schedule_step cfg) ticks tasks) = length tasks.
Proof.
  intros Hall. revert tasks; induction Hall as [|[s|s] ticks Ht _ IH]; intros tasks;
    [reflexivity | destruct Ht |].
  cbn [fold_left schedule_step]. now rewrite IH, advance_length.
Qed.

(** The tasks of a run never outnumber the sessions asked for. *)
Lemma plan_tasks_length k :
  (length (fold_left (schedule_step cfg) (take k (plan cfg w)) [])
   <= Z.to_nat (num_concurrent cfg))%nat.
Proof.
  rewrite plan_phases, take_app, fold_left_app. unfold starts.
  rewrite firstn_map, starts_tasks, resumes_length by apply Forall_take, resumes_are_resumes.
  cbn [app]. rewrite length_replicate, length_take. unfold range. rewrite length_seq. lia.
Qed.












End Schedule.

(** ** Whole runs, however they end *)

Section Runs.

Variable cfg : Config.
Variable w : World.

Lemma gather_sessions_interrupted st :
  (gather_sessions cfg w st).1 = Raise KeyboardInterrupt <-> interrupts cfg w.
Proof.
  unfold gather_sessions, interrupts. destruct (sigint w) as [k|].
  - destruct (Nat.ltb_spec k (length (plan cfg w))); cbn [fst]; split.
    + eauto.
    + reflexivity.
    + discriminate.
    + intros (k' & [= <-] & Hk). lia.
  - split; [discriminate | now intros (k & [=] & _)].
Qed.

Lemma gather_sessions_completed st :
  ~ interrupts cfg w ->
  gather_sessions cfg w st = (Ok tt, (fold_left (tick cfg w) (plan cfg w) (st, [])).1).
Proof.
  intros Hno. unfold gather_sessions. destruct (sigint w) as [k|] eqn:Hk; [|reflexivity].
  destruct (Nat.ltb_spec k (length (plan cfg w))); [|reflexivity].
  destruct Hno. exists k. auto.
Qed.

Lemma print_results_log_cases elapsed st :
  log (print_results cfg w elapsed st).2 = log st \/
  log (print_results cfg w elapsed st).2 = log st ++ [ErrorNoMetrics].
Proof.
  destruct (metrics st) as [|m ms] eqn:E.
  - right. now rewrite print_results_empty.
  - left. apply print_results_log. congruence.
Qed.

(** The run is a prefix of the plan, the whole of it unless SIGINT arrives,
    followed by at most one more record in the log. *)
Lemma main_state st :
  exists k tail,
    (interrupts cfg w \/ take k (plan cfg w) = plan cfg w) /\
    closing tail /\
    sent (main cfg w st).2
    = sent (fold_left (tick cfg w) (take k (plan cfg w)) (announced cfg st, [])).1 /\
    metrics (main cfg w st).2
    = metrics (fold_left (tick cfg w) (take k (plan cfg w)) (announced cfg st, [])).1 /\
    log (main cfg w st).2
    = log (fold_left (tick cfg w) (take k (plan cfg w)) (announced cfg st, [])).1 ++ tail.
Proof.
  destruct (main_cases cfg w st) as [(k & Hk & Hlt & ->)|[Hg Hm]].
  - exists k, [InfoInterrupted]. split; [left; exists k; auto|].
    split; [unfold closing; auto|].
    cbn [snd sent metrics log logging]. auto.
  - assert (Hno : ~ interrupts cfg w).
    { intros Hi%(gather_sessions_interrupted (announced cfg st)). congruence. }
    rewrite (gather_sessions_completed _ Hno) in Hm. cbn [snd] in Hm.
    exists (length (plan cfg w)). rewrite firstn_all.
    set (G := (fold_left (tick cfg w) (plan cfg w) (announced cfg st, [])).1) in *.
    destruct (metrics G) as [|m ms] eqn:E.
    + rewrite (print_results_empty cfg w _ G E) in Hm.
      destruct Hm as [[_ ->]|(e & _ & [=] & _)]. exists [ErrorNoMetrics].
      cbn [snd sent metrics log logging]. unfold closing. auto 10.
    + assert (Hl : log (print_results cfg w (clock_end w - clock_start w) G).2 = log G)
        by (apply print_results_log; congruence).
      destruct Hm as [[_ ->]|(e & He & _ & ->)]; cbn [snd sent metrics log logging];
        rewrite ?print_results_sent, ?print_results_metrics, Hl.
      * exists []. rewrite app_nil_r. unfold closing. auto 10.
      * exists [ErrorLoadTestFailed e]. split; [auto|].
        split; [do 3 right; exists e; auto|]. auto.
Qed.

End Runs.

Section Account.

Variable cfg : Config.
Variable w : World.

Lemma of_nat_to_nat (x : Z) : Z.of_nat (Z.to_nat x) = Z.max 0 x.
Proof. lia. Qed.

(** The account of a run at the moment [main] returns. *)
Lemma main_progress st :
  exists k tail issued outcomes recs,
    (interrupts cfg w \/ take k (plan cfg w) = plan cfg w) /\
    closing tail /\
    sent (main cfg w st).2 = sent st ++ issued /\
    Forall (sized_upload cfg) issued /\
    metrics (main cfg w st).2 = metrics st ++ oks outcomes /\
    log (main cfg w st).2
    = log st ++ InfoStarting (num_concurrent cfg)
             :: InfoTestDuration (test_duration_seconds cfg) :: recs ++ tail /\
    Forall (logged_by cfg) recs /\
    processing_failures recs = errs outcomes /\
    length outcomes = length issued /\
    (length issued
     + 10 * remaining (fold_left (schedule_step cfg) (take k (plan cfg w)) [])
     = 10 * (Z.to_nat (documents_per_batch cfg)
             * length (fold_left (schedule_step cfg) (take k (plan cfg w)) [])))%nat.
Proof.
  destruct (main_state cfg w st) as (k & tail & Hk & Htail & Hsent & Hmet & Hlog).
  pose proof (ticks_progress cfg w (announced cfg st) (take k (plan cfg w)) _
                (progress_start cfg (announced cfg st)))
    as (_ & _ & issued & outcomes & recs & H1 & H2 & H3 & H4 & H5 & H6 & H7 & H8).
  rewrite ticks_tasks in H8.
  exists k, tail, issued, outcomes, recs.
  split; [exact Hk|]. split; [exact Htail|].
  split; [now rewrite Hsent, H1|]. split; [exact H2|].
  split; [now rewrite Hmet, H3|]. split.
  { rewrite Hlog, H4. cbn [announced log logging]. now rewrite <- !app_assoc. }
  auto.
Qed.




(** X11. Every request a run sends, however the run ends, is an upload to
    [{base_url}/process] of one of the five corpus documents, under its
    name without the directory and with exactly the number of characters
    the name tells, also when other sessions have rewritten the file in
    between; and there are at most N * B * 10 of them. *)
Theorem every_upload_is_a_corpus_document (st : State) :
  exists issued,
    sent (main cfg w st).2 = sent st ++ issued /\
    Forall (sized_upload cfg) issued /\
    Z.of_nat (length issued)
    <= Z.max 0 (num_concurrent cfg) * Z.max 0 (documents_per_batch cfg) * 10.
Proof.
  destruct (main_progress st)
    as (k & tail & issued & outcomes & recs & _ & _ & Hsent & Hup & _ & _ & _ & _ & _ & Hcount).
  exists issued. split; [exact Hsent|]. split; [exact Hup|].
  pose proof (plan_tasks_length cfg w k) as Hn.
  rewrite <- !of_nat_to_nat. nia.
Qed.


End Account.

(** ** How a run ends *)

Section Endings.

Variable cfg : Config.
Variable w : World.

(** The ways in which [main] returns. *)
Lemma main_endings st :
  exists k,
    let G := (fold_left (tick cfg w) (take k (plan cfg w)) (announced cfg st, [])).1 in
    let summary := print_results cfg w (clock_end w - clock_start w) G in
    (interrupts cfg w /\ main cfg w st = (0, logging InfoInterrupted G)) \/
    (~ interrupts cfg w /\ take k (plan cfg w) = plan cfg w /\
     ((metrics G = [] /\ main cfg w st = (0, logging ErrorNoMetrics G)) \/
      (metrics G <> [] /\ summary.1 = Ok tt /\ main cfg w st = (0, summary.2)) \/
      (exists e, summary_failure e /\ summary.1 = Raise e /\
         main cfg w st = (1, logging (ErrorLoadTestFailed e) summary.2)))).
Proof.
  destruct (main_cases cfg w st) as [(k & Hk & Hlt & ->)|[Hg Hm]].
  - exists k. left. split; [exists k; auto | reflexivity].
  - assert (Hno : ~ interrupts cfg w).
    { intros Hi%(gather_sessions_interrupted cfg w (announced cfg st)). congruence. }
    rewrite (gather_sessions_completed cfg w _ Hno) in Hm. cbn [snd] in Hm.
    exists (length (plan cfg w)). rewrite firstn_all. cbn zeta.
    set (G := (fold_left (tick cfg w) (plan cfg w) (announced cfg st, [])).1) in *.
    right. split; [exact Hno|]. split; [reflexivity|].
    destruct Hm as [[Hr ->]|(e & He & Hr & ->)].
    + destruct (metrics G) as [|m ms] eqn:E.
      * left. split; [reflexivity|]. now rewrite (print_results_empty cfg w _ G E).
      * right; left. split; [discriminate|]. split; [exact Hr | reflexivity].
    + right; right. exists e. auto.
Qed.

Lemma last_record {A} (l : list A) (x : A) : last (l ++ [x]) = Some x.
Proof. apply last_snoc. Qed.


End Endings.

(** ** Runs that collect nothing *)

Section Nothing.

Variable w : World.

(** A run that ends without a record. *)
Lemma empty_run_ending cfg st :
  metrics (main cfg w st).2 = [] ->
  (main cfg w st).1 = 0 /\
  stdout (main cfg w st).2 = stdout st /\
  fs (main cfg w st).2 !! results_filename w = fs st !! results_filename w /\
  (last (log (main cfg w st).2) = Some InfoInterrupted \/
   ~ interrupts cfg w /\ last (log (main cfg w st).2) = Some ErrorNoMetrics).
Proof.
  intros Hempty.
  destruct (main_endings cfg w st) as (k & [[Hi Hm]|(Hno & _ & Hm)]); cbn zeta in *.
  - rewrite Hm. cbn [fst snd stdout fs log logging].
    split; [reflexivity|]. split; [now rewrite ticks_stdout by constructor|]. split.
    + rewrite ticks_other_files; [reflexivity | constructor | apply results_not_corpus].
    + left. apply last_record.
  - destruct Hm as [[He Hm]|[(Hne & _ & Hm)|(e & _ & Hr & Hm)]].
    + rewrite Hm. cbn [fst snd stdout fs log logging].
      split; [reflexivity|]. split; [now rewrite ticks_stdout by constructor|]. split.
      * rewrite ticks_other_files; [reflexivity | constructor | apply results_not_corpus].
      * right. split; [exact Hno | apply last_record].
    + rewrite Hm in Hempty. cbn [snd] in Hempty.
      rewrite print_results_metrics in Hempty. contradiction.
    + rewrite Hm in Hempty. cbn [snd metrics logging] in Hempty.
      rewrite print_results_metrics in Hempty.
      rewrite (print_results_empty cfg w _ _ Hempty) in Hr. discriminate.
Qed.

(** Resuming sessions when none has started does nothing. *)
Lemma resumes_idle cfg ticks st :
  Forall is_resume ticks -> fold_left (tick cfg w) ticks (st, []) = (st, []).
Proof.
  induction 1 as [|[s|s] ticks Ht _ IH]; [reflexivity | destruct Ht |].
  cbn [fold_left tick]. change (@nil Task !! s) with (@None Task). exact IH.
Qed.

Lemma plan_without_sessions cfg :
  num_concurrent cfg <= 0 -> Forall is_resume (plan cfg w).
Proof.
  intros Hn. rewrite plan_phases. unfold starts, range.
  replace (Z.to_nat (num_concurrent cfg)) with 0%nat by lia.
  apply resumes_are_resumes.
Qed.

(** X14. When the service refuses every request (a status of 400 or more),
    the run collects no record and yet returns exit code 0: nothing is
    printed and no results file is written; the only sign is the last record
    of the log, the error [No metrics collected] (or the interrupt, when
    SIGINT arrived). *)
Theorem refused_run_exits_zero (url : string) (concurrent batch_size duration : Z)
    (st : State) :
  (forall s b, refuses (observe w s b)) ->
  let run := main_from url concurrent batch_size duration w st in
  run.1 = 0 /\
  metrics run.2 = [] /\
  stdout run.2 = stdout st /\
  fs run.2 !! results_filename w = fs st !! results_filename w /\
  (last (log run.2) = Some InfoInterrupted \/ last (log run.2) = Some ErrorNoMetrics).
Proof.
  intros Hw. cbn zeta. unfold main_from, __init__.
  set (cfg := mkConfig url concurrent batch_size duration).
  set (st0 := with_metrics (fun _ => []) st).
  assert (Hempty : metrics (main cfg w st0).2 = []) by now rewrite refused_run.
  destruct (empty_run_ending cfg st0 Hempty) as (H1 & H2 & H3 & H4).
  split; [exact H1|]. split; [exact Hempty|]. split; [exact H2|]. split; [exact H3|].
  destruct H4 as [H4|[_ H4]]; auto.
Qed.

(** X15. With no session or no batch to run ([--concurrent] or
    [--batch-size] zero or negative) the program sends no request, collects
    nothing, prints nothing, writes no results file and returns exit code 0;
    with no session it does not even write the corpus: files, directories
    and the random generator are as before. *)
Theorem nothing_to_run (url : string) (concurrent batch_size duration : Z) (st : State) :
  concurrent <= 0 \/ batch_size <= 0 ->
  let run := main_from url concurrent batch_size duration w st in
  run.1 = 0 /\
  sent run.2 = sent st /\
  metrics run.2 = [] /\
  stdout run.2 = stdout st /\
  fs run.2 !! results_filename w = fs st !! results_filename w /\
  (concurrent <= 0 -> fs run.2 = fs st /\ dirs run.2 = dirs st /\ rng run.2 = rng st).
Proof.
  intros Hzero. cbn zeta. unfold main_from, __init__.
  set (cfg := mkConfig url concurrent batch_size duration).
  set (st0 := with_metrics (fun _ => []) st).
  destruct (main_progress cfg w st0)
    as (k & tail & issued & outcomes & recs & _ & _ & Hsent & _ & Hmet & _ & _ & _
        & Hlen & Hcount).
  pose proof (plan_tasks_length cfg w k) as Hn.
  assert (Hissued : issued = []).
  { apply nil_length_inv. cbn [cfg num_concurrent documents_per_batch] in *. nia. }
  subst issued. apply nil_length_inv in Hlen. subst outcomes.
  rewrite app_nil_r in Hsent. cbn [oks] in Hmet.
  assert (Hempty : metrics (main cfg w st0).2 = []) by exact Hmet.
  destruct (empty_run_ending cfg st0 Hempty) as (H1 & H2 & H3 & _).
  split; [exact H1|]. split; [exact Hsent|]. split; [exact Hempty|].
  split; [exact H2|]. split; [exact H3|].
  intros Hnone.
  assert (Hidle : forall j, (fold_left (tick cfg w) (take j (plan cfg w)) (announced cfg st0, [])).1
                            = announced cfg st0).
  { intros j. rewrite resumes_idle; [reflexivity|].
    apply Forall_take, plan_without_sessions. exact Hnone. }
  destruct (main_endings cfg w st0) as (j & [[_ Hm]|(_ & _ & Hm)]); cbn zeta in Hm;
    rewrite Hidle in Hm.
  - rewrite Hm. cbn. auto.
  - destruct Hm as [[_ Hm]|[(Hne & _)|(e & _ & Hr & _)]].
    + rewrite Hm. cbn. auto.
    + destruct Hne. reflexivity.
    + rewrite print_results_empty in Hr by reflexivity. discriminate.
Qed.

End Nothing.

(** ** What the run does not depend on, and what it leaves alone *)

Section Independence.

Variable w : World.

Lemma shift_logging r earlier st :
  logging r (shift earlier st) = shift earlier (logging r st).
Proof. unfold logging, shift. cbn. now rewrite app_assoc. Qed.

Lemma log_blind_bind {A B} (m : Run A) (k : A -> Run B) :
  log_blind m -> (forall a, log_blind (k a)) -> log_blind (m ≫= k).
Proof.
  intros Hm Hk earlier st. unfold mbind, run_bind. rewrite Hm.
  destruct (m st) as [[a|e] st1]; cbn [fst snd]; [apply Hk | reflexivity].
Qed.

Lemma log_blind_modify (f : State -> State) :
  (forall earlier st, f (shift earlier st) = shift earlier (f st)) -> log_blind (modify f).
Proof. intros Hf earlier st. unfold modify. cbn [fst snd]. now rewrite Hf. Qed.

Lemma log_blind_eval {A} (r : Py.result A) : log_blind (eval r).
Proof. intros earlier st. reflexivity. Qed.

Lemma session_start_shift cfg earlier st :
  session_start cfg w (shift earlier st)
  = ((session_start cfg w st).1, shift earlier (session_start cfg w st).2).
Proof.
  rewrite !session_start_eq. cbn [fst snd]. unfold shift, staged.
  cbn [metrics fs dirs rng log stdout sent]. now rewrite app_assoc.
Qed.

Lemma session_batch_shift cfg obs batch_files earlier st :
  session_batch cfg obs batch_files (shift earlier st)
  = ((session_batch cfg obs batch_files st).1,
     shift earlier (session_batch cfg obs batch_files st).2).
Proof.
  rewrite !session_batch_eq. cbn [fst snd]. unfold shift.
  cbn [metrics fs dirs rng log stdout sent]. now rewrite app_assoc.
Qed.

Lemma tick_shift cfg earlier st tasks t :
  tick cfg w (shift earlier st, tasks) t
  = (shift earlier (tick cfg w (st, tasks) t).1, (tick cfg w (st, tasks) t).2).
Proof.
  destruct t as [s|s]; cbn [tick].
  - rewrite session_start_shift. now destruct (session_start cfg w st).
  - destruct (tasks !! s) as [[b [|batch_files rest]]|]; try reflexivity.
    rewrite session_batch_shift.
    now destruct (session_batch cfg (observe w s b) batch_files st) as [[[]|e] st1].
Qed.

Lemma ticks_shift cfg earlier ticks st tasks :
  fold_left (tick cfg w) ticks (shift earlier st, tasks)
  = (shift earlier (fold_left (tick cfg w) ticks (st, tasks)).1,
     (fold_left (tick cfg w) ticks (st, tasks)).2).
Proof.
  revert st tasks; induction ticks as [|t ticks IH]; intros st tasks; [reflexivity|].
  cbn [fold_left]. rewrite tick_shift.
  destruct (tick cfg w (st, tasks) t) as [st1 tasks1]. apply IH.
Qed.

Lemma gather_sessions_blind cfg : log_blind (gather_sessions cfg w).
Proof.
  intros earlier st. unfold gather_sessions.
  destruct (sigint w) as [k|]; [destruct (k <? length (plan cfg w))%nat|];
    now rewrite ticks_shift.
Qed.

Lemma print_results_blind cfg elapsed : log_blind (print_results cfg w elapsed).
Proof.
  intros earlier st. unfold print_results.
  change (metrics (shift earlier st)) with (metrics st).
  destruct (metrics st) as [|m ms]; [cbn [fst snd]; now rewrite shift_logging|].
  generalize (m :: ms). intros l. unfold print.
  match goal with
  | |- ?r (shift earlier st) = _ => assert (Hr : log_blind r)
  end.
  { repeat first
      [ apply log_blind_bind; [|intros ?]
      | apply log_blind_eval
      | apply log_blind_modify; intros ? ?; reflexivity ]. }
  apply Hr.
Qed.

(** The run from the records of the start on. *)
Lemma main_announced cfg st :
  main cfg w st
  = match (gather_sessions cfg w
             ≫= fun _ => print_results cfg w (clock_end w - clock_start w))
            (announced cfg st) with
    | (Ok _, st) => (0, st)
    | (Raise KeyboardInterrupt, st) => (0, logging InfoInterrupted st)
    | (Raise e, st) => (1, logging (ErrorLoadTestFailed e) st)
    end.
Proof.
  unfold main, run_load_test, mbind, run_bind. fold (announced cfg st).
  now destruct (gather_sessions cfg w (announced cfg st)) as [[[]|e] st1].
Qed.

Lemma announced_shift cfg st :
  announced cfg st
  = shift (log st ++ [InfoStarting (num_concurrent cfg);
                      InfoTestDuration (test_duration_seconds cfg)])
      (mkState (metrics st) (fs st) (dirs st) (rng st) [] (stdout st) (sent st)).
Proof.
  unfold announced, logging, shift. cbn [metrics fs dirs rng log stdout sent].
  now rewrite app_nil_r, <- app_assoc.
Qed.

(** X16. [test_duration_seconds] is only logged: a run with another value
    of [--duration] returns the same exit code and leaves the same records,
    requests, files, directories and standard output, and its log differs in
    the one record that reports the duration and in nothing else. The
    duration never bounds the run. *)
Theorem test_duration_is_only_logged (cfg : Config) (seconds : Z) (st : State) :
  let run := main cfg w st in
  let run' := main (with_duration seconds cfg) w st in
  run'.1 = run.1 /\
  metrics run'.2 = metrics run.2 /\ sent run'.2 = sent run.2 /\
  fs run'.2 = fs run.2 /\ dirs run'.2 = dirs run.2 /\
  stdout run'.2 = stdout run.2 /\
  exists rest,
    log run.2 = log st ++ InfoStarting (num_concurrent cfg)
                       :: InfoTestDuration (test_duration_seconds cfg) :: rest /\
    log run'.2 = log st ++ InfoStarting (num_concurrent cfg)
                        :: InfoTestDuration seconds :: rest.
Proof.
  lazy zeta. rewrite !main_announced, !announced_shift.
  set (base := mkState (metrics st) (fs st) (dirs st) (rng st) [] (stdout st) (sent st)).
  assert (Hblind : forall c earlier st0,
             (gather_sessions c w
                ≫= fun _ => print_results c w (clock_end w - clock_start w))
               (shift earlier st0)
             = (((gather_sessions c w
                    ≫= fun _ => print_results c w (clock_end w - clock_start w)) st0).1,
                shift earlier
                  ((gather_sessions c w
                      ≫= fun _ => print_results c w (clock_end w - clock_start w)) st0).2)).
  { intros c. apply log_blind_bind; [apply gather_sessions_blind|].
    intros _. apply print_results_blind. }
  rewrite (Hblind cfg), (Hblind (with_duration seconds cfg)).
  change (gather_sessions (with_duration seconds cfg) w)
    with (gather_sessions cfg w).
  change (print_results (with_duration seconds cfg) w)
    with (print_results cfg w).
  cbn [num_concurrent test_duration_seconds with_duration].
  destruct ((gather_sessions cfg w
               ≫= fun _ => print_results cfg w (clock_end w - clock_start w)) base)
    as [[[]|e] st1]; cbn [fst snd].
  - do 6 (split; [reflexivity|]). exists (log st1).
    cbn [log shift]. now rewrite <- !app_assoc.
  - destruct e; cbn [fst snd metrics sent fs dirs stdout log shift logging];
      do 6 (split; [reflexivity|]); rewrite <- ?app_assoc; eexists; split; reflexivity.
Qed.

End Independence.

(** ** What a run leaves alone *)

Section Frame.

Variable cfg : Config.
Variable w : World.

Lemma dirs_grow (d d' : gset string) : d ⊆ d' -> d ⊆ {["data"]} ∪ d'.
Proof. intros H. etrans; [exact H | apply union_subseteq_r]. Qed.

Lemma dirs_bound (d d' : gset string) :
  d' ⊆ {["data"]} ∪ d -> {["data"]} ∪ d' ⊆ {["data"]} ∪ d.
Proof. intros H. apply union_least; [apply union_subseteq_l | exact H]. Qed.

Lemma print_results_grows elapsed st :
  (exists lines, stdout (print_results cfg w elapsed st).2 = stdout st ++ lines) /\
  dirs st ⊆ dirs (print_results cfg w elapsed st).2 /\
  dirs (print_results cfg w elapsed st).2 ⊆ {["data"]} ∪ dirs st.
Proof.
  unfold print_results. destruct (metrics st) as [|m ms].
  { cbn [snd stdout dirs logging]. split; [exists []; now rewrite app_nil_r|].
    split; [reflexivity | apply union_subseteq_r]. }
  generalize (m :: ms). intros l. unfold print.
  set (P := fun st' : State =>
         (exists lines, stdout st' = stdout st ++ lines) /\
         dirs st ⊆ dirs st' /\ dirs st' ⊆ {["data"]} ∪ dirs st).
  assert (Hp : forall x st', P st' -> P (printing x st')).
  { intros x st' ([lines Hl] & Hd). unfold P. split; [|exact Hd].
    exists (lines ++ [x]). unfold printing. cbn [stdout]. now rewrite Hl, app_assoc. }
  apply (keeps_at P).
  - repeat first
      [ apply keeps_bind_modify; [apply Hp|]
      | apply keeps_bind_eval; intros ? ? ].
    intros st' ([lines Hl] & Hd1 & Hd2). unfold P, modify, export_results_to_csv.
    cbn [snd stdout dirs printing write_file makedirs with_fs with_dirs]. split.
    + exists (lines ++ [ResultsExported (results_filename w)]). now rewrite Hl, app_assoc.
    + split; [now apply dirs_grow | now apply dirs_bound].
  - split; [exists []; now rewrite app_nil_r|].
    split; [reflexivity | apply union_subseteq_r].
Qed.

(** X17. A run only adds. It touches no file but the five corpus files and
    the results file and creates no directory but [data]; the records, the
    requests, the standard output and the log it finds are kept as they are,
    in front of what it adds. *)
Theorem run_only_adds (st : State) :
  let st' := (main cfg w st).2 in
  (forall p, p ∉ corpus -> p <> results_filename w -> fs st' !! p = fs st !! p) /\
  dirs st ⊆ dirs st' /\ dirs st' ⊆ {["data"]} ∪ dirs st /\
  (exists more, metrics st' = metrics st ++ more) /\
  (exists more, sent st' = sent st ++ more) /\
  (exists more, stdout st' = stdout st ++ more) /\
  (exists more, log st' = log st ++ more).
Proof.
  lazy zeta. split; [|split; [|split; [|split; [|split; [|split]]]]].
  - intros p Hp Hr.
    apply (main_invariant cfg w (fun st' => fs st' !! p = fs st !! p)); auto.
    + intros st1 H. rewrite session_start_eq. cbn [snd fs]. now rewrite staged_other.
    + intros st1 s b H. now rewrite session_batch_eq.
    + intros st1 elapsed H. now rewrite print_results_other_files.
  - apply (main_invariant cfg w (fun st' => dirs st ⊆ dirs st')); auto.
    + intros st1 H. rewrite session_start_eq. cbn [snd dirs]. now apply dirs_grow.
    + intros st1 s b H. now rewrite session_batch_eq.
    + intros st1 elapsed H. destruct (print_results_grows elapsed st1) as (_ & H1 & _).
      etrans; [exact H | exact H1].
  - apply (main_invariant cfg w (fun st' => dirs st' ⊆ {["data"]} ∪ dirs st)); auto.
    + intros st1 H. rewrite session_start_eq. cbn [snd dirs]. now apply dirs_bound.
    + intros st1 s b H. now rewrite session_batch_eq.
    + intros st1 elapsed H. destruct (print_results_grows elapsed st1) as (_ & _ & H1).
      etrans; [exact H1 | now apply dirs_bound].
    + apply union_subseteq_r.
  - destruct (main_progress cfg w st)
      as (k & tail & issued & outcomes & recs & _ & _ & _ & _ & Hmet & _). eauto.
  - destruct (main_progress cfg w st)
      as (k & tail & issued & outcomes & recs & _ & _ & Hsent & _). eauto.
  - apply (main_invariant cfg w (fun st' => exists more, stdout st' = stdout st ++ more)).
    + intros st1 r H. exact H.
    + intros st1 H. now rewrite session_start_eq.
    + intros st1 s b H. now rewrite session_batch_eq.
    + intros st1 elapsed [more H].
      destruct (print_results_grows elapsed st1) as ([lines Hl] & _).
      exists (more ++ lines). now rewrite Hl, H, app_assoc.
    + exists []. now rewrite app_nil_r.
  - destruct (main_progress cfg w st)
      as (k & tail & issued & outcomes & recs & _ & _ & _ & _ & _ & Hlog & _). eauto.
Qed.

End Frame.

(** ** A run that the service answers throughout *)

Section Answers.

Variable w : World.






End Answers.

(** ** What the records measure *)

Section Measures.

Variable cfg : Config.
Variable w : World.

Lemma mebibytes (size : Z) :
  (inject_Z (size * 1024) / inject_Z (1024 * 1024) == inject_Z size / 1024)%Q.
Proof.
  rewrite inject_Z_mult. change (inject_Z (1024 * 1024)) with (1024 * 1024)%Q.
  change (inject_Z 1024) with 1024%Q. field.
Qed.

Lemma throughput_not_negative (t : Q) :
  (0 <= (if Qlt_le_dec 0 t then 1 / t else 0))%Q.
Proof.
  destruct (Qlt_le_dec 0 t) as [Hpos|_]; [|apply Qle_refl].
  apply Qlt_le_weak. unfold Qdiv. rewrite Qmult_1_l. now apply Qinv_lt_0_compat.
Qed.

Lemma batch_records_local files obs file_paths :
  sized files -> Forall (fun p => p ∈ corpus) file_paths ->
  Forall local_measures (oks (batch_outcomes cfg files obs file_paths)).
Proof.
  intros Hs Hall. revert obs; induction Hall as [|p ps Hp _ IH]; intros obs; [constructor|].
  unfold batch_outcomes in *. rewrite batch_tasks_cons. cbn [map].
  destruct (process_document cfg files p (obs 0%nat)).2 as [m|e] eqn:E; cbn [oks];
    [|apply IH].
  constructor; [|apply IH].
  apply process_document_Ok in E as (content & status & d & end_time & Hc & _ & _ & ->).
  apply corpus_file in Hp as (i & size & Hi & ->).
  destruct (Hs i size Hi) as (content' & Hc' & Hlen).
  rewrite Hc in Hc'. injection Hc' as <-.
  exists i, size. split; [exact Hi|]. cbn [record memory_usage_mb throughput_per_second].
  split; [rewrite Hlen; apply mebibytes | apply throughput_not_negative].
Qed.

(** X19. The two measures a record does not take from the reply are
    computed locally: in every record a run collects, [memory_usage_mb] is
    the size of the uploaded corpus document in mebibytes (its size class in
    kilobytes divided by 1024), whatever the service did, and the throughput
    is not negative. *)
Theorem memory_usage_is_the_upload_size (st : State) :
  exists collected,
    metrics (main cfg w st).2 = metrics st ++ collected /\
    Forall local_measures collected.
Proof.
  destruct (main_state cfg w st) as (k & tail & _ & _ & _ & -> & _).
  apply (ticks_established cfg w
           (fun st' => exists collected,
                metrics st' = metrics st ++ collected /\ Forall local_measures collected)
           (announced cfg st)).
  - intros st1 H. now rewrite session_start_eq.
  - intros st1 s b Hs (collected & Hm & Hall). rewrite session_batch_eq. cbn [snd metrics].
    exists (collected ++ oks (batch_outcomes cfg (fs st1) (observe w s b) (corpus ++ corpus))).
    split; [now rewrite Hm, app_assoc|].
    apply Forall_app. split; [exact Hall|].
    apply batch_records_local; [exact Hs | apply corpus_twice].
  - apply progress_start.
  - exists []. split; [now rewrite app_nil_r | constructor].
Qed.

End Measures.

(** ** The statements on concrete runs *)


Lemma throughput_of_completed_request_witness :
  Example.staging !! Example.small = Some (create_test_document (fun n => n) 1 0).1 /\
  200 < 400 /\
  exists m,
    (process_document Example.one_batch Example.staging Example.small Sample.instant).2
    = Ok m /\
    total_time m = (Example.started 0 - Example.started 0)%Q /\
    throughput_per_second m = 0%Q.
Proof.
  assert (Hfile : Example.staging !! Example.small
                  = Some (create_test_document (fun n => n) 1 0).1)
    by apply lookup_singleton_eq.
  assert (Hstatus : 200 < 400) by lia.
  split; [exact Hfile|]. split; [exact Hstatus|].
  destruct (throughput_of_completed_request Example.one_batch Example.staging
              Example.small Sample.instant _ 200
              {[ "success" := JBool true;
                 "data" := JDict {[ "total_chunks" := JInt 3;
                                    "successful_chunks" := JInt 3 ]} ]}
              (Example.started 0) Hfile eq_refl Hstatus)
    as [(m & Hm & Ht & Hzero & _) _].
  exists m. split; [exact Hm|]. split; [exact Ht|].
  apply Hzero. rewrite Ht. apply Qplus_opp_r.
Defined.

Lemma operation_id_by_start_time_witness :
  exists m1 m2,
    (process_document Example.one_batch Example.staging Example.small
       (Example.answers 200 Example.processed 0 0 0)).2 = Ok m1 /\
    (process_document Example.one_batch Example.staging Example.small
       (Example.answers 200 Example.processed 0 0 1)).2 = Ok m2 /\
    operation_id m1 = operation_id m2.
Proof.
  assert (H : forall i,
             (process_document Example.one_batch Example.staging Example.small
                (Example.answers 200 Example.processed 0 0 i)).2
             = Ok (record (Example.answers 200 Example.processed 0 0 i)
                     (create_test_document (fun n => n) 1 0).1
                     (Example.started i + 1)
                     {[ "success" := JBool true;
                        "data" := JDict {[ "total_chunks" := JInt 3;
                                           "successful_chunks" := JInt 3 ]} ]})).
  { intros i. apply process_document_Ok. eexists _, 200, _, _.
    split; [apply lookup_singleton_eq|]. split; [reflexivity|]. split; [lia | reflexivity]. }
  eexists _, _. split; [apply (H 0%nat)|]. split; [apply (H 1%nat)|].
  destruct (operation_id_by_start_time Example.one_batch _ _ _ _ _ _ _ (H 0%nat) (H 1%nat))
    as (_ & Hsame & _).
  apply Hsame. vm_compute. reflexivity.
Defined.

(** The product by 1000 is rounded before it is truncated: at this reading
    of the clock the exact product lies just below a whole number of
    milliseconds, and the identifier carries that number. *)
Lemma rounded_before_truncated :
  Py.int (Sample.reading * 1000) = 1700000000122 /\
  Py.int (Py.fmul Sample.reading 1000) = 1700000000123 /\
  operation_id (record (mkObs Sample.reading (NoResponse TimedOut)) "" Sample.reading ∅)
  = "op_1700000000123".
Proof. repeat split; vm_compute; reflexivity. Qed.

(** The claim C2 fails: a reply with [success: false], and a reply with a
    3xx status, each yield a record. *)
Lemma record_without_success :
  let failed_reply := Response 200 true (Value Example.rejected) (Example.started 0 + 1) in
  let redirect := Response 300 true (Value Example.processed) (Example.started 0 + 1) in
  (exists m, (process_document Example.one_batch Example.staging Example.small
                (mkObs (Example.started 0) failed_reply)).2 = Ok m) /\
  ~ successful_reply failed_reply /\
  (exists m, (process_document Example.one_batch Example.staging Example.small
                (mkObs (Example.started 0) redirect)).2 = Ok m) /\
  ~ successful_reply redirect.
Proof.
  cbn zeta. repeat split.
  - eexists. apply process_document_Ok. eexists _, 200, _, _.
    split; [apply lookup_singleton_eq|]. split; [reflexivity|]. split; [lia | reflexivity].
  - intros (status & d & e & [= <- <- <-] & _ & Hd). vm_compute in Hd. discriminate.
  - eexists. apply process_document_Ok. eexists _, 300, _, _.
    split; [apply lookup_singleton_eq|]. split; [reflexivity|]. split; [lia | reflexivity].
  - intros (status & d & e & [= <- <- <-] & Hs & _). lia.
Qed.

(** The replies of the healthy service are accepted. *)
Lemma healthy_answers i :
  exists end_time,
    reply (Example.answers 200 Example.processed 0 0 i)
    = Response 200 true
        (Value (JDict {[ "success" := JBool true;
                         "data" := JDict {[ "total_chunks" := JInt 3;
                                            "successful_chunks" := JInt 3 ]} ]}))
        end_time.
Proof. eexists. reflexivity. Qed.

Lemma plan_one_batch :
  plan Example.one_batch Example.healthy = [Start 0; Resume 0].
Proof. reflexivity. Qed.

Lemma plan_two_batches :
  plan Example.two_batches Example.interrupted = [Start 0; Resume 0; Resume 0].
Proof. reflexivity. Qed.

Lemma one_batch_batches : make_batches Example.one_batch corpus = [corpus ++ corpus].
Proof. reflexivity. Qed.

Lemma two_batches_batches :
  make_batches Example.two_batches corpus = [corpus ++ corpus; corpus ++ corpus].
Proof. reflexivity. Qed.

(** The first two requests of a batch start an eighth of a millisecond
    apart, and the products of their start times by 1000 truncate to the
    same integer. *)
Lemma same_millisecond c0 c1 e0 e1 d :
  operation_id (record (observe Example.healthy 0%nat 0%nat 0%nat) c0 e0 d)
  = operation_id (record (observe Example.healthy 0%nat 0%nat 1%nat) c1 e1 d).
Proof. cbn [operation_id record]. vm_compute. reflexivity. Qed.

(** The claim C3 fails: in a run of one session and one batch against a
    service that answers every request, the first two requests start an
    eighth of a millisecond apart and their records carry the same
    identifier. *)
Lemma concurrent_requests_share_operation_id :
  ~ unique_operation_ids (metrics (main Example.one_batch Example.healthy Example.init).2).
Proof.
  rewrite finished_run_metrics by reflexivity. rewrite plan_one_batch.
  destruct (first_batch_metrics Example.one_batch Example.healthy
              (announced Example.one_batch Example.init) [] 200 _
              one_batch_batches healthy_answers)
    as (c0 & c1 & e0 & e1 & more & ->); [lia|].
  change (metrics (announced Example.one_batch Example.init)) with (@nil ProcessingMetrics).
  cbn [app]. intros Hunique.
  apply (Hunique 0%nat 1%nat _ _ ltac:(lia) eq_refl eq_refl).
  apply same_millisecond.
Qed.

Lemma interrupt_ends_run_without_report_witness :
  sigint Example.interrupted = Some 2%nat /\
  (2 < length (plan Example.two_batches Example.interrupted))%nat /\
  (main Example.two_batches Example.interrupted Example.init).1 = 0 /\
  stdout (main Example.two_batches Example.interrupted Example.init).2 = [].
Proof.
  assert (Hk : sigint Example.interrupted = Some 2%nat) by reflexivity.
  assert (Hlt : (2 < length (plan Example.two_batches Example.interrupted))%nat)
    by (rewrite plan_two_batches; cbn [length]; lia).
  destruct (interrupt_ends_run_without_report Example.two_batches Example.interrupted
              Example.init 2 Hk Hlt) as (Hmain & _ & _ & Hout & _).
  split; [exact Hk|]. split; [exact Hlt|]. split; [|exact Hout].
  rewrite Hmain. reflexivity.
Defined.

(** The claim C5 fails: SIGINT after the first batch of a run of two
    batches finds records in [self.metrics], and yet nothing is printed and
    no results file is written. *)
Lemma interrupt_loses_partial_results :
  let st := (main Example.two_batches Example.interrupted Example.init).2 in
  sigint Example.interrupted = Some 2%nat /\
  (2 < length (plan Example.two_batches Example.interrupted))%nat /\
  metrics st <> [] /\
  stdout st = [] /\
  fs st !! results_filename Example.interrupted = None.
Proof.
  cbn zeta.
  assert (Hlt : (2 < length (plan Example.two_batches Example.interrupted))%nat)
    by (rewrite plan_two_batches; cbn [length]; lia).
  rewrite (interrupted_state Example.two_batches Example.interrupted Example.init 2
             eq_refl Hlt).
  rewrite logging_metrics, logging_stdout, logging_fs.
  rewrite ticks_stdout by constructor.
  rewrite (ticks_other_files Example.two_batches Example.interrupted)
    by (constructor || apply results_not_corpus).
  split; [reflexivity|]. split; [exact Hlt|]. split; [|split].
  - rewrite plan_two_batches. cbn [take].
    destruct (first_batch_metrics Example.two_batches Example.interrupted
                (announced Example.two_batches Example.init) [corpus ++ corpus] 200 _
                two_batches_batches healthy_answers)
      as (c0 & c1 & e0 & e1 & more & ->); [lia|].
    intros H. apply (f_equal length) in H. rewrite length_app in H. cbn [length] in H. lia.
  - reflexivity.
  - apply lookup_empty.
Qed.


(** A service that refuses everything with status 500. *)
Lemma broken_refuses s b : refuses (observe Example.broken s b).
Proof. intros i. eexists 500, _, _, _. split; [reflexivity | lia]. Qed.

Lemma empty_run_writes_no_results_file_witness :
  metrics (main Example.one_batch Example.broken Example.init).2 = [] /\
  stdout (main Example.one_batch Example.broken Example.init).2 = [] /\
  fs (main Example.one_batch Example.broken Example.init).2
    !! results_filename Example.broken = None.
Proof.
  assert (H : metrics (main Example.one_batch Example.broken Example.init).2 = [])
    by (rewrite refused_run; [reflexivity | apply broken_refuses]).
  destruct (empty_run_writes_no_results_file Example.one_batch Example.broken
              Example.init H) as (Hout & _ & _ & Hfs).
  split; [exact H|]. split; [exact Hout | exact Hfs].
Defined.

(** ** The further statements on concrete inputs *)

Lemma create_test_document_nothing_to_write_witness :
  0 <= 0 /\ create_test_document (fun n => n) 0 7 = ("", 7%nat).
Proof.
  split; [lia|]. apply create_test_document_nothing_to_write. lia.
Defined.

Lemma missing_keys_default_to_zero_witness :
  exists m,
    (process_document Example.one_batch Example.staging Example.small Sample.bare).2 = Ok m /\
    successful_chunks m = JInt 0 /\
    has_successful_chunks m = Ok false.
Proof.
  destruct (missing_keys_default_to_zero Example.one_batch Example.staging Example.small
              Sample.bare (create_test_document (fun n => n) 1 0).1 200
              {[ "success" := JBool false; "error" := JStr "unsupported document" ]}
              (Example.started 0 + 1))
    as (m & Hm & _ & _ & _ & Hs & _ & _ & Hc & _).
  - apply lookup_singleton_eq.
  - reflexivity.
  - lia.
  - exists m. split; [exact Hm|]. split; [exact Hs|]. apply Hc. reflexivity.
Defined.

Lemma summary_reports_and_exports_witness :
  metrics Sample.collected <> [] /\
  (print_results Example.one_batch Example.healthy 3 Sample.collected).1 = Ok tt /\
  fs (print_results Example.one_batch Example.healthy 3 Sample.collected).2
    !! results_filename Example.healthy
  = Some (csv_text Example.healthy fieldnames [csv_row Sample.measured]).
Proof.
  assert (Hne : metrics Sample.collected <> []) by discriminate.
  assert (Hok : (print_results Example.one_batch Example.healthy 3 Sample.collected).1
                = Ok tt) by (vm_compute; reflexivity).
  split; [exact Hne|]. split; [exact Hok|].
  pose proof (summary_reports_and_exports Example.one_batch Example.healthy 3
                Sample.collected Hne Hok) as H.
  cbv zeta in H.
  destruct H as (t & p & c & u & n & s & k & rate & _ & _ & _ & _ & _ & _ & _ & _
                 & _ & Hfs & _).
  rewrite Hfs. apply lookup_insert_eq.
Defined.



Lemma refused_run_exits_zero_witness :
  (forall s b, refuses (observe Example.broken s b)) /\
  (main_from "http://localhost:8080" 1 1 60 Example.broken Example.init).1 = 0 /\
  metrics (main_from "http://localhost:8080" 1 1 60 Example.broken Example.init).2 = [].
Proof.
  split; [exact broken_refuses|].
  pose proof (refused_run_exits_zero Example.broken "http://localhost:8080" 1 1 60
                Example.init broken_refuses) as H.
  cbv zeta in H. destruct H as (Hcode & Hmet & _). split; [exact Hcode | exact Hmet].
Defined.

Lemma nothing_to_run_witness :
  (0 <= 0 \/ 10 <= 0) /\
  (main_from "http://localhost:8080" 0 10 60 Example.healthy Example.init).1 = 0 /\
  sent (main_from "http://localhost:8080" 0 10 60 Example.healthy Example.init).2 = [] /\
  fs (main_from "http://localhost:8080" 0 10 60 Example.healthy Example.init).2 = ∅.
Proof.
  assert (Hzero : 0 <= 0 \/ 10 <= 0) by (left; lia).
  split; [exact Hzero|].
  pose proof (nothing_to_run Example.healthy "http://localhost:8080" 0 10 60
                Example.init Hzero) as H.
  cbv zeta in H. destruct H as (Hcode & Hsent & _ & _ & _ & Hfs).
  split; [exact Hcode|]. split; [exact Hsent|]. apply Hfs. lia.
Defined.




(** An integer no double can hold stops the summary after its first ten
    lines, with an [OverflowError] and without a results file; NaN does not
    stop it, and leaves an average that lies outside the minimum and the
    maximum. *)
Lemma oversized_number_stops_summary :
  (print_results Example.one_batch Example.healthy 3 Sample.swollen).1 = Raise OverflowError /\
  length (stdout (print_results Example.one_batch Example.healthy 3 Sample.swollen).2) = 10%nat /\
  fs (print_results Example.one_batch Example.healthy 3 Sample.swollen).2 = ∅.
Proof.
  assert (H : (print_results Example.one_batch Example.healthy 3 Sample.swollen).1
              = Raise OverflowError) by (vm_compute; reflexivity).
  split; [exact H|]. split; [vm_compute; reflexivity|].
  exact (proj1 (summary_failure_fs Example.one_batch Example.healthy 3 Sample.swollen _ H)).
Qed.

Lemma nan_is_printed :
  Statistics.describe_values true
    (map processing_time [Sample.measured; Sample.unordered; Sample.measured])
  = Ok (mkValueStats (NFloat FNaN) (NFloat (FNum (1 # 2))) (NFloat (FNum (1 # 2)))).
Proof. reflexivity. Qed.
